(** * instagram-video-gen: the generation hook and the cuts preview

    A shallow embedding of [useGeneration], the hook that drives the
    script / images / videos / voices / final video pipeline of the front
    end, of the page [Home] that wires it to the previews, and of the
    image-order state of [CutsPreview].

    - The Session ([GenerationState]) is a record; every [setState] call
      of the hook is an updater on it.
    - JavaScript values that may be [null] or [undefined] are [option]s;
      [truthy] and [is_some] are the tests an [if (x)] performs.
    - [scene_id] is a JSON number used only with [===]; it is a [Z] here.
    - The hook is asynchronous.  Its suspended calls (a POST in flight, a
      progress connection being opened, a reader waiting for the next
      chunk) are the [tasks] of the [Hook] machine; an [Event] starts a
      call or settles the promise one task is parked at, and [step] runs
      the hook up to its next [await].  A call sees the Session of the
      render it was made from, which is the current one.
    - The stream is taken line by line, after [split] and [JSON.parse]:
      a [Line] is a decoded record or a line the loop skips. *)

From stdpp Require Import base option list strings pretty gmap.
From Stdlib Require Import ZArith Permutation.

Local Open Scope Z_scope.
Local Open Scope string_scope.
Local Open Scope list_scope.

(** ** Data model *)

Module Phase.
Inductive t :=
| idle | script_review | running | cuts_review | composing
| videos_review | voices_review | transition_edit | finalizing
| complete | error.
End Phase.

Record TransitionSetting := { audioGap : Z }.

Record ScriptScene := {
  scene_id : Z;
  text : string;
  image_prompt : string;
  duration_sec : Z;
}.

Record Script := {
  title : string;
  scenes : list ScriptScene;
}.

Module CutImage.
Record t := { scene_id : Z; imageUrl : string }.
End CutImage.

Module VideoClip.
Record t := { scene_id : Z; videoUrl : string }.
End VideoClip.

Module VoiceClip.
Record t := { scene_id : Z; text : string; voiceUrl : string }.
End VoiceClip.

(** The object [data] that [JSON.parse] yields for one [data:] line.  The
    interface [ProgressEvent] names the progress fields; the stage-ready
    records carry [images] / [videos] / [voices] besides. *)
Module ProgressEvent.
Record t := {
  step : Z;
  stepName : string;
  totalSteps : Z;
  status : option string;
  detail : option string;
  scene : option Z;
  totalScenes : option Z;
  videoUrl : option string;
  images : option (list CutImage.t);
  videos : option (list VideoClip.t);
  voices : option (list VoiceClip.t);
}.
End ProgressEvent.

Record GenerationState := {
  phase : Phase.t;
  runId : option string;
  script : option Script;
  originalScript : option Script;
  images : option (list CutImage.t);
  videos : option (list VideoClip.t);
  voices : option (list VoiceClip.t);
  transitions : option (list TransitionSetting);
  progress : option ProgressEvent.t;
  videoUrl : option string;
  error : option string;
}.

Definition INITIAL_STATE : GenerationState := {|
  phase := Phase.idle;
  runId := None;
  script := None;
  originalScript := None;
  images := None;
  videos := None;
  voices := None;
  transitions := None;
  progress := None;
  videoUrl := None;
  error := None;
|}.

(** Field updates, the [{ ...s, f: v }] of the source. *)
Definition set_phase (p : Phase.t) (s : GenerationState) : GenerationState :=
  {| phase := p; runId := runId s; script := script s;
     originalScript := originalScript s; images := images s;
     videos := videos s; voices := voices s; transitions := transitions s;
     progress := progress s; videoUrl := videoUrl s; error := error s |}.

Definition set_runId (r : option string) (s : GenerationState) : GenerationState :=
  {| phase := phase s; runId := r; script := script s;
     originalScript := originalScript s; images := images s;
     videos := videos s; voices := voices s; transitions := transitions s;
     progress := progress s; videoUrl := videoUrl s; error := error s |}.

Definition set_script (x : option Script) (s : GenerationState) : GenerationState :=
  {| phase := phase s; runId := runId s; script := x;
     originalScript := originalScript s; images := images s;
     videos := videos s; voices := voices s; transitions := transitions s;
     progress := progress s; videoUrl := videoUrl s; error := error s |}.

Definition set_originalScript (x : option Script) (s : GenerationState) : GenerationState :=
  {| phase := phase s; runId := runId s; script := script s;
     originalScript := x; images := images s;
     videos := videos s; voices := voices s; transitions := transitions s;
     progress := progress s; videoUrl := videoUrl s; error := error s |}.

Definition set_images (x : option (list CutImage.t)) (s : GenerationState) : GenerationState :=
  {| phase := phase s; runId := runId s; script := script s;
     originalScript := originalScript s; images := x;
     videos := videos s; voices := voices s; transitions := transitions s;
     progress := progress s; videoUrl := videoUrl s; error := error s |}.

Definition set_videos (x : option (list VideoClip.t)) (s : GenerationState) : GenerationState :=
  {| phase := phase s; runId := runId s; script := script s;
     originalScript := originalScript s; images := images s;
     videos := x; voices := voices s; transitions := transitions s;
     progress := progress s; videoUrl := videoUrl s; error := error s |}.

Definition set_voices (x : option (list VoiceClip.t)) (s : GenerationState) : GenerationState :=
  {| phase := phase s; runId := runId s; script := script s;
     originalScript := originalScript s; images := images s;
     videos := videos s; voices := x; transitions := transitions s;
     progress := progress s; videoUrl := videoUrl s; error := error s |}.

Definition set_transitions (x : option (list TransitionSetting)) (s : GenerationState) : GenerationState :=
  {| phase := phase s; runId := runId s; script := script s;
     originalScript := originalScript s; images := images s;
     videos := videos s; voices := voices s; transitions := x;
     progress := progress s; videoUrl := videoUrl s; error := error s |}.

Definition set_progress (x : option ProgressEvent.t) (s : GenerationState) : GenerationState :=
  {| phase := phase s; runId := runId s; script := script s;
     originalScript := originalScript s; images := images s;
     videos := videos s; voices := voices s; transitions := transitions s;
     progress := x; videoUrl := videoUrl s; error := error s |}.

Definition set_videoUrl (x : option string) (s : GenerationState) : GenerationState :=
  {| phase := phase s; runId := runId s; script := script s;
     originalScript := originalScript s; images := images s;
     videos := videos s; voices := voices s; transitions := transitions s;
     progress := progress s; videoUrl := x; error := error s |}.

Definition set_error (x : option string) (s : GenerationState) : GenerationState :=
  {| phase := phase s; runId := runId s; script := script s;
     originalScript := originalScript s; images := images s;
     videos := videos s; voices := voices s; transitions := transitions s;
     progress := progress s; videoUrl := videoUrl s; error := x |}.

(** [if (x)] on a value that is a string, [null] or [undefined]. *)
Definition truthy (x : option string) : bool :=
  match x with
  | Some s => negb (String.eqb s EmptyString)
  | None => false
  end.

(** [if (x)] on a value that is an object, an array, [null] or
    [undefined]: objects and arrays are truthy, empty or not. *)
Definition is_some {A : Type} (x : option A) : bool :=
  match x with
  | Some _ => true
  | None => false
  end.

(** [x || d] on the same kind of value. *)
Definition or_default (x : option string) (d : string) : string :=
  match x with
  | Some s => if String.eqb s EmptyString then d else s
  | None => d
  end.

(** ** The diff of [confirm] *)

(** [originalScenes.find(s => s.scene_id === id)]: the first match. *)
Fixpoint find_scene (id : Z) (originalScenes : list ScriptScene) : option ScriptScene :=
  match originalScenes with
  | [] => None
  | s :: rest => if Z.eqb (scene_id s) id then Some s else find_scene id rest
  end.

(** [!original || original.image_prompt !== edited.image_prompt] *)
Definition scene_changed (originalScenes : list ScriptScene) (edited : ScriptScene) : bool :=
  match find_scene (scene_id edited) originalScenes with
  | None => true
  | Some original => negb (String.eqb (image_prompt original) (image_prompt edited))
  end.

(** The [for] loop of [confirm]: [acc] is [changedSceneIds] so far, the
    list argument is what remains of [editedScenes]. *)
Fixpoint diff_loop (originalScenes : list ScriptScene) (acc : list Z)
    (editedScenes : list ScriptScene) : list Z :=
  match editedScenes with
  | [] => acc
  | edited :: rest =>
      if scene_changed originalScenes edited
      then diff_loop originalScenes (acc ++ [scene_id edited]) rest
      else diff_loop originalScenes acc rest
  end.

(** [changedSceneIds] as [confirm] computes it from the state it closed
    over: [None] is the [undefined] of the first-generation path. *)
Definition changedSceneIds (state : GenerationState) (editedScript : Script) : option (list Z) :=
  match originalScript state, images state with
  | Some original, Some _ => Some (diff_loop (scenes original) [] (scenes editedScript))
  | _, _ => None
  end.

(** ** The progress stream client: one decoded record *)

(** The callbacks a caller hands to [connectSSE].  A callback of the
    source is [payload => setState(updater)]; here it is the updater as a
    function of the payload.  The payload is [data.images] (or [videos],
    [voices]), which a record may lack. *)
Record Opts := {
  onImagesReady : option (option (list CutImage.t) -> GenerationState -> GenerationState);
  onVideosReady : option (option (list VideoClip.t) -> GenerationState -> GenerationState);
  onVoicesReady : option (option (list VoiceClip.t) -> GenerationState -> GenerationState);
}.

(** [connectSSE(runId)] with [opts] left out, as [finalize] calls it. *)
Definition no_opts : Opts :=
  {| onImagesReady := None; onVideosReady := None; onVoicesReady := None |}.

(** One element of [lines] as the body of [for (const line of lines)]
    sees it: [Skipped] is a line that hits a [continue] (no [data:]
    prefix, empty payload) or whose [try] block throws at once
    ([JSON.parse] fails, or yields [null]); [Decoded data] is a line
    whose payload parsed to the object [data]. *)
Inductive Line :=
| Skipped
| Decoded (data : ProgressEvent.t).

(** [data.status === x] *)
Definition status_is (data : ProgressEvent.t) (x : string) : bool :=
  match ProgressEvent.status data with
  | Some y => String.eqb y x
  | None => false
  end.

(** [x && cb]: the callback when the test holds and it was supplied. *)
Definition supplied {A : Type} (test : bool) (cb : option A) : option A :=
  if test then cb else None.

(** The [try] block for one decoded record: the new Session and whether
    [connectSSE] returned. *)
Definition on_record (opts : Opts) (data : ProgressEvent.t) (s : GenerationState)
    : GenerationState * bool :=
  if status_is data "complete" && truthy (ProgressEvent.videoUrl data) then
    (set_progress None
       (set_videoUrl (ProgressEvent.videoUrl data) (set_phase Phase.complete s)), true)
  else
  match supplied (status_is data "images_ready") (onImagesReady opts) with
  | Some cb => (cb (ProgressEvent.images data) s, true)
  | None =>
  match supplied (status_is data "videos_ready") (onVideosReady opts) with
  | Some cb => (cb (ProgressEvent.videos data) s, true)
  | None =>
  match supplied (status_is data "voices_ready") (onVoicesReady opts) with
  | Some cb => (cb (ProgressEvent.voices data) s, true)
  | None =>
  if status_is data "error" then
    (set_error (Some (or_default (ProgressEvent.detail data) "Unknown error"))
       (set_phase Phase.error s), true)
  else
    (set_progress (Some data) s, false)
  end end end.

(** [for (const line of lines)]: stops at the first [return]. *)
Fixpoint for_lines (opts : Opts) (lines : list Line) (s : GenerationState)
    : GenerationState * bool :=
  match lines with
  | [] => (s, false)
  | Skipped :: rest => for_lines opts rest s
  | Decoded data :: rest =>
      let '(s', returned) := on_record opts data s in
      if returned then (s', true) else for_lines opts rest s'
  end.

(** [while (true)] over the chunks one connection delivers, each chunk
    given as the lines it completes; the list running out is [done]. *)
Fixpoint read_loop (opts : Opts) (chunks : list (list Line)) (s : GenerationState)
    : GenerationState * bool :=
  match chunks with
  | [] => (s, false)
  | lines :: rest =>
      let '(s', returned) := for_lines opts lines s in
      if returned then (s', true) else read_loop opts rest s'
  end.

(** A record after which [connectSSE] returns. *)
Definition terminal (opts : Opts) (data : ProgressEvent.t) : bool :=
  (status_is data "complete" && truthy (ProgressEvent.videoUrl data))
  || (status_is data "images_ready" && is_some (onImagesReady opts))
  || (status_is data "videos_ready" && is_some (onVideosReady opts))
  || (status_is data "voices_ready" && is_some (onVoicesReady opts))
  || status_is data "error".

(** ** The hook as a machine *)

(** Payloads the hook only passes on.  Numbers it never computes with
    ([audioGap], [speed], [volume], the telop sizes) are carried as [Z]. *)
Record StartParams := {
  theme : string;
  voice_id : option string;
  duration : option Z;
  mock : option bool;
  tone : option string;
  first_person : option string;
  second_person : option string;
  referenceImages : option (list string);
  reference_script : option string;
}.

Record Telop := {
  enabled : bool;
  font_size : Z;
  font_style : string;
  font_color : string;
  shadow_color : string;
  shadow_opacity : Z;
  shadow_distance : Z;
  shadow_angle : Z;
}.

Record VoiceOverrides := {
  texts : gmap string string;
  emotions : option (gmap string string);
  speed : option Z;
  volume : option Z;
}.

(** The body of [/api/history/{runId}/restore]. *)
Module Bundle.
Record t := {
  run_id : option string;
  script : option Script;
  images : option (list CutImage.t);
  videos : option (list VideoClip.t);
  voices : option (list VoiceClip.t);
  videoUrl : option string;
}.
End Bundle.

(** Every [fetch] the hook issues.  [GET_progress] carries the id of the
    [AbortController] whose signal it was given. *)
Inductive Request :=
| POST_generate (formData : bool) (params : StartParams)
| POST_continue (runId : string) (body_script : Script) (changed_scene_ids : option (list Z))
| POST_compose (runId : string) (scene_order : list (option Z))
| POST_generate_voices (runId : string)
| POST_regenerate_images (runId : string) (scene_instructions : gmap Z string)
| POST_regenerate_videos (runId : string) (scene_instructions : gmap Z string)
| POST_finalize (runId : string) (body_transitions : option (list TransitionSetting))
    (telop : option Telop)
| POST_regenerate_voices (runId : string) (data : VoiceOverrides)
| GET_progress (runId : string) (signal : nat)
| POST_restore (runId : string).

(** How an awaited [fetch] comes back. *)
Inductive Response (A : Type) :=
| Ok (body : A)                        (* [res.ok], with [res.json()] where it is read *)
| NotOk (status : Z)                   (* [!res.ok] *)
| Rejected (name message : string).    (* the promise rejected with [err] *)
Arguments Ok {A} body.
Arguments NotOk {A} status.
Arguments Rejected {A} name message.

(** How an awaited [reader.read()] comes back. *)
Inductive ReadResult :=
| Chunk (lines : list Line)            (* the lines this chunk completes *)
| Done                                 (* [done] *)
| ReadRejected (name message : string).

(** A suspended call of the hook, by the [await] it is parked at. *)
Inductive Task :=
| AwaitStart                                 (* [start], at its POST *)
| AwaitPost (runId : string) (opts : Opts)   (* a streamed action, at its POST *)
| AwaitConnect (signal : nat) (opts : Opts)  (* [connectSSE], at the progress [fetch] *)
| Reading (signal : nat) (opts : Opts)       (* [connectSSE], at [reader.read()] *)
| AwaitRestore.                              (* [restoreFromHistory], at its POST *)

Record Hook := {
  state : GenerationState;
  abortRef : option nat;          (* [abortRef.current], a controller id *)
  aborted : list nat;             (* controllers on which [abort()] was called *)
  fresh : nat;                    (* next controller / task id *)
  tasks : list (nat * Task);
  requests : list Request;        (* in the order issued *)
}.

Definition useGeneration : Hook :=
  {| state := INITIAL_STATE; abortRef := None; aborted := []; fresh := 0%nat;
     tasks := []; requests := [] |}.

Definition setState (f : GenerationState -> GenerationState) (m : Hook) : Hook :=
  {| state := f (state m); abortRef := abortRef m; aborted := aborted m;
     fresh := fresh m; tasks := tasks m; requests := requests m |}.

(** [abortRef.current?.abort()] *)
Definition abort_current (m : Hook) : Hook :=
  match abortRef m with
  | Some h =>
      {| state := state m; abortRef := abortRef m; aborted := h :: aborted m;
         fresh := fresh m; tasks := tasks m; requests := requests m |}
  | None => m
  end.

(** Issue [req] and park the caller as [k]. *)
Definition await (req : Request) (k : Task) (m : Hook) : Hook :=
  {| state := state m; abortRef := abortRef m; aborted := aborted m;
     fresh := S (fresh m); tasks := tasks m ++ [(fresh m, k)];
     requests := requests m ++ [req] |}.

Definition remove_task (t : nat) (m : Hook) : Hook :=
  {| state := state m; abortRef := abortRef m; aborted := aborted m;
     fresh := fresh m;
     tasks := filter (fun p => p.1 ≠ t) (tasks m);
     requests := requests m |}.

Definition replace_task (t : nat) (k : Task) (m : Hook) : Hook :=
  {| state := state m; abortRef := abortRef m; aborted := aborted m;
     fresh := fresh m;
     tasks := (fun p => if decide (p.1 = t) then (t, k) else p) <$> tasks m;
     requests := requests m |}.

Fixpoint lookup_task (t : nat) (ts : list (nat * Task)) : option Task :=
  match ts with
  | [] => None
  | (t', k) :: rest => if decide (t' = t) then Some k else lookup_task t rest
  end.

(** The [catch] shared by [start] and the streamed actions. *)
Definition on_catch (name message : string) (s : GenerationState) : GenerationState :=
  if String.eqb name "AbortError" then s
  else set_error (Some (or_default (Some message) "Unknown error")) (set_phase Phase.error s).

(** [`API error: ${res.status}`] *)
Definition api_error (status : Z) : string := "API error: " +:+ pretty status.

(** [connectSSE] up to its first [await]: a new controller takes the
    place of the one in [abortRef], and the progress [fetch] is issued
    with its signal. *)
Definition connectSSE (t : nat) (runId : string) (opts : Opts) (m : Hook) : Hook :=
  let signal := fresh m in
  {| state := state m; abortRef := Some signal; aborted := aborted m;
     fresh := S (fresh m);
     tasks := (fun p => if decide (p.1 = t) then (t, AwaitConnect signal opts) else p)
                <$> tasks m;
     requests := requests m ++ [GET_progress runId signal] |}.

(** [const runId = state.runId; if (!runId) return;] *)
Definition active_runId (s : GenerationState) : option string :=
  match runId s with
  | Some r => if String.eqb r EmptyString then None else Some r
  | None => None
  end.

(** [changed_scene_ids] of the request body: set only when
    [changedSceneIds && changedSceneIds.length > 0]. *)
Definition body_changed (changed : option (list Z)) : option (list Z) :=
  match changed with
  | Some (id :: ids) => Some (id :: ids)
  | _ => None
  end.

(** [a || b] on arrays: an array is truthy whatever its length. *)
Definition or_else {A : Type} (a b : option A) : option A :=
  match a with
  | Some x => Some x
  | None => b
  end.

Definition start (params : StartParams) (m : Hook) : Hook :=
  let m := abort_current m in
  let m := setState (fun _ => set_phase Phase.running INITIAL_STATE) m in
  let formData :=
    match referenceImages params with
    | Some (_ :: _) => true
    | _ => false
    end in
  await (POST_generate formData params) AwaitStart m.

Definition confirm (editedScript : Script) (m : Hook) : Hook :=
  match active_runId (state m) with
  | None => m
  | Some runId =>
      let closure := state m in
      let m := setState (fun s => set_progress None (set_phase Phase.running s)) m in
      match changedSceneIds closure editedScript with
      | Some [] =>
          setState (fun s => set_progress None
                       (set_script (Some editedScript) (set_phase Phase.cuts_review s))) m
      | changed =>
          await (POST_continue runId editedScript (body_changed changed))
            (AwaitPost runId
               {| onImagesReady := Some (fun images s =>
                    set_progress None
                      (set_images images
                         (set_originalScript (Some editedScript)
                            (set_script (Some editedScript)
                               (set_phase Phase.cuts_review s)))));
                  onVideosReady := None;
                  onVoicesReady := None |}) m
      end
  end.

Definition compose (sceneOrder : list (option Z)) (m : Hook) : Hook :=
  match active_runId (state m) with
  | None => m
  | Some runId =>
      let m := setState (fun s => set_progress None (set_phase Phase.composing s)) m in
      await (POST_compose runId sceneOrder)
        (AwaitPost runId
           {| onImagesReady := None;
              onVideosReady := Some (fun videos s =>
                set_progress None (set_videos videos (set_phase Phase.videos_review s)));
              onVoicesReady := None |}) m
  end.

Definition generateVoices (m : Hook) : Hook :=
  match active_runId (state m) with
  | None => m
  | Some runId =>
      let m := setState (fun s => set_progress None (set_phase Phase.composing s)) m in
      await (POST_generate_voices runId)
        (AwaitPost runId
           {| onImagesReady := None;
              onVideosReady := None;
              onVoicesReady := Some (fun voices s =>
                set_progress None (set_voices voices (set_phase Phase.voices_review s))) |}) m
  end.

Definition regenerateImage (sceneInstructions : gmap Z string) (m : Hook) : Hook :=
  match active_runId (state m) with
  | None => m
  | Some runId =>
      let m := setState (fun s => set_progress None (set_phase Phase.running s)) m in
      await (POST_regenerate_images runId sceneInstructions)
        (AwaitPost runId
           {| onImagesReady := Some (fun images s =>
                set_progress None (set_images images (set_phase Phase.cuts_review s)));
              onVideosReady := None;
              onVoicesReady := None |}) m
  end.

Definition regenerateVideo (sceneInstructions : gmap Z string) (m : Hook) : Hook :=
  match active_runId (state m) with
  | None => m
  | Some runId =>
      let m := setState (fun s => set_progress None (set_phase Phase.composing s)) m in
      await (POST_regenerate_videos runId sceneInstructions)
        (AwaitPost runId
           {| onImagesReady := None;
              onVideosReady := Some (fun videos s =>
                set_progress None (set_videos videos (set_phase Phase.videos_review s)));
              onVoicesReady := None |}) m
  end.

Definition goToTransitionEdit (m : Hook) : Hook :=
  setState (set_phase Phase.transition_edit) m.

Definition finalize (transitions' : option (list TransitionSetting))
    (telop : option Telop) (m : Hook) : Hook :=
  match active_runId (state m) with
  | None => m
  | Some runId =>
      let closure := state m in
      let m := setState (fun s =>
                 set_transitions (or_else transitions' (transitions s))
                   (set_progress None (set_phase Phase.finalizing s))) m in
      await (POST_finalize runId (or_else transitions' (transitions closure)) telop)
        (AwaitPost runId no_opts) m
  end.

Definition regenerateVoices (data : VoiceOverrides) (m : Hook) : Hook :=
  match active_runId (state m) with
  | None => m
  | Some runId =>
      let m := setState (fun s => set_progress None (set_phase Phase.composing s)) m in
      await (POST_regenerate_voices runId data)
        (AwaitPost runId
           {| onImagesReady := None;
              onVideosReady := None;
              onVoicesReady := Some (fun voices s =>
                set_progress None (set_voices voices (set_phase Phase.voices_review s))) |}) m
  end.

Definition reset (m : Hook) : Hook :=
  setState (fun _ => INITIAL_STATE) (abort_current m).

Definition goToScriptReview (m : Hook) : Hook :=
  setState (fun s =>
      set_originalScript
        (match images s with
         | Some _ => or_else (originalScript s) (script s)
         | None => None
         end)
        (set_progress None (set_phase Phase.script_review s)))
    (abort_current m).

Definition goToCutsReview (m : Hook) : Hook :=
  setState (fun s => set_progress None (set_phase Phase.cuts_review s)) (abort_current m).

Definition goToVoicesReview (m : Hook) : Hook :=
  setState (fun s => set_progress None (set_phase Phase.voices_review s)) (abort_current m).

Definition goToVideosReview (m : Hook) : Hook :=
  setState (fun s => set_progress None (set_phase Phase.videos_review s)) (abort_current m).

Definition restoreFromHistory (runId : string) (m : Hook) : Hook :=
  let m := setState (fun _ => set_phase Phase.running INITIAL_STATE) m in
  await (POST_restore runId) AwaitRestore m.

(** [x && x.length > 0] *)
Definition non_empty {A : Type} (x : option (list A)) : bool :=
  match x with
  | Some (_ :: _) => true
  | _ => false
  end.

(** The phase [restoreFromHistory] settles on: [newState] is built with
    ["complete"], which the [if] chain overwrites where a branch fires. *)
Definition restored_phase (data : Bundle.t) : Phase.t :=
  if truthy (Bundle.videoUrl data) then Phase.complete
  else if non_empty (Bundle.voices data) then Phase.voices_review
  else if non_empty (Bundle.videos data) then Phase.videos_review
  else if non_empty (Bundle.images data) then Phase.cuts_review
  else if is_some (Bundle.script data) then Phase.script_review
  else Phase.complete.

(** [newState] of [restoreFromHistory], after the [if] chain. *)
Definition restored (data : Bundle.t) : GenerationState :=
  {| phase := restored_phase data;
     runId := Bundle.run_id data;
     script := Bundle.script data;
     originalScript :=
       match Bundle.images data with
       | Some _ => Bundle.script data
       | None => None
       end;
     images := Bundle.images data;
     videos := Bundle.videos data;
     voices := Bundle.voices data;
     transitions := None;
     progress := None;
     videoUrl := Bundle.videoUrl data;
     error := None |}.

(** The [catch] of [restoreFromHistory]. *)
Definition restore_catch (message : string) (s : GenerationState) : GenerationState :=
  set_error (Some (or_default (Some message) "復元に失敗しました")) (set_phase Phase.error s).

(** *** Resuming a suspended call *)

(** What an [await] on something given the signal of controller [signal]
    yields: once [abort()] was called on it, the promise rejects with an
    [AbortError] whatever the network had in store. *)
Definition settle {A : Type} (signal : nat) (r : Response A) (m : Hook) : Response A :=
  if decide (signal ∈ aborted m)
  then Rejected "AbortError" "signal is aborted without reason"
  else r.

Definition settle_read (signal : nat) (r : ReadResult) (m : Hook) : ReadResult :=
  if decide (signal ∈ aborted m)
  then ReadRejected "AbortError" "signal is aborted without reason"
  else r.

(** [start] after [await fetch("/api/generate")]; the body is
    [{ run_id, script }]. *)
Definition start_done (t : nat) (r : Response (option string * option Script))
    (m : Hook) : Hook :=
  let m := remove_task t m in
  match r with
  | Ok (run_id, script') =>
      setState (fun s => set_script script' (set_runId run_id (set_phase Phase.script_review s))) m
  | NotOk status => setState (on_catch "Error" (api_error status)) m
  | Rejected name message => setState (on_catch name message) m
  end.

(** A streamed action after its POST: [connectSSE] on success, the
    [catch] otherwise. *)
Definition post_done (t : nat) (runId : string) (opts : Opts) (r : Response unit)
    (m : Hook) : Hook :=
  match r with
  | Ok _ => connectSSE t runId opts m
  | NotOk status => setState (on_catch "Error" (api_error status)) (remove_task t m)
  | Rejected name message => setState (on_catch name message) (remove_task t m)
  end.

(** [connectSSE] after the progress [fetch]: [!eventSource.ok ||
    !eventSource.body] throws into the caller's [catch]. *)
Definition connect_done (t : nat) (signal : nat) (opts : Opts) (r : Response unit)
    (m : Hook) : Hook :=
  match settle signal r m with
  | Ok _ => replace_task t (Reading signal opts) m
  | NotOk _ =>
      setState (on_catch "Error" "Failed to connect to progress stream") (remove_task t m)
  | Rejected name message => setState (on_catch name message) (remove_task t m)
  end.

(** One turn of the [while (true)] of [connectSSE]. *)
Definition read_done (t : nat) (signal : nat) (opts : Opts) (r : ReadResult)
    (m : Hook) : Hook :=
  match settle_read signal r m with
  | Chunk lines =>
      let '(s', returned) := for_lines opts lines (state m) in
      let m := setState (fun _ => s') m in
      if returned then remove_task t m else m
  | Done => remove_task t m
  | ReadRejected name message => setState (on_catch name message) (remove_task t m)
  end.

(** [restoreFromHistory] after its POST. *)
Definition restore_done (t : nat) (r : Response Bundle.t) (m : Hook) : Hook :=
  let m := remove_task t m in
  match r with
  | Ok data => setState (fun _ => restored data) m
  | NotOk status => setState (restore_catch (api_error status)) m
  | Rejected _ message => setState (restore_catch message) m
  end.

(** *** Events *)

Module Action.
Inductive t :=
| start (params : StartParams)
| confirm (editedScript : Script)
| compose (sceneOrder : list (option Z))
| generateVoices
| regenerateImage (sceneInstructions : gmap Z string)
| regenerateVideo (sceneInstructions : gmap Z string)
| finalize (transitions : option (list TransitionSetting)) (telop : option Telop)
| goToTransitionEdit
| regenerateVoices (data : VoiceOverrides)
| reset
| goToScriptReview
| goToCutsReview
| goToVideosReview
| goToVoicesReview
| restoreFromHistory (runId : string).
End Action.

Definition call (a : Action.t) (m : Hook) : Hook :=
  match a with
  | Action.start params => start params m
  | Action.confirm editedScript => confirm editedScript m
  | Action.compose sceneOrder => compose sceneOrder m
  | Action.generateVoices => generateVoices m
  | Action.regenerateImage sceneInstructions => regenerateImage sceneInstructions m
  | Action.regenerateVideo sceneInstructions => regenerateVideo sceneInstructions m
  | Action.finalize transitions' telop => finalize transitions' telop m
  | Action.goToTransitionEdit => goToTransitionEdit m
  | Action.regenerateVoices data => regenerateVoices data m
  | Action.reset => reset m
  | Action.goToScriptReview => goToScriptReview m
  | Action.goToCutsReview => goToCutsReview m
  | Action.goToVideosReview => goToVideosReview m
  | Action.goToVoicesReview => goToVoicesReview m
  | Action.restoreFromHistory runId => restoreFromHistory runId m
  end.

(** The seven actions that end in [connectSSE]. *)
Definition streamed (a : Action.t) : bool :=
  match a with
  | Action.confirm _ | Action.compose _ | Action.generateVoices
  | Action.regenerateImage _ | Action.regenerateVideo _
  | Action.regenerateVoices _ | Action.finalize _ _ => true
  | _ => false
  end.

(** What can happen to the hook: the component calls an action, or the
    promise task [t] is parked at settles. *)
Inductive Event :=
| Call (a : Action.t)
| StartDone (t : nat) (r : Response (option string * option Script))
| PostDone (t : nat) (r : Response unit)
| ConnectDone (t : nat) (r : Response unit)
| ReadDone (t : nat) (r : ReadResult)
| RestoreDone (t : nat) (r : Response Bundle.t).

(** An event addressed to a task that is not parked at that [await]
    cannot occur; the machine ignores it. *)
Definition step (m : Hook) (e : Event) : Hook :=
  match e with
  | Call a => call a m
  | StartDone t r =>
      match lookup_task t (tasks m) with
      | Some AwaitStart => start_done t r m
      | _ => m
      end
  | PostDone t r =>
      match lookup_task t (tasks m) with
      | Some (AwaitPost runId opts) => post_done t runId opts r m
      | _ => m
      end
  | ConnectDone t r =>
      match lookup_task t (tasks m) with
      | Some (AwaitConnect signal opts) => connect_done t signal opts r m
      | _ => m
      end
  | ReadDone t r =>
      match lookup_task t (tasks m) with
      | Some (Reading signal opts) => read_done t signal opts r m
      | _ => m
      end
  | RestoreDone t r =>
      match lookup_task t (tasks m) with
      | Some AwaitRestore => restore_done t r m
      | _ => m
      end
  end.

Definition run (m : Hook) (es : list Event) : Hook := fold_left step es m.

(** The states the hook can be in. *)
Definition reachable (m : Hook) : Prop := exists es, m = run useGeneration es.

(** A stream consumer that is still reading: a [Reading] task whose
    controller was not aborted. *)
Definition live (m : Hook) (p : nat * Task) : bool :=
  match p.2 with
  | Reading signal _ => bool_decide (signal ∉ aborted m)
  | _ => false
  end.

Definition live_consumers (m : Hook) : list (nat * Task) := filter (fun p => live m p = true) (tasks m).

(** The controller a task reads under, if it has one. *)
Definition task_signal (k : Task) : option nat :=
  match k with
  | AwaitConnect signal _ | Reading signal _ => Some signal
  | _ => None
  end.

(** ** The cuts preview: the display order of the images *)

Module CutsPreview.

Record Props := {
  script : Script;
  images : list CutImage.t;
}.

(** The component's own state.  An entry of [imageOrder] is [None]
    where the array holds [undefined]. *)
Record State := {
  imageOrder : list (option Z);
  selectedScenes : gset Z;
  scenePrompts : gmap Z string;
}.

(** The three [useState] initialisers. *)
Definition init (props : Props) : State :=
  {| imageOrder := (fun img => Some (CutImage.scene_id img)) <$> images props;
     selectedScenes := ∅;
     scenePrompts := ∅ |}.

(** [a[i]]: [undefined] past the end. *)
Definition js_get (a : list (option Z)) (i : nat) : option Z :=
  match a !! i with
  | Some v => v
  | None => None
  end.

(** [a[i] = v]: past the end the array grows, the gap reading as
    [undefined]. *)
Definition js_set (i : nat) (v : option Z) (a : list (option Z)) : list (option Z) :=
  if decide (i < length a)%nat then <[i:=v]> a
  else a ++ replicate (i - length a)%nat None ++ [v].

(** [direction: -1 | 1] *)
Inductive Direction := up | down.

Definition offset (direction : Direction) : Z :=
  match direction with
  | up => -1
  | down => 1
  end.

(** [index] is the position [script.scenes.map] hands to the button,
    a natural number; only [target] is checked against the array. *)
Definition swapImages (index : nat) (direction : Direction) (st : State) : State :=
  let target := Z.of_nat index + offset direction in
  if decide (target < 0 ∨ target >= Z.of_nat (length (imageOrder st))) then st
  else
    let prev := imageOrder st in
    let target := Z.to_nat target in
    let next :=
      js_set target (js_get prev index) (js_set index (js_get prev target) prev) in
    {| imageOrder := next;
       selectedScenes := selectedScenes st;
       scenePrompts := scenePrompts st |}.

End CutsPreview.

(** The page while the cuts preview is shown: the hook and the
    component's state side by side. *)
Record Page := {
  hook : Hook;
  cuts : CutsPreview.State;
}.

(** [Home] renders [CutsPreview] in phase [cuts_review] when [script] and
    [images] are there. *)
Definition mount (m : Hook) : option Page :=
  match phase (state m), script (state m), images (state m) with
  | Phase.cuts_review, Some script', Some images' =>
      Some {| hook := m;
              cuts := CutsPreview.init
                        {| CutsPreview.script := script'; CutsPreview.images := images' |} |}
  | _, _, _ => None
  end.

(** A click on one of the two move buttons of a row. *)
Definition click_swap (pg : Page) (click : nat * CutsPreview.Direction) : Page :=
  {| hook := hook pg;
     cuts := CutsPreview.swapImages click.1 click.2 (cuts pg) |}.

(** Both positions of a swap lie inside an order of length [n]. *)
Definition in_range (n : nat) (click : nat * CutsPreview.Direction) : Prop :=
  (click.1 < n)%nat ∧
  0 <= Z.of_nat click.1 + CutsPreview.offset click.2 < Z.of_nat n.

(** ** Statements shared by the properties *)

(** What the changed-id list must be, given the baseline and the edited
    script: an id is listed exactly when some edited scene carries it and
    either no baseline scene has that id or the baseline scene [find]
    returns for it (the first, should ids repeat) has another
    [image_prompt]; an id all of whose edited scenes kept the baseline
    prompt is not listed, whatever their [text] and [duration_sec]. *)
Definition diff_spec (baseline editedScript : Script) (ids : list Z) : Prop :=
  (forall id : Z,
      id ∈ ids <->
      exists e, e ∈ scenes editedScript ∧ scene_id e = id ∧
        ((forall o, o ∈ scenes baseline -> scene_id o ≠ id) ∨
         (exists o, find_scene id (scenes baseline) = Some o ∧
                    image_prompt o ≠ image_prompt e))) ∧
  (forall id : Z,
      (forall e, e ∈ scenes editedScript -> scene_id e = id ->
         exists o, find_scene id (scenes baseline) = Some o ∧
                   image_prompt o = image_prompt e) ->
      id ∉ ids).


(** All edited scenes kept the [image_prompt] of their baseline scene. *)
Definition unchanged_prompts (baseline editedScript : Script) : Prop :=
  forall e, e ∈ scenes editedScript ->
    exists o, find_scene (scene_id e) (scenes baseline) = Some o ∧
              image_prompt o = image_prompt e.

(** [images.find(img => img.scene_id === id)]: the artifact of a scene. *)
Fixpoint image_of (id : Z) (imgs : list CutImage.t) : option CutImage.t :=
  match imgs with
  | [] => None
  | img :: rest => if Z.eqb (CutImage.scene_id img) id then Some img else image_of id rest
  end.

Definition artifact (id : Z) (imgs : option (list CutImage.t)) : option CutImage.t :=
  match imgs with
  | Some l => image_of id l
  | None => None
  end.

(** Phases in which [Home] shows only the progress display. *)
Definition busy (p : Phase.t) : bool :=
  match p with
  | Phase.running | Phase.composing | Phase.finalizing => true
  | _ => false
  end.

(** The actions [Home] wires to a control it renders for Session [s]:
    the form and the history list in [idle], one preview per review
    phase, the transition editor, the final video with its way back, and
    the retry button of [error]. *)
Definition offered (s : GenerationState) (a : Action.t) : bool :=
  match phase s, a with
  | Phase.idle, (Action.start _ | Action.restoreFromHistory _) => true
  | Phase.script_review, (Action.confirm _ | Action.reset) => is_some (script s)
  | Phase.cuts_review, (Action.compose _ | Action.regenerateImage _ | Action.reset) =>
      is_some (script s) && is_some (images s)
  | Phase.videos_review,
    (Action.generateVoices | Action.regenerateVideo _ | Action.reset) =>
      is_some (videos s)
  | Phase.voices_review,
    (Action.goToTransitionEdit | Action.regenerateVoices _ | Action.reset) =>
      is_some (voices s)
  | Phase.transition_edit,
    (Action.finalize _ _ | Action.goToVoicesReview | Action.reset) =>
      is_some (script s)
  | Phase.complete, Action.reset => truthy (videoUrl s)
  | Phase.complete, (Action.goToScriptReview | Action.goToTransitionEdit) =>
      truthy (videoUrl s) && is_some (script s)
  | Phase.complete, Action.goToCutsReview => truthy (videoUrl s) && is_some (images s)
  | Phase.complete, Action.goToVideosReview => truthy (videoUrl s) && is_some (videos s)
  | Phase.complete, Action.goToVoicesReview => truthy (videoUrl s) && is_some (voices s)
  | Phase.error, Action.reset => true
  | _, _ => false
  end.

(** A run in which every call comes from a control the page shows. *)
Fixpoint page_driven (m : Hook) (es : list Event) : Prop :=
  match es with
  | [] => True
  | e :: rest =>
      match e with
      | Call a => offered (state m) a = true
      | _ => True
      end ∧ page_driven (step m e) rest
  end.

(** Ids are handed out in increasing order. *)
Definition ids_below_fresh (m : Hook) : Prop :=
  (forall t k, (t, k) ∈ tasks m -> (t < fresh m)%nat) ∧
  (forall h, h ∈ aborted m -> (h < fresh m)%nat) ∧
  (forall h, abortRef m = Some h -> (h < fresh m)%nat) ∧
  (forall t k h, (t, k) ∈ tasks m -> task_signal k = Some h -> (h < fresh m)%nat).






(** ** Sample data *)

Definition scene1 : ScriptScene :=
  {| scene_id := 1; text := "opening"; image_prompt := "a desk at night"; duration_sec := 3 |}.

Definition scene2 : ScriptScene :=
  {| scene_id := 2; text := "turning point"; image_prompt := "an open window"; duration_sec := 4 |}.

Definition script0 : Script := {| title := "career"; scenes := [scene1; scene2] |}.

(** [scene1] reworded and retimed, [scene2] with a new prompt, and a
    third scene added. *)
Definition script_edited : Script :=
  {| title := "career";
     scenes :=
       [ {| scene_id := 1; text := "a new opening"; image_prompt := "a desk at night";
            duration_sec := 5 |};
         {| scene_id := 2; text := "turning point"; image_prompt := "a closed door";
            duration_sec := 4 |};
         {| scene_id := 3; text := "ending"; image_prompt := "sunrise"; duration_sec := 2 |} ] |}.

(** Only [text] and [duration_sec] touched. *)
Definition script_reworded : Script :=
  {| title := "career";
     scenes :=
       [ {| scene_id := 1; text := "a new opening"; image_prompt := "a desk at night";
            duration_sec := 5 |};
         scene2 ] |}.

Definition image1 : CutImage.t := {| CutImage.scene_id := 1; CutImage.imageUrl := "/img/1.png" |}.
Definition image2 : CutImage.t := {| CutImage.scene_id := 2; CutImage.imageUrl := "/img/2.png" |}.
Definition image1' : CutImage.t := {| CutImage.scene_id := 1; CutImage.imageUrl := "/img/1b.png" |}.
Definition video1 : VideoClip.t := {| VideoClip.scene_id := 1; VideoClip.videoUrl := "/vid/1.mp4" |}.
Definition voice1 : VoiceClip.t :=
  {| VoiceClip.scene_id := 1; VoiceClip.text := "opening"; VoiceClip.voiceUrl := "/voice/1.mp3" |}.

Definition params0 : StartParams :=
  {| theme := "career change"; voice_id := None; duration := None; mock := None;
     tone := None; first_person := None; second_person := None;
     referenceImages := None; reference_script := None |}.

(** A decoded record with the given [status] and nothing else of note. *)
Definition record (st : string) : ProgressEvent.t :=
  {| ProgressEvent.step := 2; ProgressEvent.stepName := "image";
     ProgressEvent.totalSteps := 5; ProgressEvent.status := Some st;
     ProgressEvent.detail := None; ProgressEvent.scene := None;
     ProgressEvent.totalScenes := None; ProgressEvent.videoUrl := None;
     ProgressEvent.images := None; ProgressEvent.videos := None;
     ProgressEvent.voices := None |}.

Definition images_ready (imgs : list CutImage.t) : ProgressEvent.t :=
  {| ProgressEvent.step := 2; ProgressEvent.stepName := "image";
     ProgressEvent.totalSteps := 5; ProgressEvent.status := Some "images_ready";
     ProgressEvent.detail := None; ProgressEvent.scene := None;
     ProgressEvent.totalScenes := None; ProgressEvent.videoUrl := None;
     ProgressEvent.images := Some imgs; ProgressEvent.videos := None;
     ProgressEvent.voices := None |}.

Definition videos_ready (vs : list VideoClip.t) : ProgressEvent.t :=
  {| ProgressEvent.step := 3; ProgressEvent.stepName := "video";
     ProgressEvent.totalSteps := 5; ProgressEvent.status := Some "videos_ready";
     ProgressEvent.detail := None; ProgressEvent.scene := None;
     ProgressEvent.totalScenes := None; ProgressEvent.videoUrl := None;
     ProgressEvent.images := None; ProgressEvent.videos := Some vs;
     ProgressEvent.voices := None |}.

Definition voices_ready (vs : list VoiceClip.t) : ProgressEvent.t :=
  {| ProgressEvent.step := 4; ProgressEvent.stepName := "voice";
     ProgressEvent.totalSteps := 5; ProgressEvent.status := Some "voices_ready";
     ProgressEvent.detail := None; ProgressEvent.scene := None;
     ProgressEvent.totalScenes := None; ProgressEvent.videoUrl := None;
     ProgressEvent.images := None; ProgressEvent.videos := None;
     ProgressEvent.voices := Some vs |}.

Definition completed (url : string) : ProgressEvent.t :=
  {| ProgressEvent.step := 5; ProgressEvent.stepName := "compose";
     ProgressEvent.totalSteps := 5; ProgressEvent.status := Some "complete";
     ProgressEvent.detail := None; ProgressEvent.scene := None;
     ProgressEvent.totalScenes := None; ProgressEvent.videoUrl := Some url;
     ProgressEvent.images := None; ProgressEvent.videos := None;
     ProgressEvent.voices := None |}.


(** Script and images restored, nothing later. *)
Definition cuts_bundle : Bundle.t :=
  {| Bundle.run_id := Some "run-1"; Bundle.script := Some script0;
     Bundle.images := Some [image1; image2];
     Bundle.videos := None; Bundle.voices := None; Bundle.videoUrl := None |}.

(** Theme submitted, script received, confirmed, images received: the
    page shows the cuts.  Task 0 is [start], task 1 is [confirm] reading
    under controller 2. *)
Definition to_cuts_review : list Event :=
  [ Call (Action.start params0);
    StartDone 0 (Ok (Some "run-1", Some script0));
    Call (Action.confirm script0);
    PostDone 1 (Ok ());
    ConnectDone 1 (Ok ());
    ReadDone 1 (Chunk [Skipped; Decoded (record "running");
                       Decoded (images_ready [image1; image2])]) ].

(** On to the voices: task 3 is [compose] under controller 4, task 5 is
    [generateVoices] under controller 6. *)
Definition to_voices_review : list Event :=
  to_cuts_review ++
  [ Call (Action.compose [Some 1; Some 2]);
    PostDone 3 (Ok ());
    ConnectDone 3 (Ok ());
    ReadDone 3 (Chunk [Decoded (videos_ready [video1])]);
    Call Action.generateVoices;
    PostDone 5 (Ok ());
    ConnectDone 5 (Ok ());
    ReadDone 5 (Chunk [Decoded (voices_ready [voice1])]) ].

(** [confirm] is reading its stream (task 1, controller 2) when the hook
    is told to [compose] and the POST of [compose] (task 3) is accepted. *)
Definition second_request : list Event :=
  [ Call (Action.start params0);
    StartDone 0 (Ok (Some "run-1", Some script0));
    Call (Action.confirm script0);
    PostDone 1 (Ok ());
    ConnectDone 1 (Ok ());
    Call (Action.compose [Some 1; Some 2]) ].

(** The second stream opens under controller 4. *)
Definition two_streams : list Event :=
  second_request ++ [ PostDone 3 (Ok ()); ConnectDone 3 (Ok ()) ].



(** The Session once the cuts of [script0] are under review. *)
Definition cuts_session : GenerationState := state (run useGeneration to_cuts_review).

(** No record of [lines] ends the connection. *)
Definition none_terminal (opts : Opts) (lines : list Line) : Prop :=
  Forall (fun line =>
            match line with
            | Decoded data => terminal opts data = false
            | Skipped => True
            end) lines.

(** A regeneration of scene 1 from the cuts, answered with that one
    image.  Task 3 is [regenerateImage], reading under controller 4. *)
Definition regenerate_scene1 : list Event :=
  to_cuts_review ++
  [ Call (Action.regenerateImage {[1 := "brighter"]});
    PostDone 3 (Ok ());
    ConnectDone 3 (Ok ());
    ReadDone 3 (Chunk [Decoded (images_ready [image1'])]) ].


(** The actions that call [abortRef.current?.abort()]. *)
Definition aborting (a : Action.t) : bool :=
  match a with
  | Action.start _ | Action.reset | Action.goToScriptReview | Action.goToCutsReview
  | Action.goToVideosReview | Action.goToVoicesReview => true
  | _ => false
  end.

(** The stream rule as the specification states it, in three parts:
    opening the connection of task [t] cancels the handle held so far; *)
Definition cancels_held_handle (m : Hook) (t : nat) : Prop :=
  forall h, abortRef m = Some h -> h ∈ aborted (step m (PostDone t (Ok ()))).

(** at most one consumer reads; *)
Definition single_consumer (m : Hook) : Prop :=
  (length (live_consumers m) <= 1)%nat.

(** and a reader that is no longer the one in [abortRef] cannot touch
    the Session. *)
Definition superseded_is_silent (m : Hook) : Prop :=
  forall t signal opts r,
    lookup_task t (tasks m) = Some (Reading signal opts) ->
    abortRef m ≠ Some signal ->
    state (step m (ReadDone t r)) = state m.

(** At most one call of the hook is parked, and then the page shows the
    progress display. *)
Definition one_call_at_most (m : Hook) : Prop :=
  tasks m = [] ∨ (busy (phase (state m)) = true ∧ exists t k, tasks m = [(t, k)]).

(** * The rest of the front end *)

(** ** The progress stream client: from chunks of text to lines *)

(** A string is its sequence of code units, here those below 256 (the
    protocol lines and the run ids are ASCII). *)

(** ["\n"] *)
Definition newline : Ascii.ascii := Ascii.ascii_of_nat 10.

(** [text.split("\n")]: never empty; the last piece is what follows the
    last newline. *)
Fixpoint split (text : string) : list string :=
  match text with
  | EmptyString => [EmptyString]
  | String c rest =>
      if Ascii.eqb c newline then EmptyString :: split rest
      else
        match split rest with
        | piece :: pieces => String c piece :: pieces
        | [] => [String c EmptyString]
        end
  end.

(** One turn of the read loop on the text side: [buffer += chunk],
    [lines = buffer.split("\n")], [buffer = lines.pop() || ''].  The
    result is the lines handed to the [for] loop and the new buffer. *)
Definition take_lines (buffer chunk : string) : list string * string :=
  let lines := split (buffer +:+ chunk) in
  (List.removelast lines, List.last lines EmptyString).

(** The turns of one connection, chunk after chunk. *)
Fixpoint read_chunks (buffer : string) (chunks : list string) : list (list string) * string :=
  match chunks with
  | [] => ([], buffer)
  | chunk :: rest =>
      let '(lines, buffer') := take_lines buffer chunk in
      let '(more, final) := read_chunks buffer' rest in
      (lines :: more, final)
  end.

(** The text a connection delivered, chunk boundaries forgotten. *)
Fixpoint concat_text (chunks : list string) : string :=
  match chunks with
  | [] => EmptyString
  | chunk :: rest => chunk +:+ concat_text rest
  end.

Section Decoder.

(** [String.prototype.trim] and [JSON.parse] are the platform's.
    [JSON_parse] is [None] where the [try] block is left at once: the
    text is no JSON, or it is [null]. *)
Variable trim : string -> string.
Variable JSON_parse : string -> option ProgressEvent.t.

(** The head of the [for] body: the two [continue]s and the parse. *)
Definition decode_line (line : string) : Line :=
  if String.prefix "data:" line then
    let jsonStr := trim (String.substring 5 (String.length line - 5) line) in
    if String.eqb jsonStr EmptyString then Skipped
    else
      match JSON_parse jsonStr with
      | Some data => Decoded data
      | None => Skipped
      end
  else Skipped.

(** What [connectSSE] reads off a connection that delivers [chunks]. *)
Definition decode_stream (chunks : list string) : list (list Line) :=
  (fun lines : list string => decode_line <$> lines)
    <$> (read_chunks EmptyString chunks).1.

End Decoder.

(** The last decoded record of some lines, if there is one. *)
Fixpoint last_decoded (lines : list Line) : option ProgressEvent.t :=
  match lines with
  | [] => None
  | Skipped :: rest => last_decoded rest
  | Decoded data :: rest =>
      match last_decoded rest with
      | Some later => Some later
      | None => Some data
      end
  end.

(** ** The selection of scenes to regenerate *)

(** [CutsPreview] and [VideosPreview] keep the same two pieces of state
    and the same three handlers over them. *)
Module SceneSelection.

Record State := {
  selectedScenes : gset Z;
  scenePrompts : gmap Z string;
}.

Definition init : State := {| selectedScenes := ∅; scenePrompts := ∅ |}.

(** Deselecting a scene also drops its prompt. *)
Definition toggleSceneSelection (sceneId : Z) (st : State) : State :=
  if decide (sceneId ∈ selectedScenes st) then
    {| selectedScenes := selectedScenes st ∖ {[sceneId]};
       scenePrompts := delete sceneId (scenePrompts st) |}
  else
    {| selectedScenes := {[sceneId]} ∪ selectedScenes st;
       scenePrompts := scenePrompts st |}.

Definition updateScenePrompt (sceneId : Z) (prompt : string) (st : State) : State :=
  {| selectedScenes := selectedScenes st;
     scenePrompts := <[sceneId := prompt]> (scenePrompts st) |}.

(** [selectedScenes.forEach(id => sceneInstructions[id] =
    scenePrompts[id] || '')] *)
Definition sceneInstructions (st : State) : gmap Z string :=
  set_fold (fun id acc => <[id := or_default (scenePrompts st !! id) EmptyString]> acc)
           ∅ (selectedScenes st).

(** [handleRegenerateSelected]: the map handed to the callback, if the
    callback is called at all, and the state afterwards. *)
Definition handleRegenerateSelected (st : State) : option (gmap Z string) * State :=
  if decide (0 < size (selectedScenes st))%nat
  then (Some (sceneInstructions st), init)
  else (None, st).

(** What the page lets the user do to a selection: tick or untick any
    row, and type into the prompt box of a row that is ticked. *)
Inductive Input :=
| Toggle (sceneId : Z)
| Type_prompt (sceneId : Z) (prompt : string).

Definition allowed (st : State) (i : Input) : Prop :=
  match i with
  | Toggle _ => True
  | Type_prompt sceneId _ => sceneId ∈ selectedScenes st
  end.

Definition input (st : State) (i : Input) : State :=
  match i with
  | Toggle sceneId => toggleSceneSelection sceneId st
  | Type_prompt sceneId prompt => updateScenePrompt sceneId prompt st
  end.

Fixpoint all_allowed (st : State) (inputs : list Input) : Prop :=
  match inputs with
  | [] => True
  | i :: rest => allowed st i ∧ all_allowed (input st i) rest
  end.

End SceneSelection.

(** The selection inside the state of [CutsPreview]. *)
Definition cuts_selection (st : CutsPreview.State) : SceneSelection.State :=
  {| SceneSelection.selectedScenes := CutsPreview.selectedScenes st;
     SceneSelection.scenePrompts := CutsPreview.scenePrompts st |}.

Definition with_selection (sel : SceneSelection.State) (st : CutsPreview.State)
    : CutsPreview.State :=
  {| CutsPreview.imageOrder := CutsPreview.imageOrder st;
     CutsPreview.selectedScenes := SceneSelection.selectedScenes sel;
     CutsPreview.scenePrompts := SceneSelection.scenePrompts sel |}.

(** The regenerate button of [CutsPreview]: [onRegenerateImage] is the
    hook's [regenerateImage].  The result is the hook after the click
    and the component's state, if [Home] still renders [CutsPreview]
    for that hook: once the phase has left [cuts_review] the component
    is unmounted and its state is gone, [None]; a later [mount] starts
    from [CutsPreview.init] again. *)
Definition click_regenerate (pg : Page) : Hook * option CutsPreview.State :=
  match SceneSelection.handleRegenerateSelected (cuts_selection (cuts pg)) with
  | (Some sceneInstructions, sel) =>
      let m := regenerateImage sceneInstructions (hook pg) in
      (m, match mount m with
          | Some _ => Some (with_selection sel (cuts pg))
          | None => None
          end)
  | (None, _) => (hook pg, Some (cuts pg))
  end.

(** The compose button of [CutsPreview]: [onCompose(imageOrder)]. *)
Definition click_compose (pg : Page) : Page :=
  {| hook := compose (CutsPreview.imageOrder (cuts pg)) (hook pg);
     cuts := cuts pg |}.

(** [Object.fromEntries(images.map(img => [img.scene_id, img.imageUrl]))]:
    a later entry of the same key replaces an earlier one. *)
Definition imageMap (images : list CutImage.t) : gmap Z string :=
  foldl (fun acc img => <[CutImage.scene_id img := CutImage.imageUrl img]> acc) ∅ images.

(** [imageMap[imageOrder[index]]]: the [src] of the row at [index]. *)
Definition row_image (images : list CutImage.t) (st : CutsPreview.State) (index : nat)
    : option string :=
  match CutsPreview.js_get (CutsPreview.imageOrder st) index with
  | Some imageSceneId => imageMap images !! imageSceneId
  | None => None
  end.

(** [script.scenes.map((scene, index) => ...)]: one row per scene of
    the script, each with its [src]. *)
Definition rows (props : CutsPreview.Props) (st : CutsPreview.State) : list (option string) :=
  imap (fun index _ => row_image (CutsPreview.images props) st index)
       (scenes (CutsPreview.script props)).

(** ** The script preview *)

Module ScriptPreview.

(** The component keeps [title] and [scenes]; together they are the
    [Script] that [handleConfirm] hands to [onConfirm]. *)

(** [Partial<ScriptScene>]: [None] is a key the patch does not have. *)
Record Patch := {
  p_scene_id : option Z;
  p_text : option string;
  p_image_prompt : option string;
  p_duration_sec : option Z;
}.

(** [{ ...s, ...patch }] *)
Definition patched (s : ScriptScene) (patch : Patch) : ScriptScene :=
  {| scene_id := default (scene_id s) (p_scene_id patch);
     text := default (text s) (p_text patch);
     image_prompt := default (image_prompt s) (p_image_prompt patch);
     duration_sec := default (duration_sec s) (p_duration_sec patch) |}.

Definition updateScene (index : nat) (patch : Patch) (st : Script) : Script :=
  {| title := title st;
     scenes := imap (fun i s => if decide (i = index) then patched s patch else s)
                    (scenes st) |}.

(** [next.map((s, i) => ({ ...s, scene_id: i + 1 }))] *)
Definition renumber (l : list ScriptScene) : list ScriptScene :=
  imap (fun i s =>
          {| scene_id := Z.of_nat i + 1; text := text s;
             image_prompt := image_prompt s; duration_sec := duration_sec s |}) l.

(** [moveScene].  [index] is a row of [scenes.map], so a position of
    the list; were it past the end, the swap would leave a hole that the
    renumbering spreads into a scene without text, which is no
    [ScriptScene]: [None]. *)
Definition moveScene (index : nat) (direction : CutsPreview.Direction) (st : Script)
    : option Script :=
  let target := Z.of_nat index + CutsPreview.offset direction in
  if decide (target < 0 ∨ target >= Z.of_nat (length (scenes st))) then Some st
  else
    match scenes st !! index, scenes st !! Z.to_nat target with
    | Some a, Some b =>
        Some {| title := title st;
                scenes := renumber (<[Z.to_nat target := a]> (<[index := b]> (scenes st))) |}
    | _, _ => None
    end.

(** [handleConfirm]: [onConfirm] is the hook's [confirm]. *)
Definition handleConfirm (st : Script) (m : Hook) : Hook := confirm st m.

(** A patch as the text box and the duration input of a row produce
    it: it has neither [scene_id] nor [image_prompt]. *)
Definition keeps_prompt (patch : Patch) : Prop :=
  p_scene_id patch = None ∧ p_image_prompt patch = None.

End ScriptPreview.

(** Scenes numbered by position, as the back end hands them out and as
    [moveScene] leaves them. *)
Definition numbered (l : list ScriptScene) : Prop :=
  forall i s, l !! i = Some s -> scene_id s = Z.of_nat i + 1.

(** ** The history list *)

Module History.

Record HistoryItem := {
  run_id : string;
  created_at : string;
  theme : string;
  title : string;
  thumbnail : option string;
  videoUrl : option string;
  scene_count : Z;
}.

(** [dateStr.includes("_")] *)
Fixpoint includes_underscore (s : string) : bool :=
  match s with
  | EmptyString => false
  | String c rest => Ascii.eqb c (Ascii.ascii_of_nat 95) || includes_underscore rest
  end.

(** [s.slice(from, to)] for [0 <= from <= to]. *)
Definition slice (from to : nat) (s : string) : string :=
  String.substring from (to - from) s.

Definition formatDate (dateStr : string) : string :=
  if Nat.eqb (String.length dateStr) 15 && includes_underscore dateStr then
    let year := slice 0 4 dateStr in
    let month := slice 4 6 dateStr in
    let day := slice 6 8 dateStr in
    let hour := slice 9 11 dateStr in
    let min := slice 11 13 dateStr in
    year +:+ "/" +:+ month +:+ "/" +:+ day +:+ " " +:+ hour +:+ ":" +:+ min
  else dateStr.

(** [handleDelete] once the user said yes, by how the DELETE came back:
    the list only changes when the server accepted. *)
Definition handleDelete (runId : string) (r : Response unit) (history : list HistoryItem)
    : list HistoryItem :=
  match r with
  | Ok _ => filter (fun h => run_id h ≠ runId) history
  | _ => history
  end.

End History.

(** ** The progress display *)

Module ProgressDisplay.

(** The five [STEPS], by their [stepNum]. *)
Definition stepNums : list Z := [1; 2; 3; 4; 5].

(** [progress?.step ?? 0] *)
Definition currentStep (progress : option ProgressEvent.t) : Z :=
  match progress with
  | Some p => ProgressEvent.step p
  | None => 0
  end.

Definition isActive (progress : option ProgressEvent.t) (stepNum : Z) : bool :=
  Z.eqb stepNum (currentStep progress).

Definition isDone (progress : option ProgressEvent.t) (stepNum : Z) : bool :=
  Z.ltb stepNum (currentStep progress)
  || (Z.eqb stepNum (currentStep progress)
      && match progress with
         | Some p => status_is p "done"
         | None => false
         end).

(** How the circle of a step is drawn: the first test that holds. *)
Inductive Look := done_look | active_look | idle_look.

Definition look (progress : option ProgressEvent.t) (stepNum : Z) : Look :=
  if isDone progress stepNum then done_look
  else if isActive progress stepNum then active_look
  else idle_look.

End ProgressDisplay.

(** A text without a newline. *)
Fixpoint no_newline (s : string) : bool :=
  match s with
  | EmptyString => true
  | String c rest => negb (Ascii.eqb c newline) && no_newline rest
  end.

(** ** More sample data *)

(** A line break, and a stand-in for [JSON.parse] that knows one text. *)
Definition line_break : string := String newline EmptyString.

Definition parse_sample (text : string) : option ProgressEvent.t :=
  if String.eqb text "{}" then Some (record "running") else None.

(** An [error] record with a detail. *)
Definition failed (why : option string) : ProgressEvent.t :=
  {| ProgressEvent.step := 3; ProgressEvent.stepName := "video";
     ProgressEvent.totalSteps := 5; ProgressEvent.status := Some "error";
     ProgressEvent.detail := why; ProgressEvent.scene := None;
     ProgressEvent.totalScenes := None; ProgressEvent.videoUrl := None;
     ProgressEvent.images := None; ProgressEvent.videos := None;
     ProgressEvent.voices := None |}.

(** The hook once the cuts of [script0] are under review. *)
Definition at_cuts : Hook := run useGeneration to_cuts_review.

(** The hook once the voices are under review. *)
Definition at_voices : Hook := run useGeneration to_voices_review.

(** Overrides that change one text. *)
Definition overrides0 : VoiceOverrides :=
  {| texts := {["1" := "a new opening"]}; emotions := None; speed := None; volume := None |}.

(** The go-to actions, by the phase they lead to. *)
Definition navigation (a : Action.t) : option Phase.t :=
  match a with
  | Action.goToScriptReview => Some Phase.script_review
  | Action.goToCutsReview => Some Phase.cuts_review
  | Action.goToVideosReview => Some Phase.videos_review
  | Action.goToVoicesReview => Some Phase.voices_review
  | Action.goToTransitionEdit => Some Phase.transition_edit
  | _ => None
  end.

(** What the page lets happen in state [m]: a call it offers, or
    anything the network does. *)
Definition page_allows (m : Hook) (e : Event) : Prop :=
  match e with
  | Call a => offered (state m) a = true
  | _ => True
  end.

(** A stream that ends without a terminal record. *)
Definition stream_runs_dry : list Event :=
  firstn 5 to_cuts_review ++ [ReadDone 1 (Chunk [Decoded (record "running")]); ReadDone 1 Done].
(** * Properties *)

(** ** The diff engine *)

Lemma find_scene_None (id : Z) (l : list ScriptScene) :
  find_scene id l = None <-> forall o, o ∈ l -> scene_id o ≠ id.
Proof.
  induction l as [|s l IH]; simpl.
  - split; [intros _ o Ho; inversion Ho | done].
  - destruct (Z.eqb_spec (scene_id s) id) as [E|E].
    + split; [done|]. intros H. exfalso. apply (H s); [left | done].
    + rewrite IH. split.
      * intros H o Ho. apply elem_of_cons in Ho as [->|Ho]; auto.
      * intros H o Ho. apply H. by right.
Qed.

Lemma find_scene_Some (id : Z) (l : list ScriptScene) (o : ScriptScene) :
  find_scene id l = Some o -> o ∈ l ∧ scene_id o = id.
Proof.
  induction l as [|s l IH]; simpl; [done|].
  destruct (Z.eqb_spec (scene_id s) id) as [E|E].
  - intros [= ->]. split; [left | done].
  - intros H. destruct (IH H) as [? ?]. split; [by right | done].
Qed.

(** With unique baseline ids, [find] returns the one scene of that id. *)
Lemma find_scene_unique (id : Z) (l : list ScriptScene) (o : ScriptScene) :
  NoDup (scene_id <$> l) -> o ∈ l -> scene_id o = id -> find_scene id l = Some o.
Proof.
  induction l as [|s l IH]; simpl; intros Hnd Ho Hid; [inversion Ho|].
  apply NoDup_cons in Hnd as [Hs Hnd].
  destruct (Z.eqb_spec (scene_id s) id) as [E|E].
  - apply elem_of_cons in Ho as [->|Ho]; [done|].
    exfalso. apply Hs. rewrite E, <- Hid. by apply list_elem_of_fmap_2.
  - apply elem_of_cons in Ho as [->|Ho]; [done|]. by apply IH.
Qed.

Lemma scene_changed_true (l : list ScriptScene) (e : ScriptScene) :
  scene_changed l e = true <->
  (forall o, o ∈ l -> scene_id o ≠ scene_id e) ∨
  (exists o, find_scene (scene_id e) l = Some o ∧ image_prompt o ≠ image_prompt e).
Proof.
  unfold scene_changed.
  destruct (find_scene (scene_id e) l) as [o|] eqn:F.
  - destruct (String.eqb_spec (image_prompt o) (image_prompt e)) as [E|E]; simpl.
    + split; [done|]. intros [H|(o' & [= <-] & H)]; [|done].
      apply find_scene_Some in F as [Ho Hid]. by destruct (H o Ho).
    + split; [|done]. intros _. right. by exists o.
  - split; [|done]. intros _. left. by apply find_scene_None.
Qed.

(** The loop appends, in script order, the id of every changed scene. *)
Lemma diff_loop_filter (l : list ScriptScene) (acc : list Z) (edited : list ScriptScene) :
  diff_loop l acc edited = acc ++ (scene_id <$> List.filter (scene_changed l) edited).
Proof.
  revert acc. induction edited as [|e edited IH]; intros acc; simpl.
  - by rewrite app_nil_r.
  - destruct (scene_changed l e); simpl; rewrite IH; [|done].
    by rewrite <- app_assoc.
Qed.

Lemma diff_loop_elem (l : list ScriptScene) (edited : list ScriptScene) (id : Z) :
  id ∈ diff_loop l [] edited <->
  exists e, e ∈ edited ∧ scene_id e = id ∧ scene_changed l e = true.
Proof.
  rewrite diff_loop_filter. simpl. rewrite list_elem_of_fmap. split.
  - intros (e & -> & He). apply list_elem_of_In, filter_In in He as [He Hc].
    exists e. by rewrite list_elem_of_In.
  - intros (e & He & <- & Hc). exists e. split; [done|].
    apply list_elem_of_In, filter_In. by rewrite <- list_elem_of_In.
Qed.

(** C1. When a baseline script and images exist, the changed-id list
    [confirm] computes holds exactly the [scene_id]s of edited scenes that
    are new (no baseline scene of that id) or whose [image_prompt] differs
    from the baseline scene of that id; scenes that kept their
    [image_prompt] are left out whatever became of [text] and
    [duration_sec]. *)
Theorem C1_changed_ids_exact (state0 : GenerationState) (editedScript baseline : Script)
    (imgs : list CutImage.t) :
  originalScript state0 = Some baseline ->
  images state0 = Some imgs ->
  exists ids, changedSceneIds state0 editedScript = Some ids ∧
              diff_spec baseline editedScript ids.
Proof.
  intros Ho Hi. unfold changedSceneIds. rewrite Ho, Hi.
  eexists. split; [reflexivity|].
  assert (Hmain : forall id : Z,
      id ∈ diff_loop (scenes baseline) [] (scenes editedScript) <->
      exists e, e ∈ scenes editedScript ∧ scene_id e = id ∧
        ((forall o, o ∈ scenes baseline -> scene_id o ≠ id) ∨
         (exists o, find_scene id (scenes baseline) = Some o ∧
                    image_prompt o ≠ image_prompt e))).
  { intros id. rewrite diff_loop_elem. split.
    - intros (e & He & <- & Hc). exists e. apply scene_changed_true in Hc. done.
    - intros (e & He & <- & Hc). exists e. apply scene_changed_true in Hc. done. }
  split; [exact Hmain|].
  intros id Hall Hin. apply Hmain in Hin as (e & He & Hid & [Hnew|(o & Hf & Hne)]).
  - destruct (Hall e He Hid) as (o & Hf & _).
    apply find_scene_Some in Hf as [Hin' Hid']. by apply (Hnew o).
  - destruct (Hall e He Hid) as (o' & Hf' & Heq). congruence.
Qed.

(** C1 on the sample edit of [script0]. *)
Lemma C1_changed_ids_exact_witness :
  exists ids, changedSceneIds cuts_session script_edited = Some ids ∧
              diff_spec script0 script_edited ids.
Proof.
  apply (C1_changed_ids_exact cuts_session script_edited script0 [image1; image2]);
    vm_compute; reflexivity.
Defined.

(** The list itself, on the sample edit: scene 1 was only reworded and
    retimed, scene 2 has a new prompt, scene 3 is new. *)
Example changed_ids_sample :
  changedSceneIds cuts_session script_edited = Some [2; 3] ∧
  changedSceneIds cuts_session script_reworded = Some [].
Proof. split; vm_compute; reflexivity. Qed.

(** Rewording or retiming the edited scenes leaves the diff as it is. *)
Lemma diff_ignores_text_and_duration (l edited : list ScriptScene)
    (retouch : ScriptScene -> ScriptScene) :
  (forall e, scene_id (retouch e) = scene_id e ∧
             image_prompt (retouch e) = image_prompt e) ->
  diff_loop l [] (retouch <$> edited) = diff_loop l [] edited.
Proof.
  intros Hr. generalize (@nil Z).
  induction edited as [|e edited IH]; intros acc; simpl; [done|].
  destruct (Hr e) as [Hid Hp].
  assert (Hc : scene_changed l (retouch e) = scene_changed l e).
  { unfold scene_changed. by rewrite Hid, Hp. }
  rewrite Hc, Hid. destruct (scene_changed l e); apply IH.
Qed.

(** ** Confirming an edit that changes no prompt *)

Lemma unchanged_prompts_diff (baseline editedScript : Script) :
  unchanged_prompts baseline editedScript <->
  diff_loop (scenes baseline) [] (scenes editedScript) = [].
Proof.
  unfold unchanged_prompts. rewrite diff_loop_filter. simpl.
  induction (scenes editedScript) as [|e l IH]; simpl.
  - split; [done|]. intros _ e He. inversion He.
  - split.
    + intros H.
      destruct (H e) as (o & Hf & Hp); [left|].
      unfold scene_changed at 1. rewrite Hf, Hp, String.eqb_refl. simpl.
      apply IH. intros e' He'. apply H. by right.
    + intros H e' He'.
      destruct (scene_changed (scenes baseline) e) eqn:Hc; [done|].
      apply elem_of_cons in He' as [->|He'].
      * unfold scene_changed in Hc.
        destruct (find_scene (scene_id e) (scenes baseline)) as [o|]; [|done].
        exists o. split; [done|].
        by destruct (String.eqb_spec (image_prompt o) (image_prompt e)).
      * by apply IH.
Qed.

(** C2. When the changed-id list [confirm] computes is empty (a baseline
    script and images exist and no scene's [image_prompt] changed),
    [confirm] issues no request, parks no call and opens no stream, and
    leaves the Session in [cuts_review] with [script] the edited script. *)
Theorem C2_confirm_without_changes_is_local (m : Hook) (editedScript : Script) (r : string) :
  active_runId (state m) = Some r ->
  changedSceneIds (state m) editedScript = Some [] ->
  requests (confirm editedScript m) = requests m ∧
  tasks (confirm editedScript m) = tasks m ∧
  abortRef (confirm editedScript m) = abortRef m ∧
  phase (state (confirm editedScript m)) = Phase.cuts_review ∧
  script (state (confirm editedScript m)) = Some editedScript ∧
  state (confirm editedScript m) =
    set_progress None (set_script (Some editedScript) (set_phase Phase.cuts_review (state m))).
Proof.
  intros Hr Hc. unfold confirm. rewrite Hr, Hc. by repeat split.
Qed.

(** C2 on [script0] reworded, confirmed after going back from the cuts. *)
Lemma C2_confirm_without_changes_is_local_witness :
  let m := run useGeneration (to_cuts_review ++ [Call Action.goToScriptReview]) in
  requests (confirm script_reworded m) = requests m ∧
  tasks (confirm script_reworded m) = tasks m ∧
  abortRef (confirm script_reworded m) = abortRef m ∧
  phase (state (confirm script_reworded m)) = Phase.cuts_review ∧
  script (state (confirm script_reworded m)) = Some script_reworded ∧
  state (confirm script_reworded m) =
    set_progress None (set_script (Some script_reworded) (set_phase Phase.cuts_review (state m))).
Proof.
  intros m.
  apply (C2_confirm_without_changes_is_local m script_reworded "run-1");
    vm_compute; reflexivity.
Defined.

(** The hypothesis of C2 in the words of the claim. *)
Lemma changed_ids_empty_iff (s : GenerationState) (editedScript : Script) :
  changedSceneIds s editedScript = Some [] <->
  exists baseline imgs,
    originalScript s = Some baseline ∧ images s = Some imgs ∧
    unchanged_prompts baseline editedScript.
Proof.
  unfold changedSceneIds. split.
  - destruct (originalScript s) as [b|]; [|done].
    destruct (images s) as [imgs|]; [|done].
    intros [= H]. exists b, imgs. by rewrite unchanged_prompts_diff.
  - intros (b & imgs & -> & -> & H). f_equal. by apply unchanged_prompts_diff.
Qed.

(** ** The stream client *)

Lemma on_record_returns (opts : Opts) (data : ProgressEvent.t) (s : GenerationState) :
  (on_record opts data s).2 = terminal opts data.
Proof.
  unfold on_record, terminal, supplied.
  destruct (status_is data "complete" && truthy (ProgressEvent.videoUrl data)); [done|].
  simpl.
  destruct (status_is data "images_ready"), (onImagesReady opts); simpl; try done;
  destruct (status_is data "videos_ready"), (onVideosReady opts); simpl; try done;
  destruct (status_is data "voices_ready"), (onVoicesReady opts); simpl; try done;
  by destruct (status_is data "error").
Qed.

Lemma for_lines_app (opts : Opts) (l1 l2 : list Line) (s : GenerationState) :
  for_lines opts (l1 ++ l2) s =
  if (for_lines opts l1 s).2 then ((for_lines opts l1 s).1, true)
  else for_lines opts l2 (for_lines opts l1 s).1.
Proof.
  revert s. induction l1 as [|[|d] l1 IH]; intros s; simpl; [done|apply IH|].
  destruct (on_record opts d s) as [s' [|]]; simpl; [done|apply IH].
Qed.

Lemma read_loop_app (opts : Opts) (c1 c2 : list (list Line)) (s : GenerationState) :
  read_loop opts (c1 ++ c2) s =
  if (read_loop opts c1 s).2 then ((read_loop opts c1 s).1, true)
  else read_loop opts c2 (read_loop opts c1 s).1.
Proof.
  revert s. induction c1 as [|l c1 IH]; intros s; simpl; [done|].
  destruct (for_lines opts l s) as [s' [|]]; simpl; [done|apply IH].
Qed.

Lemma for_lines_none_terminal (opts : Opts) (l : list Line) (s : GenerationState) :
  (for_lines opts l s).2 = false -> none_terminal opts l.
Proof.
  revert s. induction l as [|[|d] l IH]; intros s; simpl; intros H.
  - constructor.
  - constructor; [done|]. by apply (IH s).
  - pose proof (on_record_returns opts d s) as Hr.
    destruct (on_record opts d s) as [s' [|]]; simpl in *; [done|].
    constructor; [done|]. by apply (IH s').
Qed.

Lemma read_loop_none_terminal (opts : Opts) (c : list (list Line)) (s : GenerationState) :
  (read_loop opts c s).2 = false -> none_terminal opts (concat c).
Proof.
  revert s. induction c as [|l c IH]; intros s; simpl; intros H; [constructor|].
  pose proof (for_lines_none_terminal opts l s) as Hl.
  destruct (for_lines opts l s) as [s' [|]]; simpl in *; [done|].
  apply Forall_app. split; [by apply Hl | by apply (IH s')].
Qed.

(** C7. One connection honours one terminal record.  Let the stream be
    cut at its first terminal record [data]: chunks [before], then a
    chunk whose lines are [l1], [data], [l2], then chunks [after].  The
    records ahead of [data] only moved the Session to [s1] without ending
    the loop; [data] ends it; and the outcome is the same whatever [l2]
    and [after] hold: nothing behind [data] is consumed. *)
Theorem C7_one_terminal_per_connection (opts : Opts) (before after : list (list Line))
    (l1 l2 : list Line) (data : ProgressEvent.t) (s s1 : GenerationState) :
  read_loop opts (before ++ [l1]) s = (s1, false) ->
  terminal opts data = true ->
  read_loop opts (before ++ (l1 ++ Decoded data :: l2) :: after) s
    = ((on_record opts data s1).1, true) ∧
  none_terminal opts (concat before ++ l1).
Proof.
  intros Hpre Hterm.
  assert (Hnone : none_terminal opts (concat (before ++ [l1]))).
  { apply (read_loop_none_terminal opts _ s). by rewrite Hpre. }
  rewrite concat_app in Hnone. simpl in Hnone. rewrite app_nil_r in Hnone.
  split; [|exact Hnone].
  rewrite read_loop_app in Hpre. rewrite read_loop_app.
  destruct (read_loop opts before s) as [s0 [|]]; simpl in *; [done|].
  rewrite for_lines_app.
  destruct (for_lines opts l1 s0) as [s1' [|]]; simpl in *; [done|].
  injection Hpre as ->.
  pose proof (on_record_returns opts data s1) as Hr. rewrite Hterm in Hr.
  destruct (on_record opts data s1) as [s2 ret]; simpl in *. by rewrite Hr.
Qed.

(** C7 on a stream whose first terminal record is [images_ready]: the [videos_ready] before it has no callback, the [error] and [complete] behind it are never read. *)
Lemma C7_one_terminal_per_connection_witness :
  let opts := {| onImagesReady := Some (fun imgs s => set_images imgs s);
                 onVideosReady := None; onVoicesReady := None |} in
  read_loop opts
    ([[Skipped; Decoded (record "running")]] ++
     ([Decoded (record "videos_ready")] ++
      Decoded (images_ready [image1]) :: [Decoded (record "error")]) ::
     [[Decoded (completed "/out/final.mp4")]]) INITIAL_STATE
  = ((on_record opts (images_ready [image1])
        (set_progress (Some (record "videos_ready")) INITIAL_STATE)).1, true) ∧
  none_terminal opts
    (concat [[Skipped; Decoded (record "running")]] ++ [Decoded (record "videos_ready")]).
Proof.
  intros opts.
  apply (C7_one_terminal_per_connection opts); reflexivity.
Defined.

(** In the machine the same shows as the task ending: the chunk that
    carries a terminal record takes the reader off the task list, and
    what the stream sends later finds nobody. *)
Lemma lookup_task_remove (t : nat) (ts : list (nat * Task)) :
  lookup_task t (filter (fun p => p.1 ≠ t) ts) = None.
Proof.
  induction ts as [|[t' k] ts IH]; simpl; [done|].
  rewrite filter_cons. simpl. destruct (decide (t' ≠ t)) as [E|E]; simpl; [|done].
  by destruct (decide (t' = t)).
Qed.

Lemma terminal_chunk_ends_task (m : Hook) (t signal : nat) (opts : Opts)
    (lines : list Line) :
  lookup_task t (tasks m) = Some (Reading signal opts) ->
  signal ∉ aborted m ->
  (for_lines opts lines (state m)).2 = true ->
  let m' := step m (ReadDone t (Chunk lines)) in
  lookup_task t (tasks m') = None ∧
  forall r, step m' (ReadDone t r) = m'.
Proof.
  intros Ht Hs Hret. simpl. rewrite Ht. unfold read_done, settle_read.
  destruct (decide (signal ∈ aborted m)); [done|].
  destruct (for_lines opts lines (state m)) as [s' ret]; simpl in *. subst ret.
  simpl. split; [apply lookup_task_remove|].
  intros r. by rewrite lookup_task_remove.
Qed.

(** C10. A [complete] record without a [videoUrl], and a stage-ready
    record whose callback the caller left out, do not end the
    connection: the record goes into [progress] and the loop goes on
    with the next line. *)
Theorem C10_unmatched_marker_is_progress (opts : Opts) (data : ProgressEvent.t)
    (s : GenerationState) :
  (ProgressEvent.status data = Some "complete" ∧
     truthy (ProgressEvent.videoUrl data) = false) ∨
  (ProgressEvent.status data = Some "images_ready" ∧ onImagesReady opts = None) ∨
  (ProgressEvent.status data = Some "videos_ready" ∧ onVideosReady opts = None) ∨
  (ProgressEvent.status data = Some "voices_ready" ∧ onVoicesReady opts = None) ->
  terminal opts data = false ∧
  on_record opts data s = (set_progress (Some data) s, false) ∧
  progress (on_record opts data s).1 = Some data ∧
  (forall rest, for_lines opts (Decoded data :: rest) s
                = for_lines opts rest (set_progress (Some data) s)) ∧
  (forall rest chunks, read_loop opts ((Decoded data :: rest) :: chunks) s
                = read_loop opts (rest :: chunks) (set_progress (Some data) s)).
Proof.
  intros H.
  assert (Hrec : on_record opts data s = (set_progress (Some data) s, false)).
  { unfold on_record, supplied, status_is.
    destruct H as [[-> Hv]|[[-> Hc]|[[-> Hc]|[-> Hc]]]]; simpl; rewrite ?Hv, ?Hc; done. }
  split; [by rewrite <- (on_record_returns opts data s), Hrec|].
  split; [done|]. split; [by rewrite Hrec|].
  split; intros rest; simpl; by rewrite Hrec.
Qed.

(** C10 on an [images_ready] record read by [finalize], which supplies no callback. *)
Lemma C10_unmatched_marker_is_progress_witness :
  terminal no_opts (record "images_ready") = false ∧
  on_record no_opts (record "images_ready") INITIAL_STATE
    = (set_progress (Some (record "images_ready")) INITIAL_STATE, false) ∧
  progress (on_record no_opts (record "images_ready") INITIAL_STATE).1
    = Some (record "images_ready") ∧
  (forall rest, for_lines no_opts (Decoded (record "images_ready") :: rest) INITIAL_STATE
                = for_lines no_opts rest
                    (set_progress (Some (record "images_ready")) INITIAL_STATE)) ∧
  (forall rest chunks,
      read_loop no_opts ((Decoded (record "images_ready") :: rest) :: chunks) INITIAL_STATE
      = read_loop no_opts (rest :: chunks)
          (set_progress (Some (record "images_ready")) INITIAL_STATE)).
Proof.
  apply (C10_unmatched_marker_is_progress no_opts (record "images_ready") INITIAL_STATE).
  right. left. split; reflexivity.
Defined.

(** ** Bookkeeping of the machine *)

Lemma lookup_task_elem (t : nat) (k : Task) (ts : list (nat * Task)) :
  lookup_task t ts = Some k -> (t, k) ∈ ts.
Proof.
  induction ts as [|[t' k'] ts IH]; simpl; [done|].
  destruct (decide (t' = t)) as [->|E].
  - intros [= ->]. left.
  - intros H. right. by apply IH.
Qed.

Lemma lookup_task_new (n : nat) (k : Task) (ts : list (nat * Task)) :
  (forall t k', (t, k') ∈ ts -> (t < n)%nat) ->
  lookup_task n (ts ++ [(n, k)]) = Some k.
Proof.
  induction ts as [|[t' k'] ts IH]; simpl; intros H.
  - by destruct (decide (n = n)).
  - destruct (decide (t' = n)) as [->|E].
    + assert (n < n)%nat by (apply (H n k'); left). lia.
    + apply IH. intros t k0 Hin. apply (H t k0). by right.
Qed.

Lemma lookup_task_replace (t : nat) (k k0 : Task) (ts : list (nat * Task)) :
  lookup_task t ts = Some k0 ->
  lookup_task t ((fun p => if decide (p.1 = t) then (t, k) else p) <$> ts) = Some k.
Proof.
  induction ts as [|[t' k'] ts IH]; simpl; [done|].
  destruct (decide (t' = t)) as [->|E]; simpl.
  - intros _. by destruct (decide (t = t)).
  - intros H. destruct (decide (t' = t)); [done|]. by apply IH.
Qed.

Lemma elem_of_replace (t : nat) (k : Task) (ts : list (nat * Task)) (p : nat * Task) :
  p ∈ (fun p => if decide (p.1 = t) then (t, k) else p) <$> ts ->
  p ∈ ts ∨ (p = (t, k) ∧ exists k0, (t, k0) ∈ ts).
Proof.
  rewrite list_elem_of_fmap. intros ([t' k'] & -> & Hin). simpl.
  destruct (decide (t' = t)) as [->|E]; [right|by left].
  split; [done|]. by exists k'.
Qed.

Lemma elem_of_remove (t : nat) (ts : list (nat * Task)) (p : nat * Task) :
  p ∈ filter (fun p => p.1 ≠ t) ts -> p ∈ ts.
Proof. rewrite list_elem_of_filter. tauto. Qed.

Lemma ids_setState (f : GenerationState -> GenerationState) (m : Hook) :
  ids_below_fresh m -> ids_below_fresh (setState f m).
Proof. done. Qed.

Lemma ids_abort_current (m : Hook) :
  ids_below_fresh m -> ids_below_fresh (abort_current m).
Proof.
  intros H. pose proof H as (Ht & Ha & Hr & Hs). unfold abort_current.
  destruct (abortRef m) as [h|] eqn:E; [|done].
  repeat split; simpl; auto.
  intros h' Hin. apply elem_of_cons in Hin as [->|Hin]; auto.
Qed.

Lemma ids_await (req : Request) (k : Task) (m : Hook) :
  task_signal k = None -> ids_below_fresh m -> ids_below_fresh (await req k m).
Proof.
  intros Hk (Ht & Ha & Hr & Hs). repeat split; simpl.
  - intros t k' Hin. apply elem_of_app in Hin as [Hin|Hin].
    + specialize (Ht _ _ Hin). lia.
    + apply list_elem_of_singleton in Hin as [= -> ->]. lia.
  - intros h Hin. specialize (Ha _ Hin). lia.
  - intros h Hin. specialize (Hr _ Hin). lia.
  - intros t k' h Hin Hsig. apply elem_of_app in Hin as [Hin|Hin].
    + specialize (Hs _ _ _ Hin Hsig). lia.
    + apply list_elem_of_singleton in Hin as [= -> ->]. congruence.
Qed.

Lemma ids_remove_task (t : nat) (m : Hook) :
  ids_below_fresh m -> ids_below_fresh (remove_task t m).
Proof.
  intros (Ht & Ha & Hr & Hs). repeat split; simpl; auto.
  - intros t' k Hin. apply elem_of_remove in Hin. eauto.
  - intros t' k h Hin. apply elem_of_remove in Hin. eauto.
Qed.

Lemma ids_replace_task (t : nat) (k : Task) (m : Hook) :
  (forall h, task_signal k = Some h -> (h < fresh m)%nat) ->
  ids_below_fresh m -> ids_below_fresh (replace_task t k m).
Proof.
  intros Hk (Ht & Ha & Hr & Hs). repeat split; simpl; auto.
  - intros t' k' Hin. apply elem_of_replace in Hin as [Hin|[[= -> ->] [k0 Hin]]]; eauto.
  - intros t' k' h Hin Hsig.
    apply elem_of_replace in Hin as [Hin|[[= -> ->] [k0 Hin]]]; eauto.
Qed.

Lemma ids_connectSSE (t : nat) (r : string) (opts : Opts) (m : Hook) :
  ids_below_fresh m -> ids_below_fresh (connectSSE t r opts m).
Proof.
  intros (Ht & Ha & Hr & Hs). repeat split; simpl.
  - intros t' k' Hin. apply elem_of_replace in Hin as [Hin|[[= -> ->] [k0 Hin]]].
    + specialize (Ht _ _ Hin). lia.
    + specialize (Ht _ _ Hin). lia.
  - intros h Hin. specialize (Ha _ Hin). lia.
  - intros h [= <-]. lia.
  - intros t' k' h Hin Hsig.
    apply elem_of_replace in Hin as [Hin|[[= -> ->] [k0 Hin]]].
    + specialize (Hs _ _ _ Hin Hsig). lia.
    + simpl in Hsig. injection Hsig as <-. lia.
Qed.

Lemma ids_call (a : Action.t) (m : Hook) :
  ids_below_fresh m -> ids_below_fresh (call a m).
Proof.
  intros H. destruct a; simpl;
    unfold start, confirm, compose, generateVoices, regenerateImage, regenerateVideo,
      finalize, goToTransitionEdit, regenerateVoices, reset, goToScriptReview,
      goToCutsReview, goToVideosReview, goToVoicesReview, restoreFromHistory;
    repeat match goal with
    | |- context [match active_runId ?s with _ => _ end] => destruct (active_runId s)
    | |- context [match changedSceneIds ?s ?e with _ => _ end] =>
        destruct (changedSceneIds s e) as [[|??]|]
    end;
    repeat first [ done | apply ids_setState | apply ids_await | apply ids_abort_current ].
Qed.

Lemma ids_step (m : Hook) (e : Event) :
  ids_below_fresh m -> ids_below_fresh (step m e).
Proof.
  intros H. destruct e as [a|t r|t r|t r|t r|t r]; simpl.
  - by apply ids_call.
  - destruct (lookup_task t (tasks m)) as [[]|]; try done.
    unfold start_done. destruct r as [[??]| |]; by apply ids_setState, ids_remove_task.
  - destruct (lookup_task t (tasks m)) as [[]|]; try done.
    unfold post_done. destruct r.
    + by apply ids_connectSSE.
    + by apply ids_setState, ids_remove_task.
    + by apply ids_setState, ids_remove_task.
  - destruct (lookup_task t (tasks m)) as [[| |signal opts| |]|] eqn:E; try done.
    unfold connect_done. destruct (settle signal r m).
    + apply ids_replace_task; [|done]. simpl. intros h [= <-].
      apply lookup_task_elem in E. destruct H as (_ & _ & _ & Hs). by apply (Hs t _ signal E).
    + by apply ids_setState, ids_remove_task.
    + by apply ids_setState, ids_remove_task.
  - destruct (lookup_task t (tasks m)) as [[| | |signal opts|]|] eqn:E; try done.
    unfold read_done. destruct (settle_read signal r m).
    + destruct (for_lines opts lines (state m)) as [s' [|]].
      * by apply ids_remove_task, ids_setState.
      * by apply ids_setState.
    + by apply ids_remove_task.
    + by apply ids_setState, ids_remove_task.
  - destruct (lookup_task t (tasks m)) as [[]|]; try done.
    unfold restore_done. destruct r; by apply ids_setState, ids_remove_task.
Qed.

Lemma run_snoc (m : Hook) (es : list Event) (e : Event) :
  run m (es ++ [e]) = step (run m es) e.
Proof. unfold run. by rewrite fold_left_app. Qed.

(** Induction over the runs of the hook. *)
Lemma reachable_ind (P : Hook -> Prop) :
  P useGeneration ->
  (forall m e, reachable m -> P m -> P (step m e)) ->
  forall m, reachable m -> P m.
Proof.
  intros H0 Hstep m [es ->].
  induction es as [|e es IH] using rev_ind; [done|].
  rewrite run_snoc. apply Hstep; [by exists es | done].
Qed.

Lemma reachable_ids (m : Hook) : reachable m -> ids_below_fresh m.
Proof.
  apply reachable_ind.
  - repeat split; simpl; intros; try done; by match goal with H : _ ∈ [] |- _ => inversion H end.
  - intros m' e _. apply ids_step.
Qed.

(** ** Restoring a Session *)





(** The three bundles the specification lists. *)
Example restore_samples :
  restored_phase {| Bundle.run_id := Some "run-1"; Bundle.script := Some script0;
                    Bundle.images := None; Bundle.videos := None; Bundle.voices := None;
                    Bundle.videoUrl := None |} = Phase.script_review ∧
  restored_phase cuts_bundle = Phase.cuts_review ∧
  restored_phase {| Bundle.run_id := Some "run-1"; Bundle.script := Some script0;
                    Bundle.images := Some [image1; image2]; Bundle.videos := Some [video1];
                    Bundle.voices := Some [voice1];
                    Bundle.videoUrl := Some "/out/final.mp4" |} = Phase.complete.
Proof. repeat split; reflexivity. Qed.

(** ** Actions outside their phase *)

(** C5, as stated, fails: in [voices_review] the image-stage action
    [regenerateImage] moves the Session to [running] and posts its
    request. *)
Lemma C5_regenerateImage_runs_in_voices_review :
  phase (state (run useGeneration to_voices_review)) = Phase.voices_review ∧
  phase (state (regenerateImage {[1 := "brighter"]} (run useGeneration to_voices_review)))
    = Phase.running ∧
  requests (regenerateImage {[1 := "brighter"]} (run useGeneration to_voices_review))
    = requests (run useGeneration to_voices_review) ++
      [POST_regenerate_images "run-1" {[1 := "brighter"]}].
Proof. vm_compute. repeat split. Qed.

Lemma await_grows (req : Request) (k : Task) (m : Hook) :
  length (requests (await req k m)) = S (length (requests m)).
Proof. simpl. rewrite length_app. simpl. lia. Qed.

(** C5, amended.  The guard of a streamed action is the [runId], not the
    phase.  Without a [runId] the action does nothing at all: no request,
    no parked call, no change of Session or phase, nothing raised.  With
    one, [regenerateImage] runs from whatever phase the Session is in: it
    moves to [running] and posts its request. *)
Theorem C5_streamed_action_guard_is_runId (m : Hook) (a : Action.t)
    (sceneInstructions : gmap Z string) :
  streamed a = true ->
  (active_runId (state m) = None -> call a m = m) ∧
  (forall r, active_runId (state m) = Some r ->
     phase (state (regenerateImage sceneInstructions m)) = Phase.running ∧
     requests (regenerateImage sceneInstructions m)
       = requests m ++ [POST_regenerate_images r sceneInstructions]).
Proof.
  intros Ha. split.
  - intros E. destruct a; try done; simpl;
      unfold confirm, compose, generateVoices, regenerateImage, regenerateVideo,
        finalize, regenerateVoices; by rewrite E.
  - intros r E. unfold regenerateImage. by rewrite E.
Qed.

(** C5 on the fresh hook, which has no [runId]. *)
Lemma C5_streamed_action_guard_is_runId_witness :
  (active_runId (state useGeneration) = None ->
   call (Action.regenerateImage {[1 := "brighter"]}) useGeneration = useGeneration) ∧
  (forall r, active_runId (state useGeneration) = Some r ->
     phase (state (regenerateImage {[1 := "brighter"]} useGeneration)) = Phase.running ∧
     requests (regenerateImage {[1 := "brighter"]} useGeneration)
       = requests useGeneration ++ [POST_regenerate_images r {[1 := "brighter"]}]).
Proof.
  apply (C5_streamed_action_guard_is_runId useGeneration
           (Action.regenerateImage {[1 := "brighter"]}) {[1 := "brighter"]}).
  reflexivity.
Defined.

(** ** Swapping images in the cuts preview *)

Lemma swap_adjacent_perm {A : Type} (l : list A) (i : nat) (a b : A) :
  l !! i = Some a -> l !! S i = Some b ->
  Permutation (<[S i := a]> (<[i := b]> l)) l.
Proof.
  revert l. induction i as [|i IH]; intros [|x l]; simpl; try done.
  - destruct l as [|y l]; simpl; [done|]. intros [= ->] [= ->]. apply perm_swap.
  - intros Ha Hb. apply perm_skip. by apply IH.
Qed.

Lemma js_get_in_range (a : list (option Z)) (i : nat) :
  (i < length a)%nat -> a !! i = Some (CutsPreview.js_get a i).
Proof.
  intros H. unfold CutsPreview.js_get.
  destruct (lookup_lt_is_Some_2 a i H) as [v ->]. done.
Qed.

Lemma js_set_in_range (a : list (option Z)) (i : nat) (v : option Z) :
  (i < length a)%nat -> CutsPreview.js_set i v a = <[i := v]> a.
Proof. intros H. unfold CutsPreview.js_set. by destruct (decide (i < length a)%nat). Qed.

(** One in-range swap permutes the order and keeps its length. *)
Lemma swapImages_perm (index : nat) (direction : CutsPreview.Direction)
    (st : CutsPreview.State) :
  in_range (length (CutsPreview.imageOrder st)) (index, direction) ->
  Permutation (CutsPreview.imageOrder (CutsPreview.swapImages index direction st))
              (CutsPreview.imageOrder st) ∧
  CutsPreview.selectedScenes (CutsPreview.swapImages index direction st)
    = CutsPreview.selectedScenes st ∧
  CutsPreview.scenePrompts (CutsPreview.swapImages index direction st)
    = CutsPreview.scenePrompts st.
Proof.
  unfold in_range. simpl. intros [Hi Ht]. unfold CutsPreview.swapImages.
  set (prev := CutsPreview.imageOrder st) in *.
  destruct (decide _) as [Hout|_]; [lia|]. simpl. split; [|done].
  destruct direction; simpl in *.
  - (* up: target = index - 1 *)
    destruct index as [|t]; [lia|].
    replace (Z.to_nat (Z.of_nat (S t) + -1)) with t by lia.
    rewrite (js_set_in_range prev (S t)) by done.
    rewrite js_set_in_range by (rewrite length_insert; lia).
    rewrite list_insert_insert_ne by lia.
    apply swap_adjacent_perm; apply js_get_in_range; lia.
  - (* down: target = index + 1 *)
    replace (Z.to_nat (Z.of_nat index + 1)) with (S index) by lia.
    rewrite (js_set_in_range prev index) by done.
    rewrite js_set_in_range by (rewrite length_insert; lia).
    apply swap_adjacent_perm; apply js_get_in_range; lia.
Qed.

Lemma clicks_perm (clicks : list (nat * CutsPreview.Direction)) (pg : Page) :
  Forall (in_range (length (CutsPreview.imageOrder (cuts pg)))) clicks ->
  hook (fold_left click_swap clicks pg) = hook pg ∧
  Permutation (CutsPreview.imageOrder (cuts (fold_left click_swap clicks pg)))
              (CutsPreview.imageOrder (cuts pg)).
Proof.
  revert pg. induction clicks as [|[i d] clicks IH]; intros pg H; simpl; [done|].
  apply Forall_cons in H as [Hc H].
  destruct (swapImages_perm i d (cuts pg) Hc) as (Hp & _).
  destruct (IH (click_swap pg (i, d))) as [Hh Hq].
  - simpl. by rewrite (Permutation_length Hp).
  - split; [done|]. by rewrite Hq.
Qed.

(** C8. From the order the preview starts with, any number of swaps of
    two adjacent in-range positions changes the display order only: the
    hook, and with it [images], [videos], [voices] and [script], is what
    it was, and the order is a permutation of the [scene_id]s of
    [images]. *)
Theorem C8_swaps_change_display_order_only (m : Hook) (pg : Page)
    (imgs : list CutImage.t) (clicks : list (nat * CutsPreview.Direction)) :
  mount m = Some pg ->
  images (state m) = Some imgs ->
  Forall (in_range (length imgs)) clicks ->
  hook (fold_left click_swap clicks pg) = m ∧
  images (state (hook (fold_left click_swap clicks pg))) = Some imgs ∧
  videos (state (hook (fold_left click_swap clicks pg))) = videos (state m) ∧
  voices (state (hook (fold_left click_swap clicks pg))) = voices (state m) ∧
  script (state (hook (fold_left click_swap clicks pg))) = script (state m) ∧
  Permutation (CutsPreview.imageOrder (cuts (fold_left click_swap clicks pg)))
              ((fun img => Some (CutImage.scene_id img)) <$> imgs).
Proof.
  intros Hm Hi Hc. unfold mount in Hm. rewrite Hi in Hm.
  destruct (phase (state m)); try done.
  destruct (script (state m)) as [sc|] eqn:Hs; [|done].
  injection Hm as <-.
  destruct (clicks_perm clicks
              {| hook := m;
                 cuts := CutsPreview.init
                           {| CutsPreview.script := sc; CutsPreview.images := imgs |} |})
    as [Hh Hp].
  - simpl. by rewrite length_fmap.
  - simpl in Hh, Hp. rewrite Hh. by repeat split.
Qed.

(** C8 on two images: down from the first row, then up from the second. *)
Lemma C8_swaps_change_display_order_only_witness :
  exists pg,
    mount (run useGeneration to_cuts_review) = Some pg ∧
    hook (fold_left click_swap [(0%nat, CutsPreview.down); (1%nat, CutsPreview.up)] pg)
      = run useGeneration to_cuts_review ∧
    Permutation
      (CutsPreview.imageOrder
         (cuts (fold_left click_swap [(0%nat, CutsPreview.down); (1%nat, CutsPreview.up)] pg)))
      [Some 1; Some 2].
Proof.
  exists {| hook := run useGeneration to_cuts_review;
            cuts := CutsPreview.init {| CutsPreview.script := script0;
                                        CutsPreview.images := [image1; image2] |} |}.
  assert (Hm : mount (run useGeneration to_cuts_review)
               = Some {| hook := run useGeneration to_cuts_review;
                         cuts := CutsPreview.init
                                   {| CutsPreview.script := script0;
                                      CutsPreview.images := [image1; image2] |} |})
    by (vm_compute; reflexivity).
  assert (Hi : images (state (run useGeneration to_cuts_review)) = Some [image1; image2])
    by (vm_compute; reflexivity).
  assert (Hc : Forall (in_range (length [image1; image2]))
                 [(0%nat, CutsPreview.down); (1%nat, CutsPreview.up)])
    by (repeat constructor; simpl; lia).
  destruct (C8_swaps_change_display_order_only _ _ _ _ Hm Hi Hc)
    as (Hh & _ & _ & _ & _ & Hp).
  split; [exact Hm|]. split; [exact Hh | exact Hp].
Defined.

(** What the guard lets through: with as many rows as images plus one,
    the up button of the extra row swaps with a position past the end,
    and the order comes out longer, with an [undefined] in it. *)
Example swap_past_the_end :
  CutsPreview.imageOrder
    (CutsPreview.swapImages 2 CutsPreview.up
       (CutsPreview.init {| CutsPreview.script := script_edited;
                            CutsPreview.images := [image1; image2] |}))
  = [Some 1; None; Some 2].
Proof. vm_compute. reflexivity. Qed.

(** ** Scoped regeneration of images *)

(** A streamed action whose POST and progress connection both succeed
    ends up reading under a new controller, with the Session as the
    action's first [setState] left it. *)
Lemma stream_opens (m : Hook) (req : Request) (r : string) (opts : Opts)
    (f : GenerationState -> GenerationState) :
  ids_below_fresh m ->
  let m3 := step (step (await req (AwaitPost r opts) (setState f m))
                       (PostDone (fresh m) (Ok ())))
                 (ConnectDone (fresh m) (Ok ())) in
  state m3 = f (state m) ∧
  lookup_task (fresh m) (tasks m3) = Some (Reading (S (fresh m)) opts) ∧
  (S (fresh m) ∉ aborted m3) ∧
  aborted m3 = aborted m ∧
  abortRef m3 = Some (S (fresh m)) ∧
  requests m3 = requests m ++ [req; GET_progress r (S (fresh m))].
Proof.
  intros (Ht & Ha & _). simpl.
  rewrite lookup_task_new by done. simpl.
  erewrite lookup_task_replace by (by apply lookup_task_new).
  unfold connect_done, settle. simpl.
  assert (Hna : S (fresh m) ∉ aborted m).
  { intros Hin. specialize (Ha _ Hin). lia. }
  destruct (decide (S (fresh m) ∈ aborted m)); [done|]. simpl.
  repeat split; try done.
  - erewrite lookup_task_replace; [done|].
    erewrite lookup_task_replace; [done|]. by apply lookup_task_new.
  - by rewrite <- app_assoc.
Qed.

Lemma read_chunk (m : Hook) (t signal : nat) (opts : Opts) (lines : list Line) :
  lookup_task t (tasks m) = Some (Reading signal opts) ->
  signal ∉ aborted m ->
  state (step m (ReadDone t (Chunk lines))) = (for_lines opts lines (state m)).1.
Proof.
  intros Ht Hs. simpl. rewrite Ht. unfold read_done, settle_read.
  destruct (decide (signal ∈ aborted m)); [done|].
  by destruct (for_lines opts lines (state m)) as [s' [|]].
Qed.

Lemma run_streamed (m : Hook) (a : Action.t) (t : nat) (r : ReadResult) :
  run m [Call a; PostDone t (Ok ()); ConnectDone t (Ok ()); ReadDone t r]
  = step (step (step (call a m) (PostDone t (Ok ()))) (ConnectDone t (Ok ()))) (ReadDone t r).
Proof. reflexivity. Qed.

(** C9, as stated, fails: scene 2 was not selected, yet its image is gone
    after the regeneration of scene 1, because the stream answered with
    the regenerated image alone. *)
Lemma C9_unselected_image_replaced :
  ({[1 := "brighter"]} : gmap Z string) !! 2 = None ∧
  artifact 2 (images (state (run useGeneration to_cuts_review))) = Some image2 ∧
  images (state (run useGeneration regenerate_scene1)) = Some [image1'] ∧
  artifact 2 (images (state (run useGeneration regenerate_scene1))) = None.
Proof. vm_compute. repeat split. Qed.

(** C9, amended.  When the stream of a scoped regeneration reports
    [images_ready], the Session's [images] becomes the payload of that
    record, whole; the phase is [cuts_review] and no other artifact or
    script field moves.  So the image of a scene outside the map is
    what it was exactly when the payload carries it as it was. *)
Theorem C9_regenerated_images_are_the_payload (m : Hook) (r : string)
    (sceneInstructions : gmap Z string) (data : ProgressEvent.t) :
  reachable m ->
  active_runId (state m) = Some r ->
  ProgressEvent.status data = Some "images_ready" ->
  let m' := run m [ Call (Action.regenerateImage sceneInstructions);
                    PostDone (fresh m) (Ok ());
                    ConnectDone (fresh m) (Ok ());
                    ReadDone (fresh m) (Chunk [Decoded data]) ] in
  images (state m') = ProgressEvent.images data ∧
  phase (state m') = Phase.cuts_review ∧
  script (state m') = script (state m) ∧
  originalScript (state m') = originalScript (state m) ∧
  videos (state m') = videos (state m) ∧
  voices (state m') = voices (state m) ∧
  (forall id, sceneInstructions !! id = None ->
     (artifact id (images (state m')) = artifact id (images (state m)) <->
      artifact id (ProgressEvent.images data) = artifact id (images (state m)))).
Proof.
  intros Hm Hr Hst m'. subst m'. rewrite run_streamed.
  change (call (Action.regenerateImage sceneInstructions) m)
    with (regenerateImage sceneInstructions m).
  unfold regenerateImage. rewrite Hr.
  match goal with
  | |- context [await ?req (AwaitPost r ?opts) (setState ?f m)] =>
      destruct (stream_opens m req r opts f (reachable_ids m Hm))
        as (Hs & Ht & Hna & _);
      rewrite (read_chunk _ _ _ _ _ Ht Hna), Hs
  end.
  simpl.
  unfold on_record, supplied, status_is. rewrite Hst. simpl.
  repeat split; try done.
Qed.

(** C9 on a regeneration of scene 1 answered with both images. *)
Lemma C9_regenerated_images_are_the_payload_witness :
  images (state (run (run useGeneration to_cuts_review)
                   [ Call (Action.regenerateImage {[1 := "brighter"]});
                     PostDone (fresh (run useGeneration to_cuts_review)) (Ok ());
                     ConnectDone (fresh (run useGeneration to_cuts_review)) (Ok ());
                     ReadDone (fresh (run useGeneration to_cuts_review))
                       (Chunk [Decoded (images_ready [image1'; image2])]) ]))
  = Some [image1'; image2].
Proof.
  assert (Hm : reachable (run useGeneration to_cuts_review)) by (by exists to_cuts_review).
  assert (Hr : active_runId (state (run useGeneration to_cuts_review)) = Some "run-1")
    by (vm_compute; reflexivity).
  destruct (C9_regenerated_images_are_the_payload
              (run useGeneration to_cuts_review) "run-1" {[1 := "brighter"]}
              (images_ready [image1'; image2]) Hm Hr eq_refl) as (Hi & _).
  exact Hi.
Defined.

(** ** The terminal fields of the Session *)




















(** ** One stream at a time, and cancellation *)

(** The page offers nothing while it shows the progress display. *)
Lemma offered_not_busy (s : GenerationState) (a : Action.t) :
  offered s a = true -> busy (phase s) = false.
Proof. unfold offered. destruct (phase s), a; done. Qed.

Lemma tasks_abort_current (m : Hook) : tasks (abort_current m) = tasks m.
Proof. unfold abort_current. by destruct (abortRef m). Qed.

(** A record that does not end the connection leaves the phase alone. *)
Lemma on_record_phase (opts : Opts) (data : ProgressEvent.t) (s : GenerationState) :
  (on_record opts data s).2 = false -> phase (on_record opts data s).1 = phase s.
Proof.
  unfold on_record, supplied.
  destruct (status_is data "complete" && truthy (ProgressEvent.videoUrl data)); [done|].
  destruct (status_is data "images_ready"), (onImagesReady opts); simpl; try done;
  destruct (status_is data "videos_ready"), (onVideosReady opts); simpl; try done;
  destruct (status_is data "voices_ready"), (onVoicesReady opts); simpl; try done;
  by destruct (status_is data "error").
Qed.

Lemma for_lines_phase (opts : Opts) (lines : list Line) (s : GenerationState) :
  (for_lines opts lines s).2 = false -> phase (for_lines opts lines s).1 = phase s.
Proof.
  revert s. induction lines as [|[|d] lines IH]; intros s; simpl; auto.
  pose proof (on_record_phase opts d s) as Hp.
  destruct (on_record opts d s) as [s' [|]]; simpl in *; [done|].
  intros H. rewrite (IH s' H). by apply Hp.
Qed.

(** A call from the page finds no parked call and parks at most one. *)
Lemma page_call (a : Action.t) (m : Hook) :
  one_call_at_most m -> offered (state m) a = true -> one_call_at_most (call a m).
Proof.
  intros Hj Hoff. pose proof (offered_not_busy _ _ Hoff) as Hb.
  assert (Ht : tasks m = []).
  { destruct Hj as [?|[Hbusy _]]; [done|congruence]. }
  clear Hj Hoff Hb.
  destruct a; simpl;
    unfold start, confirm, compose, generateVoices, regenerateImage, regenerateVideo,
      finalize, goToTransitionEdit, regenerateVoices, reset, goToScriptReview,
      goToCutsReview, goToVideosReview, goToVoicesReview, restoreFromHistory;
    repeat match goal with
    | |- context [match active_runId ?s with _ => _ end] => destruct (active_runId s)
    | |- context [match changedSceneIds ?s ?e with _ => _ end] =>
        destruct (changedSceneIds s e) as [[|??]|]
    end;
    first [ by left; simpl; rewrite ?tasks_abort_current
          | right; simpl; rewrite ?tasks_abort_current, Ht; split; [done|]; by eexists _, _ ].
Qed.

Lemma lookup_single (t t0 : nat) (k k0 : Task) :
  lookup_task t [(t0, k0)] = Some k -> t = t0 ∧ k = k0.
Proof. simpl. destruct (decide (t0 = t)); [|done]. by intros [= <-]. Qed.

Lemma remove_single (m : Hook) (t : nat) (k : Task) :
  tasks m = [(t, k)] -> tasks (remove_task t m) = [].
Proof.
  intros H. simpl. rewrite H, filter_cons. simpl.
  by destruct (decide (t ≠ t)).
Qed.

Lemma replace_single (m : Hook) (t : nat) (k k' : Task) :
  tasks m = [(t, k)] -> tasks (replace_task t k' m) = [(t, k')].
Proof. intros H. simpl. rewrite H. simpl. by destruct (decide (t = t)). Qed.

Lemma connect_single (m : Hook) (t : nat) (k : Task) (r : string) (opts : Opts) :
  tasks m = [(t, k)] ->
  tasks (connectSSE t r opts m) = [(t, AwaitConnect (fresh m) opts)].
Proof. intros H. simpl. rewrite H. simpl. by destruct (decide (t = t)). Qed.

Lemma page_step (m : Hook) (e : Event) :
  one_call_at_most m ->
  match e with Call a => offered (state m) a = true | _ => True end ->
  one_call_at_most (step m e).
Proof.
  intros Hj He. destruct e as [a|t r|t r|t r|t r|t r]; [by apply page_call|..];
    (destruct Hj as [Hj|(Hb & t0 & k0 & Hj)]; [by (left; simpl; rewrite Hj)|]);
    simpl; rewrite Hj;
    (destruct (lookup_task t [(t0, k0)]) as [k|] eqn:E;
      [apply lookup_single in E as [-> ->]|by (right; split; [done|]; by eexists _, _)]);
    (destruct k0 as [|r0 opts|signal opts|signal opts|];
      try by (right; split; [done|]; by eexists _, _)).
  - unfold start_done. destruct r as [[??]| |]; left; simpl; by apply (remove_single m t0 AwaitStart).
  - unfold post_done. destruct r.
    + right. split; [done|]. eexists _, _. by apply (connect_single m t0 (AwaitPost r0 opts)).
    + left. by apply (remove_single m t0 (AwaitPost r0 opts)).
    + left. by apply (remove_single m t0 (AwaitPost r0 opts)).
  - unfold connect_done. destruct (settle signal r m).
    + right. split; [done|]. eexists _, _.
      by apply (replace_single m t0 (AwaitConnect signal opts)).
    + left. by apply (remove_single m t0 (AwaitConnect signal opts)).
    + left. by apply (remove_single m t0 (AwaitConnect signal opts)).
  - unfold read_done. destruct (settle_read signal r m).
    + pose proof (for_lines_phase opts lines (state m)) as Hp.
      destruct (for_lines opts lines (state m)) as [s' [|]]; simpl in *.
      * left. by apply (remove_single m t0 (Reading signal opts)).
      * right. simpl. rewrite Hp by done. split; [done|]. by eexists _, _.
    + left. by apply (remove_single m t0 (Reading signal opts)).
    + left. by apply (remove_single m t0 (Reading signal opts)).
  - unfold restore_done. destruct r; left; by apply (remove_single m t0 AwaitRestore).
Qed.

Lemma page_run (es : list Event) (m : Hook) :
  one_call_at_most m -> page_driven m es -> one_call_at_most (run m es).
Proof.
  revert m. induction es as [|e es IH]; intros m Hj Hp; simpl in *; [done|].
  destruct Hp as [He Hp]. apply IH; [by apply page_step | done].
Qed.

Lemma live_consumers_bound (m : Hook) :
  (length (live_consumers m) <= length (tasks m))%nat.
Proof. unfold live_consumers. apply length_filter. Qed.

(** A cancelled connection or reader rejects with [AbortError], which
    the [catch] of its action drops. *)
Lemma aborted_connect_silent (m : Hook) (t signal : nat) (opts : Opts) (r : Response unit) :
  lookup_task t (tasks m) = Some (AwaitConnect signal opts) ->
  signal ∈ aborted m ->
  state (step m (ConnectDone t r)) = state m.
Proof.
  intros Ht Hs. simpl. rewrite Ht. unfold connect_done, settle.
  by destruct (decide (signal ∈ aborted m)).
Qed.

Lemma aborted_read_silent (m : Hook) (t signal : nat) (opts : Opts) (r : ReadResult) :
  lookup_task t (tasks m) = Some (Reading signal opts) ->
  signal ∈ aborted m ->
  state (step m (ReadDone t r)) = state m.
Proof.
  intros Ht Hs. simpl. rewrite Ht. unfold read_done, settle_read.
  by destruct (decide (signal ∈ aborted m)).
Qed.

Lemma aborted_mono (m : Hook) (e : Event) (h : nat) :
  h ∈ aborted m -> h ∈ aborted (step m e).
Proof.
  intros H. destruct e as [a|t r|t r|t r|t r|t r]; simpl.
  - destruct a; simpl;
    unfold start, confirm, compose, generateVoices, regenerateImage, regenerateVideo,
      finalize, goToTransitionEdit, regenerateVoices, reset, goToScriptReview,
      goToCutsReview, goToVideosReview, goToVoicesReview, restoreFromHistory;
    repeat match goal with
    | |- context [match active_runId ?s with _ => _ end] => destruct (active_runId s)
    | |- context [match changedSceneIds ?s ?e with _ => _ end] =>
        destruct (changedSceneIds s e) as [[|??]|]
    end; simpl; try done;
    unfold abort_current; destruct (abortRef m); simpl; try done; by right.
  - destruct (lookup_task t (tasks m)) as [[]|]; try done.
    unfold start_done. by destruct r as [[??]| |].
  - destruct (lookup_task t (tasks m)) as [[]|]; try done.
    unfold post_done. by destruct r.
  - destruct (lookup_task t (tasks m)) as [[]|]; try done.
    unfold connect_done. by destruct (settle _ r m).
  - destruct (lookup_task t (tasks m)) as [[| | |signal opts|]|]; try done.
    unfold read_done. destruct (settle_read _ r m); try done.
    by destruct (for_lines opts lines (state m)) as [s' [|]].
  - destruct (lookup_task t (tasks m)) as [[]|]; try done.
    unfold restore_done. by destruct r.
Qed.

Lemma aborting_aborts (m : Hook) (a : Action.t) (h : nat) :
  aborting a = true -> abortRef m = Some h -> h ∈ aborted (call a m).
Proof.
  intros Ha Hh. destruct a; try done; simpl;
    unfold start, reset, goToScriptReview, goToCutsReview, goToVideosReview,
      goToVoicesReview; simpl; unfold abort_current; rewrite Hh; simpl; by left.
Qed.

(** Nothing but the aborting actions cancels a handle. *)
Lemma aborted_unchanged (m : Hook) (e : Event) :
  (forall a, e = Call a -> aborting a = false) ->
  aborted (step m e) = aborted m.
Proof.
  intros H. destruct e as [a|t r|t r|t r|t r|t r]; simpl.
  - specialize (H a eq_refl). destruct a; try done; simpl;
    unfold confirm, compose, generateVoices, regenerateImage, regenerateVideo,
      finalize, goToTransitionEdit, regenerateVoices, restoreFromHistory;
    repeat match goal with
    | |- context [match active_runId ?s with _ => _ end] => destruct (active_runId s)
    | |- context [match changedSceneIds ?s ?e with _ => _ end] =>
        destruct (changedSceneIds s e) as [[|??]|]
    end; done.
  - destruct (lookup_task t (tasks m)) as [[]|]; try done.
    unfold start_done. by destruct r as [[??]| |].
  - destruct (lookup_task t (tasks m)) as [[]|]; try done.
    unfold post_done. by destruct r.
  - destruct (lookup_task t (tasks m)) as [[]|]; try done.
    unfold connect_done. by destruct (settle _ r m).
  - destruct (lookup_task t (tasks m)) as [[| | |signal opts|]|]; try done.
    unfold read_done. destruct (settle_read _ r m); try done.
    by destruct (for_lines opts lines (state m)) as [s' [|]].
  - destruct (lookup_task t (tasks m)) as [[]|]; try done.
    unfold restore_done. by destruct r.
Qed.

(** C3, amended.  Opening the stream of a streamed action does not
    cancel the handle held so far: [connectSSE] puts a new controller in
    [abortRef] and aborts nothing.  One consumer at a time is what the
    page brings about: in a run where every call comes from a control
    [Home] shows, at most one call of the hook is parked, so at most one
    stream is read.  The held handle is cancelled by [start], [reset] and
    the four [goTo...Review] actions only; cancelled stays cancelled, and
    a stream whose handle is cancelled never changes the Session again. *)
Theorem C3_streams_and_cancellation (es : list Event) (m : Hook) :
  m = run useGeneration es ->
  (page_driven useGeneration es -> single_consumer m ∧ one_call_at_most m) ∧
  (forall t runId opts,
     lookup_task t (tasks m) = Some (AwaitPost runId opts) ->
     abortRef (step m (PostDone t (Ok ()))) = Some (fresh m) ∧
     aborted (step m (PostDone t (Ok ()))) = aborted m) ∧
  (forall a h, aborting a = true -> abortRef m = Some h -> h ∈ aborted (call a m)) ∧
  (forall e, (forall a, e = Call a -> aborting a = false) ->
     aborted (step m e) = aborted m) ∧
  (forall e h, h ∈ aborted m -> h ∈ aborted (step m e)) ∧
  (forall t signal opts,
     signal ∈ aborted m ->
     (lookup_task t (tasks m) = Some (AwaitConnect signal opts) ->
      forall r, state (step m (ConnectDone t r)) = state m) ∧
     (lookup_task t (tasks m) = Some (Reading signal opts) ->
      forall r, state (step m (ReadDone t r)) = state m)).
Proof.
  intros ->. split; [|split; [|split; [|split; [|split]]]].
  - intros Hp.
    assert (Hj : one_call_at_most (run useGeneration es)).
    { apply page_run; [by left | done]. }
    split; [|done]. unfold single_consumer.
    pose proof (live_consumers_bound (run useGeneration es)) as Hb.
    destruct Hj as [Hj|(_ & t & k & Hj)]; rewrite Hj in Hb; simpl in Hb; lia.
  - intros t runId0 opts Ht. simpl. by rewrite Ht.
  - intros a h. apply aborting_aborts.
  - intros e. apply aborted_unchanged.
  - intros e h. apply aborted_mono.
  - intros t signal opts Hs. split; intros Ht r.
    + by apply (aborted_connect_silent _ _ signal opts).
    + by apply (aborted_read_silent _ _ signal opts).
Qed.

(** C3 on the page-driven run up to the voices. *)
Lemma C3_streams_and_cancellation_witness :
  single_consumer (run useGeneration to_voices_review) ∧
  one_call_at_most (run useGeneration to_voices_review).
Proof.
  destruct (C3_streams_and_cancellation to_voices_review _ eq_refl) as [H _].
  apply H. vm_compute. repeat split.
Defined.

(** C3, as stated, fails.  [compose] called while the stream of
    [confirm] is read opens its own stream without cancelling controller
    2; two consumers are then live; and the [images_ready] record of the
    first, no longer the one in [abortRef], still moves the Session to
    [cuts_review]. *)
Lemma C3_second_stream_leaves_first_live :
  ¬ cancels_held_handle (run useGeneration second_request) 3 ∧
  ¬ single_consumer (run useGeneration two_streams) ∧
  ¬ superseded_is_silent (run useGeneration two_streams).
Proof.
  split; [|split].
  - intros H.
    assert (E : abortRef (run useGeneration second_request) = Some 2%nat)
      by (vm_compute; reflexivity).
    specialize (H _ E). vm_compute in H. inversion H.
  - unfold single_consumer. vm_compute. lia.
  - intros H.
    assert (E : lookup_task 1 (tasks (run useGeneration two_streams))
                = Some (Reading 2
                     {| onImagesReady := Some (fun images s =>
                          set_progress None
                            (set_images images
                               (set_originalScript (Some script0)
                                  (set_script (Some script0)
                                     (set_phase Phase.cuts_review s)))));
                        onVideosReady := None;
                        onVoicesReady := None |}))
      by (vm_compute; reflexivity).
    assert (Hne : abortRef (run useGeneration two_streams) ≠ Some 2%nat)
      by (vm_compute; discriminate).
    specialize (H _ _ _ (Chunk [Decoded (images_ready [image1; image2])]) E Hne).
    apply (f_equal phase) in H. vm_compute in H. discriminate.
Qed.

(** * Further properties *)

(** ** Failures of the requests and of the stream *)

Lemma api_error_kept (status : Z) :
  or_default (Some (api_error status)) "Unknown error" = api_error status.
Proof. reflexivity. Qed.

Lemma on_catch_error (name message : string) (s : GenerationState) :
  String.eqb name "AbortError" = false ->
  on_catch name message s
  = set_error (Some (or_default (Some message) "Unknown error")) (set_phase Phase.error s).
Proof. intros H. unfold on_catch. by rewrite H. Qed.

(** X1. A streamed action whose POST is refused, or fails on the way,
    opens no stream: the Session goes to [error] with the message
    [API error: status], or the message of the failure ([Unknown error]
    when it has none), every artifact stays, and the call is over.  A
    failure named [AbortError] leaves the Session as it is. *)
Theorem X1_failed_post_opens_no_stream (m : Hook) (t : nat) (runId0 : string) (opts : Opts) :
  lookup_task t (tasks m) = Some (AwaitPost runId0 opts) ->
  (forall status,
     state (step m (PostDone t (NotOk status)))
       = set_error (Some (api_error status)) (set_phase Phase.error (state m))) ∧
  (forall name message,
     String.eqb name "AbortError" = false ->
     state (step m (PostDone t (Rejected name message)))
       = set_error (Some (or_default (Some message) "Unknown error"))
           (set_phase Phase.error (state m))) ∧
  (forall message,
     state (step m (PostDone t (Rejected "AbortError" message))) = state m) ∧
  (forall r, (forall b, r ≠ Ok b) ->
     requests (step m (PostDone t r)) = requests m ∧
     abortRef (step m (PostDone t r)) = abortRef m ∧
     aborted (step m (PostDone t r)) = aborted m ∧
     lookup_task t (tasks (step m (PostDone t r))) = None).
Proof.
  intros Ht. repeat split.
  - intros status. simpl. by rewrite Ht.
  - intros name message Hn. simpl. rewrite Ht. simpl. by rewrite on_catch_error.
  - intros message. simpl. by rewrite Ht.
  - simpl. rewrite Ht. destruct r as [b| |]; [by destruct (H b)|done..].
  - simpl. rewrite Ht. destruct r as [b| |]; [by destruct (H b)|done..].
  - simpl. rewrite Ht. destruct r as [b| |]; [by destruct (H b)|done..].
  - simpl. rewrite Ht. destruct r as [b| |]; [by destruct (H b)|..];
      simpl; apply lookup_task_remove.
Qed.

(** X1 on [compose] called from the cuts and answered with a 500. *)
Lemma X1_failed_post_opens_no_stream_witness :
  state (step (run useGeneration (to_cuts_review ++ [Call (Action.compose [Some 1; Some 2])]))
              (PostDone 3 (NotOk 500)))
  = set_error (Some (api_error 500))
      (set_phase Phase.error
         (state (run useGeneration (to_cuts_review ++ [Call (Action.compose [Some 1; Some 2])])))).
Proof.
  eassert (Ht : lookup_task 3
                 (tasks (run useGeneration
                           (to_cuts_review ++ [Call (Action.compose [Some 1; Some 2])])))
               = Some (AwaitPost "run-1" _)) by (vm_compute; reflexivity).
  destruct (X1_failed_post_opens_no_stream _ _ _ _ Ht) as (H & _).
  apply H.
Defined.

(** X2. When the progress connection cannot be opened, the streamed
    action ends in [error] with [Failed to connect to progress stream]
    (or the message of the failure, [Unknown error] when it has none);
    the call is over and the artifacts stay. *)
Theorem X2_failed_connection_is_an_error (m : Hook) (t signal : nat) (opts : Opts) :
  lookup_task t (tasks m) = Some (AwaitConnect signal opts) ->
  signal ∉ aborted m ->
  (forall status,
     state (step m (ConnectDone t (NotOk status)))
       = set_error (Some "Failed to connect to progress stream")
           (set_phase Phase.error (state m))) ∧
  (forall name message,
     String.eqb name "AbortError" = false ->
     state (step m (ConnectDone t (Rejected name message)))
       = set_error (Some (or_default (Some message) "Unknown error"))
           (set_phase Phase.error (state m))) ∧
  (forall r, (forall b, r ≠ Ok b) ->
     lookup_task t (tasks (step m (ConnectDone t r))) = None ∧
     requests (step m (ConnectDone t r)) = requests m).
Proof.
  intros Ht Hs.
  assert (Hset : forall r : Response unit, settle signal r m = r).
  { intros r. unfold settle. by destruct (decide (signal ∈ aborted m)). }
  repeat split.
  - intros status. simpl. rewrite Ht. unfold connect_done. by rewrite Hset.
  - intros name message Hn. simpl. rewrite Ht. unfold connect_done. rewrite Hset.
    simpl. unfold on_catch. by rewrite Hn.
  - simpl. rewrite Ht. unfold connect_done. rewrite Hset.
    destruct r as [b| |]; [by destruct (H b)|..]; simpl; apply lookup_task_remove.
  - simpl. rewrite Ht. unfold connect_done. rewrite Hset.
    destruct r as [b| |]; [by destruct (H b)|done..].
Qed.

(** X2 on the connection of [confirm], refused with a 502. *)
Lemma X2_failed_connection_is_an_error_witness :
  state (step (run useGeneration (firstn 4 to_cuts_review)) (ConnectDone 1 (NotOk 502)))
  = set_error (Some "Failed to connect to progress stream")
      (set_phase Phase.error (state (run useGeneration (firstn 4 to_cuts_review)))).
Proof.
  eassert (Ht : lookup_task 1 (tasks (run useGeneration (firstn 4 to_cuts_review)))
               = Some (AwaitConnect 2 _)) by (vm_compute; reflexivity).
  assert (Hs : 2%nat ∉ aborted (run useGeneration (firstn 4 to_cuts_review))).
  { vm_compute. intros H. inversion H. }
  destruct (X2_failed_connection_is_an_error _ _ _ _ Ht Hs) as (H & _).
  apply H.
Defined.

(** ** Progress records *)

Lemma on_record_progress (opts : Opts) (data : ProgressEvent.t) (s : GenerationState) :
  (on_record opts data s).2 = false ->
  (on_record opts data s).1 = set_progress (Some data) s.
Proof.
  unfold on_record, supplied.
  destruct (status_is data "complete" && truthy (ProgressEvent.videoUrl data)); [done|].
  destruct (status_is data "images_ready"), (onImagesReady opts); simpl; try done;
  destruct (status_is data "videos_ready"), (onVideosReady opts); simpl; try done;
  destruct (status_is data "voices_ready"), (onVoicesReady opts); simpl; try done;
  by destruct (status_is data "error").
Qed.

Lemma set_progress_same (s : GenerationState) : set_progress (progress s) s = s.
Proof. by destruct s. Qed.

Lemma for_lines_progress (opts : Opts) (lines : list Line) (s : GenerationState) :
  (for_lines opts lines s).2 = false ->
  (for_lines opts lines s).1 = set_progress (or_else (last_decoded lines) (progress s)) s.
Proof.
  revert s. induction lines as [|[|d] lines IH]; intros s; simpl.
  - intros _. by rewrite set_progress_same.
  - apply IH.
  - pose proof (on_record_progress opts d s) as Hp.
    destruct (on_record opts d s) as [s' [|]]; simpl in *; [done|].
    intros H. rewrite (IH s' H), Hp by done. simpl.
    by destruct (last_decoded lines).
Qed.

Lemma read_loop_concat (opts : Opts) (chunks : list (list Line)) (s : GenerationState) :
  read_loop opts chunks s = for_lines opts (concat chunks) s.
Proof.
  revert s. induction chunks as [|l chunks IH]; intros s; simpl; [done|].
  rewrite for_lines_app.
  destruct (for_lines opts l s) as [s' [|]]; simpl; [done|apply IH].
Qed.

(** X3. As long as a connection has read no terminal record, the
    Session differs from what it was when the stream opened in
    [progress] alone, and [progress] holds the last record read (or
    what it held before, if no record came). *)
Theorem X3_progress_records_touch_progress_only (opts : Opts) (chunks : list (list Line))
    (s : GenerationState) :
  (read_loop opts chunks s).2 = false ->
  (read_loop opts chunks s).1
    = set_progress (or_else (last_decoded (concat chunks)) (progress s)) s.
Proof. rewrite read_loop_concat. apply for_lines_progress. Qed.

(** X3 on a stream of two progress records and a keepalive. *)
Lemma X3_progress_records_touch_progress_only_witness :
  (read_loop no_opts [[Decoded (record "running"); Skipped]; [Decoded (record "images_ready")]]
     cuts_session).1
  = set_progress (Some (record "images_ready")) cuts_session.
Proof.
  apply (X3_progress_records_touch_progress_only no_opts
           [[Decoded (record "running"); Skipped]; [Decoded (record "images_ready")]]
           cuts_session).
  vm_compute. reflexivity.
Defined.

(** ** Chunks of text *)

Lemma split_nonempty (text : string) : split text ≠ [].
Proof.
  destruct text as [|c rest]; simpl; [done|].
  destruct (Ascii.eqb c newline); [done|]. by destruct (split rest).
Qed.

(** Splitting a text that arrives in two parts: the complete lines of
    the first part, then the split of its unfinished rest followed by
    the second part. *)
Lemma split_append (a b : string) :
  split (a +:+ b)
  = List.removelast (split a) ++ split (List.last (split a) EmptyString +:+ b).
Proof.
  induction a as [|c a IH]; [done|].
  pose proof (split_nonempty a) as Hne.
  change (String c a +:+ b) with (String c (a +:+ b)).
  cbn [split]. rewrite IH.
  destruct (split a) as [|x l] eqn:E; [done|].
  destruct (Ascii.eqb c newline) eqn:Ec.
  - destruct l; done.
  - destruct l as [|y l]; simpl; [by rewrite Ec|done].
Qed.

Lemma append_assoc (a b c : string) : a +:+ (b +:+ c) = (a +:+ b) +:+ c.
Proof.
  induction a as [|x a IH]; [done|].
  change (String x (a +:+ (b +:+ c)) = String x ((a +:+ b) +:+ c)). by rewrite IH.
Qed.

Lemma list_last_app {A : Type} (l l' : list A) (d : A) :
  l' ≠ [] -> List.last (l ++ l') d = List.last l' d.
Proof.
  intros H. induction l as [|x l IH]; simpl; [done|].
  rewrite IH. destruct (l ++ l') eqn:E; [|done].
  apply app_eq_nil in E as [_ E]. done.
Qed.

Lemma take_lines_append (buffer c1 c2 : string) :
  (take_lines buffer (c1 +:+ c2)).1
  = (take_lines buffer c1).1 ++ (take_lines (take_lines buffer c1).2 c2).1 ∧
  (take_lines buffer (c1 +:+ c2)).2 = (take_lines (take_lines buffer c1).2 c2).2.
Proof.
  unfold take_lines. simpl.
  rewrite append_assoc, split_append.
  set (rest := split (List.last (split (buffer +:+ c1)) EmptyString +:+ c2)).
  assert (Hne : rest ≠ []) by apply split_nonempty.
  split.
  - by rewrite removelast_app.
  - by rewrite list_last_app.
Qed.

(** Read in any number of chunks, a text yields the lines, and leaves
    the rest, that it yields read at once. *)
Lemma read_chunks_whole (buffer : string) (chunks : list string) :
  concat (read_chunks buffer chunks).1
    ++ (take_lines (read_chunks buffer chunks).2 EmptyString).1
  = (take_lines buffer (concat_text chunks)).1 ∧
  (take_lines (read_chunks buffer chunks).2 EmptyString).2
  = (take_lines buffer (concat_text chunks)).2.
Proof.
  revert buffer. induction chunks as [|c chunks IH]; intros buffer; [done|].
  cbn [read_chunks concat_text].
  destruct (take_lines_append buffer c (concat_text chunks)) as [H1 H2].
  rewrite H1, H2.
  destruct (take_lines buffer c) as [lines buffer'] eqn:E.
  destruct (IH buffer') as [IH1 IH2].
  destruct (read_chunks buffer' chunks) as [more final].
  cbn [fst snd concat] in *.
  by rewrite <- app_assoc, IH1, IH2.
Qed.

Lemma split_pieces (text : string) : Forall (fun piece => no_newline piece = true) (split text).
Proof.
  induction text as [|c text IH]; simpl; [by repeat constructor|].
  destruct (Ascii.eqb c newline) eqn:Ec; [by constructor|].
  destruct (split text) as [|x l]; [by repeat constructor; simpl; rewrite Ec|].
  apply Forall_cons in IH as [Hx Hl]. constructor; [|done]. simpl. by rewrite Ec.
Qed.

Lemma split_one_line (s : string) : no_newline s = true -> split s = [s].
Proof.
  induction s as [|c s IH]; simpl; [done|].
  destruct (Ascii.eqb c newline); simpl; [done|]. intros H. by rewrite IH.
Qed.

(** The buffer never holds a newline, so reading nothing more hands out
    nothing more. *)
Lemma take_lines_buffer (buffer chunk : string) :
  no_newline (take_lines buffer chunk).2 = true.
Proof.
  unfold take_lines. simpl.
  pose proof (split_pieces (buffer +:+ chunk)) as H.
  pose proof (split_nonempty (buffer +:+ chunk)) as Hne.
  induction (split (buffer +:+ chunk)) as [|x l IH]; [done|].
  apply Forall_cons in H as [Hx Hl].
  destruct l as [|y l]; [done|]. by apply IH.
Qed.

Lemma read_chunks_buffer (buffer : string) (chunks : list string) :
  no_newline buffer = true -> no_newline (read_chunks buffer chunks).2 = true.
Proof.
  revert buffer. induction chunks as [|c chunks IH]; intros b Hb; [done|].
  cbn [read_chunks]. pose proof (take_lines_buffer b c) as Hc.
  destruct (take_lines b c) as [lines b']. specialize (IH b' Hc).
  by destruct (read_chunks b' chunks).
Qed.

Lemma read_chunks_lines (chunks : list string) :
  concat (read_chunks EmptyString chunks).1
    = List.removelast (split (concat_text chunks)) ∧
  (read_chunks EmptyString chunks).2 = List.last (split (concat_text chunks)) EmptyString.
Proof.
  destruct (read_chunks_whole EmptyString chunks) as [H1 H2].
  pose proof (read_chunks_buffer EmptyString chunks eq_refl) as Hb.
  unfold take_lines in H1, H2. cbn [fst snd] in H1, H2.
  assert (E : forall s, s +:+ EmptyString = s).
  { intros s. induction s as [|c s IH]; [done|].
    change (String c (s +:+ EmptyString) = String c s). by rewrite IH. }
  rewrite E, (split_one_line _ Hb) in H1, H2. simpl in H1, H2.
  rewrite app_nil_r in H1. done.
Qed.

Lemma concat_fmap_fmap {A B : Type} (f : A -> B) (ls : list (list A)) :
  concat ((fun l : list A => f <$> l) <$> ls) = f <$> concat ls.
Proof.
  induction ls as [|l ls IH]; [done|].
  rewrite fmap_cons. cbn [concat]. by rewrite fmap_app, IH.
Qed.

(** X4. How the text is cut into chunks is of no consequence: two
    deliveries of the same text leave the Session the same and the same
    unfinished line in the buffer.  The lines decoded are the pieces of
    the text between newlines, all but the last: what follows the last
    newline is still in the buffer when the stream ends, and is never
    decoded. *)
Theorem X4_chunking_does_not_matter (trim : string -> string)
    (JSON_parse : string -> option ProgressEvent.t) (opts : Opts)
    (chunks1 chunks2 : list string) (s : GenerationState) :
  concat_text chunks1 = concat_text chunks2 ->
  read_loop opts (decode_stream trim JSON_parse chunks1) s
    = read_loop opts (decode_stream trim JSON_parse chunks2) s ∧
  (read_chunks EmptyString chunks1).2 = (read_chunks EmptyString chunks2).2 ∧
  concat (decode_stream trim JSON_parse chunks1)
    = decode_line trim JSON_parse <$> List.removelast (split (concat_text chunks1)).
Proof.
  intros H.
  destruct (read_chunks_lines chunks1) as [L1 B1].
  destruct (read_chunks_lines chunks2) as [L2 B2].
  assert (C : forall chunks, concat (decode_stream trim JSON_parse chunks)
              = decode_line trim JSON_parse <$> concat (read_chunks EmptyString chunks).1).
  { intros chunks. unfold decode_stream. apply concat_fmap_fmap. }
  split; [|split].
  - rewrite !read_loop_concat, !C, L1, L2. by rewrite H.
  - by rewrite B1, B2, H.
  - by rewrite C, L1.
Qed.

(** X4 on one text delivered in two chunks, cut inside a line, and in
    one. *)
Lemma X4_chunking_does_not_matter_witness :
  read_loop no_opts
    (decode_stream (fun s => s) parse_sample
       ["data:{}" +:+ line_break +:+ "da"; "ta:{}" +:+ line_break +:+ "data:{}"])
    INITIAL_STATE
  = read_loop no_opts
      (decode_stream (fun s => s) parse_sample
         ["data:{}" +:+ line_break +:+ "data:{}" +:+ line_break +:+ "data:{}"])
      INITIAL_STATE.
Proof.
  apply (X4_chunking_does_not_matter (fun s => s) parse_sample no_opts).
  vm_compute. reflexivity.
Defined.

(** ** A stream that reports an error *)

(** X5. An [error] record, read after progress records only, ends the
    connection and moves the Session to [error] with the record's
    [detail] ([Unknown error] when it has none or an empty one); script,
    images, videos, voices and [runId] are what they were, and nothing
    behind the record is read. *)
Theorem X5_error_record_keeps_the_artifacts (m : Hook) (t signal : nat) (opts : Opts)
    (before after : list Line) (data : ProgressEvent.t) :
  lookup_task t (tasks m) = Some (Reading signal opts) ->
  signal ∉ aborted m ->
  none_terminal opts before ->
  ProgressEvent.status data = Some "error" ->
  let m' := step m (ReadDone t (Chunk (before ++ Decoded data :: after))) in
  phase (state m') = Phase.error ∧
  error (state m') = Some (or_default (ProgressEvent.detail data) "Unknown error") ∧
  runId (state m') = runId (state m) ∧
  script (state m') = script (state m) ∧
  originalScript (state m') = originalScript (state m) ∧
  images (state m') = images (state m) ∧
  videos (state m') = videos (state m) ∧
  voices (state m') = voices (state m) ∧
  videoUrl (state m') = videoUrl (state m) ∧
  lookup_task t (tasks m') = None.
Proof.
  intros Ht Hs Hb Hst m'.
  assert (Hpre : (for_lines opts before (state m)).2 = false).
  { clear Ht Hs. generalize (state m). induction before as [|[|d] l IH]; intros s; simpl.
    - done.
    - apply IH. by apply Forall_cons in Hb as [_ ?].
    - apply Forall_cons in Hb as [Hd Hl].
      pose proof (on_record_returns opts d s) as Hr. rewrite Hd in Hr.
      destruct (on_record opts d s) as [s' ret]; simpl in *. subst ret. by apply IH. }
  pose proof (for_lines_progress opts before (state m) Hpre) as Hp.
  assert (Hrec : forall s, on_record opts data s
            = (set_error (Some (or_default (ProgressEvent.detail data) "Unknown error"))
                 (set_phase Phase.error s), true)).
  { intros s. unfold on_record, supplied, status_is. by rewrite Hst. }
  assert (Hall : for_lines opts (before ++ Decoded data :: after) (state m)
            = (set_error (Some (or_default (ProgressEvent.detail data) "Unknown error"))
                 (set_phase Phase.error (for_lines opts before (state m)).1), true)).
  { rewrite for_lines_app, Hpre. simpl. by rewrite Hrec. }
  subst m'. simpl. rewrite Ht. unfold read_done, settle_read.
  destruct (decide (signal ∈ aborted m)); [done|].
  rewrite Hall, Hp. simpl. repeat split; try done. apply lookup_task_remove.
Qed.

(** X5 on the stream of [confirm], which fails while the images are
    made. *)
Lemma X5_error_record_keeps_the_artifacts_witness :
  error (state (step (run useGeneration (firstn 5 to_cuts_review))
                     (ReadDone 1 (Chunk ([Decoded (record "running")]
                                         ++ Decoded (failed (Some "quota exceeded")) :: [])))))
  = Some "quota exceeded".
Proof.
  eassert (Ht : lookup_task 1 (tasks (run useGeneration (firstn 5 to_cuts_review)))
               = Some (Reading 2 _)) by (vm_compute; reflexivity).
  assert (Hs : 2%nat ∉ aborted (run useGeneration (firstn 5 to_cuts_review))).
  { vm_compute. intros H. inversion H. }
  eassert (Hb : none_terminal _ [Decoded (record "running")]).
  { constructor; [|constructor]. vm_compute. reflexivity. }
  destruct (X5_error_record_keeps_the_artifacts _ _ _ _ _ [] (failed (Some "quota exceeded"))
              Ht Hs Hb eq_refl) as (_ & H & _).
  exact H.
Defined.

(** ** The diff of a script against itself *)

Lemma unchanged_prompts_self (sc : Script) :
  NoDup (scene_id <$> scenes sc) -> unchanged_prompts sc sc.
Proof.
  intros Hnd e He. exists e. split; [|done]. by apply find_scene_unique.
Qed.

(** X6. Against a baseline whose scene ids are distinct, the script
    itself, reworded and retimed at will, has an empty diff: only a
    changed [image_prompt] or a new id can make a scene count as
    changed. *)
Theorem X6_rewording_a_script_changes_no_id (l : list ScriptScene)
    (retouch : ScriptScene -> ScriptScene) :
  NoDup (scene_id <$> l) ->
  (forall e, scene_id (retouch e) = scene_id e ∧
             image_prompt (retouch e) = image_prompt e) ->
  diff_loop l [] (retouch <$> l) = [].
Proof.
  intros Hnd Hr. rewrite diff_ignores_text_and_duration by done.
  apply (unchanged_prompts_diff {| title := EmptyString; scenes := l |}
           {| title := EmptyString; scenes := l |}).
  by apply unchanged_prompts_self.
Qed.

(** X6 on [script0] with every text replaced. *)
Lemma X6_rewording_a_script_changes_no_id_witness :
  diff_loop (scenes script0) []
    ((fun e => {| scene_id := scene_id e; text := "cut"; image_prompt := image_prompt e;
                  duration_sec := 1 |}) <$> scenes script0) = [].
Proof.
  apply X6_rewording_a_script_changes_no_id.
  - vm_compute. repeat constructor; intros H; inversion H; subst;
      repeat match goal with H : _ ∈ _ |- _ => inversion H; clear H; subst end.
  - intros e. split; reflexivity.
Defined.

(** Where ids repeat, the later scene is compared with the first of its
    id, and a script can differ from itself. *)
Example self_diff_with_repeated_id :
  diff_loop [scene1; {| scene_id := 1; text := "again"; image_prompt := "a street";
                        duration_sec := 2 |}] []
            [scene1; {| scene_id := 1; text := "again"; image_prompt := "a street";
                        duration_sec := 2 |}] = [1].
Proof. vm_compute. reflexivity. Qed.

(** ** Streamed actions that run to their end *)

(** A streamed action, its POST accepted, its connection opened and one
    chunk read: the Session is what the chunk makes of the Session the
    action's first [setState] left, and two requests went out. *)
Lemma streamed_run (m : Hook) (req : Request) (r : string) (opts : Opts)
    (f : GenerationState -> GenerationState) (lines : list Line) :
  ids_below_fresh m ->
  let m' := step (step (step (await req (AwaitPost r opts) (setState f m))
                             (PostDone (fresh m) (Ok ())))
                       (ConnectDone (fresh m) (Ok ())))
                 (ReadDone (fresh m) (Chunk lines)) in
  state m' = (for_lines opts lines (f (state m))).1 ∧
  requests m' = requests m ++ [req; GET_progress r (S (fresh m))] ∧
  abortRef m' = Some (S (fresh m)).
Proof.
  intros Hm.
  destruct (stream_opens m req r opts f Hm) as (Hs & Ht & Hna & _ & Hr & Hq).
  set (m3 := step (step (await req (AwaitPost r opts) (setState f m))
                     (PostDone (fresh m) (Ok ()))) (ConnectDone (fresh m) (Ok ()))) in *.
  cbv zeta. split; [by rewrite (read_chunk m3 _ _ _ _ Ht Hna), Hs|].
  simpl. rewrite Ht. unfold read_done, settle_read.
  destruct (decide (S (fresh m) ∈ aborted m3)); [done|].
  destruct (for_lines opts lines (state m3)) as [s' [|]]; simpl; by rewrite Hr, Hq.
Qed.

Lemma body_changed_kept (changed : option (list Z)) :
  changed ≠ Some [] -> body_changed changed = changed.
Proof. by destruct changed as [[|??]|]. Qed.

(** X7. A [confirm] that has work to do (first generation, or some
    scene changed) posts the edited script with exactly the changed ids
    the diff found (none on first generation) and, when its stream
    reports [images_ready], makes the edited script both [script] and
    the new baseline and takes the images of the record.  With distinct
    scene ids, confirming that script once more then needs no request. *)
Theorem X7_confirm_makes_the_script_the_baseline (m : Hook) (r : string)
    (editedScript : Script) (data : ProgressEvent.t) :
  reachable m ->
  active_runId (state m) = Some r ->
  changedSceneIds (state m) editedScript ≠ Some [] ->
  ProgressEvent.status data = Some "images_ready" ->
  let m' := run m [ Call (Action.confirm editedScript);
                    PostDone (fresh m) (Ok ());
                    ConnectDone (fresh m) (Ok ());
                    ReadDone (fresh m) (Chunk [Decoded data]) ] in
  requests m' = requests m ++
                [ POST_continue r editedScript (changedSceneIds (state m) editedScript);
                  GET_progress r (S (fresh m)) ] ∧
  phase (state m') = Phase.cuts_review ∧
  script (state m') = Some editedScript ∧
  originalScript (state m') = Some editedScript ∧
  images (state m') = ProgressEvent.images data ∧
  videos (state m') = videos (state m) ∧
  voices (state m') = voices (state m) ∧
  (NoDup (scene_id <$> scenes editedScript) ->
   is_some (ProgressEvent.images data) = true ->
   changedSceneIds (state m') editedScript = Some []).
Proof.
  intros Hm Hr Hc Hst m'. subst m'. rewrite run_streamed.
  change (call (Action.confirm editedScript) m) with (confirm editedScript m).
  unfold confirm. rewrite Hr.
  destruct (changedSceneIds (state m) editedScript) as [[|id ids]|]; [done|..];
    (match goal with
     | |- context [await ?req (AwaitPost r ?opts) (setState ?f m)] =>
         destruct (streamed_run m req r opts f [Decoded data] (reachable_ids m Hm))
           as (Hs & Hq & _)
     end;
     rewrite Hs, Hq; simpl;
     unfold on_record, supplied, status_is; rewrite Hst; simpl;
     repeat split; try done;
     intros Hnd Hi; unfold changedSceneIds; simpl;
     (destruct (ProgressEvent.images data); [|done]); f_equal;
     apply (unchanged_prompts_diff editedScript editedScript);
     by apply unchanged_prompts_self).
Qed.

(** X7 on the first [confirm] of [script0]. *)
Lemma X7_confirm_makes_the_script_the_baseline_witness :
  originalScript
    (state (run (run useGeneration (firstn 2 to_cuts_review))
              [ Call (Action.confirm script0);
                PostDone (fresh (run useGeneration (firstn 2 to_cuts_review))) (Ok ());
                ConnectDone (fresh (run useGeneration (firstn 2 to_cuts_review))) (Ok ());
                ReadDone (fresh (run useGeneration (firstn 2 to_cuts_review)))
                  (Chunk [Decoded (images_ready [image1; image2])]) ]))
  = Some script0.
Proof.
  assert (Hm : reachable (run useGeneration (firstn 2 to_cuts_review)))
    by (by exists (firstn 2 to_cuts_review)).
  assert (Hr : active_runId (state (run useGeneration (firstn 2 to_cuts_review)))
               = Some "run-1") by (vm_compute; reflexivity).
  assert (Hc : changedSceneIds (state (run useGeneration (firstn 2 to_cuts_review))) script0
               ≠ Some []) by (vm_compute; discriminate).
  destruct (X7_confirm_makes_the_script_the_baseline _ _ _
              (images_ready [image1; image2]) Hm Hr Hc eq_refl) as (_ & _ & _ & H & _).
  exact H.
Defined.

Ltac run_streamed_action m r Hm Hr data Hst :=
  rewrite run_streamed; simpl call;
  unfold compose, generateVoices, regenerateVideo, regenerateVoices, finalize;
  rewrite Hr;
  match goal with
  | |- context [await ?req (AwaitPost r ?opts) (setState ?f m)] =>
      let Hs := fresh "Hs" in
      let Hq := fresh "Hq" in
      destruct (streamed_run m req r opts f [Decoded data] (reachable_ids m Hm))
        as (Hs & Hq & _);
      rewrite ?Hs, ?Hq
  end;
  simpl; unfold on_record, supplied, status_is; rewrite ?Hst; simpl.

(** X8. [compose] and [regenerateVideo] run to their end the same way:
    the POST carries the scene order, or the instruction map, as given;
    on [videos_ready] the videos of the record become the Session's
    videos, whole, the phase is [videos_review], and script, baseline,
    images and voices are not touched. *)
Theorem X8_video_stage_takes_the_payload (m : Hook) (r : string)
    (sceneOrder : list (option Z)) (sceneInstructions : gmap Z string)
    (data : ProgressEvent.t) :
  reachable m ->
  active_runId (state m) = Some r ->
  ProgressEvent.status data = Some "videos_ready" ->
  let finish a := run m [ Call a; PostDone (fresh m) (Ok ());
                          ConnectDone (fresh m) (Ok ());
                          ReadDone (fresh m) (Chunk [Decoded data]) ] in
  let composed := finish (Action.compose sceneOrder) in
  let redone := finish (Action.regenerateVideo sceneInstructions) in
  requests composed = requests m ++
                      [POST_compose r sceneOrder; GET_progress r (S (fresh m))] ∧
  requests redone = requests m ++
                    [POST_regenerate_videos r sceneInstructions;
                     GET_progress r (S (fresh m))] ∧
  state composed = state redone ∧
  phase (state composed) = Phase.videos_review ∧
  videos (state composed) = ProgressEvent.videos data ∧
  script (state composed) = script (state m) ∧
  originalScript (state composed) = originalScript (state m) ∧
  images (state composed) = images (state m) ∧
  voices (state composed) = voices (state m).
Proof.
  intros Hm Hr Hst finish composed redone. subst composed redone finish. cbv beta.
  split; [by run_streamed_action m r Hm Hr data Hst|].
  split; [by run_streamed_action m r Hm Hr data Hst|].
  split.
  { transitivity (set_progress None
                    (set_videos (ProgressEvent.videos data)
                       (set_phase Phase.videos_review
                          (set_progress None (set_phase Phase.composing (state m)))))).
    - by run_streamed_action m r Hm Hr data Hst.
    - symmetry. by run_streamed_action m r Hm Hr data Hst. }
  repeat split; by run_streamed_action m r Hm Hr data Hst.
Qed.

(** X8 on [compose] from the cuts. *)
Lemma X8_video_stage_takes_the_payload_witness :
  videos (state (run at_cuts [ Call (Action.compose [Some 2; Some 1]);
                               PostDone (fresh at_cuts) (Ok ());
                               ConnectDone (fresh at_cuts) (Ok ());
                               ReadDone (fresh at_cuts)
                                 (Chunk [Decoded (videos_ready [video1])]) ]))
  = Some [video1].
Proof.
  assert (Hm : reachable at_cuts) by (by exists to_cuts_review).
  assert (Hr : active_runId (state at_cuts) = Some "run-1") by (vm_compute; reflexivity).
  destruct (X8_video_stage_takes_the_payload at_cuts "run-1" [Some 2; Some 1] ∅
              (videos_ready [video1]) Hm Hr eq_refl) as (_ & _ & _ & _ & H & _).
  exact H.
Defined.

(** X9. [generateVoices] and [regenerateVoices] likewise: on
    [voices_ready] the voices of the record replace all voices, the
    phase is [voices_review], and script, images and videos are not
    touched.  [regenerateVoices] posts the overrides as given;
    [generateVoices] posts nothing but the run. *)
Theorem X9_voice_stage_takes_the_payload (m : Hook) (r : string)
    (overrides : VoiceOverrides) (data : ProgressEvent.t) :
  reachable m ->
  active_runId (state m) = Some r ->
  ProgressEvent.status data = Some "voices_ready" ->
  let finish a := run m [ Call a; PostDone (fresh m) (Ok ());
                          ConnectDone (fresh m) (Ok ());
                          ReadDone (fresh m) (Chunk [Decoded data]) ] in
  let made := finish Action.generateVoices in
  let redone := finish (Action.regenerateVoices overrides) in
  requests made = requests m ++
                  [POST_generate_voices r; GET_progress r (S (fresh m))] ∧
  requests redone = requests m ++
                    [POST_regenerate_voices r overrides; GET_progress r (S (fresh m))] ∧
  state made = state redone ∧
  phase (state made) = Phase.voices_review ∧
  voices (state made) = ProgressEvent.voices data ∧
  script (state made) = script (state m) ∧
  originalScript (state made) = originalScript (state m) ∧
  images (state made) = images (state m) ∧
  videos (state made) = videos (state m).
Proof.
  intros Hm Hr Hst finish made redone. subst made redone finish. cbv beta.
  split; [by run_streamed_action m r Hm Hr data Hst|].
  split; [by run_streamed_action m r Hm Hr data Hst|].
  split.
  { transitivity (set_progress None
                    (set_voices (ProgressEvent.voices data)
                       (set_phase Phase.voices_review
                          (set_progress None (set_phase Phase.composing (state m)))))).
    - by run_streamed_action m r Hm Hr data Hst.
    - symmetry. by run_streamed_action m r Hm Hr data Hst. }
  repeat split; by run_streamed_action m r Hm Hr data Hst.
Qed.

(** X9 on [regenerateVoices] from the voices. *)
Lemma X9_voice_stage_takes_the_payload_witness :
  voices (state (run at_voices [ Call Action.generateVoices;
                                 PostDone (fresh at_voices) (Ok ());
                                 ConnectDone (fresh at_voices) (Ok ());
                                 ReadDone (fresh at_voices)
                                   (Chunk [Decoded (voices_ready [])]) ]))
  = Some [].
Proof.
  assert (Hm : reachable at_voices) by (by exists to_voices_review).
  assert (Hr : active_runId (state at_voices) = Some "run-1") by (vm_compute; reflexivity).
  destruct (X9_voice_stage_takes_the_payload at_voices "run-1" overrides0
              (voices_ready []) Hm Hr eq_refl) as (_ & _ & _ & _ & H & _).
  exact H.
Defined.

(** X10. [finalize] stores the transitions it is given, or keeps the
    stored ones when given none, and posts the very transitions it
    stores.  When its stream reports [complete] with a [videoUrl], the
    phase is [complete] with that url; every artifact stays, and so does
    an [error] message left from before. *)
Theorem X10_finalize_stores_what_it_posts (m : Hook) (r : string)
    (transitions' : option (list TransitionSetting)) (telop : option Telop)
    (data : ProgressEvent.t) :
  reachable m ->
  active_runId (state m) = Some r ->
  ProgressEvent.status data = Some "complete" ->
  truthy (ProgressEvent.videoUrl data) = true ->
  let m' := run m [ Call (Action.finalize transitions' telop);
                    PostDone (fresh m) (Ok ());
                    ConnectDone (fresh m) (Ok ());
                    ReadDone (fresh m) (Chunk [Decoded data]) ] in
  requests m' = requests m ++
                [POST_finalize r (transitions (state m')) telop;
                 GET_progress r (S (fresh m))] ∧
  transitions (state m') = or_else transitions' (transitions (state m)) ∧
  phase (state m') = Phase.complete ∧
  videoUrl (state m') = ProgressEvent.videoUrl data ∧
  progress (state m') = None ∧
  error (state m') = error (state m) ∧
  script (state m') = script (state m) ∧
  images (state m') = images (state m) ∧
  videos (state m') = videos (state m) ∧
  voices (state m') = voices (state m).
Proof.
  intros Hm Hr Hst Hv m'. subst m'.
  repeat split; run_streamed_action m r Hm Hr data Hst; by rewrite ?Hv.
Qed.

(** X10 on [finalize] without transitions from the voices. *)
Lemma X10_finalize_stores_what_it_posts_witness :
  phase (state (run at_voices [ Call (Action.finalize None None);
                                PostDone (fresh at_voices) (Ok ());
                                ConnectDone (fresh at_voices) (Ok ());
                                ReadDone (fresh at_voices)
                                  (Chunk [Decoded (completed "/out/final.mp4")]) ]))
  = Phase.complete.
Proof.
  assert (Hm : reachable at_voices) by (by exists to_voices_review).
  assert (Hr : active_runId (state at_voices) = Some "run-1") by (vm_compute; reflexivity).
  destruct (X10_finalize_stores_what_it_posts at_voices "run-1" None None
              (completed "/out/final.mp4") Hm Hr eq_refl eq_refl) as (_ & _ & H & _).
  exact H.
Defined.

(** ** Starting over: [reset], [start], [restoreFromHistory] *)

(** X11. [reset] leaves the initial Session whatever the Session was,
    and it silences the stream in [abortRef]: whatever that connection
    or its reader delivers afterwards, the Session stays initial.  It
    issues no request, and it leaves the parked calls parked. *)
Theorem X11_reset_discards_and_silences (m : Hook) (t h : nat) (k : Task) :
  abortRef m = Some h ->
  lookup_task t (tasks m) = Some k ->
  task_signal k = Some h ->
  state (reset m) = INITIAL_STATE ∧
  requests (reset m) = requests m ∧
  tasks (reset m) = tasks m ∧
  (forall r, state (step (reset m) (ConnectDone t r)) = INITIAL_STATE) ∧
  (forall r, state (step (reset m) (ReadDone t r)) = INITIAL_STATE).
Proof.
  intros Hh Ht Hk.
  assert (Hin : h ∈ aborted (reset m)).
  { unfold reset, abort_current. rewrite Hh. simpl. by left. }
  assert (Hts : tasks (reset m) = tasks m).
  { unfold reset. simpl. apply tasks_abort_current. }
  assert (Hst : state (reset m) = INITIAL_STATE) by done.
  split; [done|]. split; [unfold reset, abort_current; by rewrite Hh|].
  split; [done|].
  destruct k as [| |signal opts|signal opts|]; try done; simpl in Hk; injection Hk as ->.
  - split; intros r.
    + rewrite (aborted_connect_silent (reset m) t h opts); [done| by rewrite Hts | done].
    + cbn [step]. by rewrite Hts, Ht.
  - split; intros r.
    + cbn [step]. by rewrite Hts, Ht.
    + rewrite (aborted_read_silent (reset m) t h opts); [done| by rewrite Hts | done].
Qed.

(** X11 on a [reset] while the stream of [confirm] is being read. *)
Lemma X11_reset_discards_and_silences_witness :
  state (step (reset (run useGeneration (firstn 5 to_cuts_review)))
              (ReadDone 1 (Chunk [Decoded (images_ready [image1; image2])])))
  = INITIAL_STATE.
Proof.
  eassert (Ht : lookup_task 1 (tasks (run useGeneration (firstn 5 to_cuts_review)))
               = Some (Reading 2 _)) by (vm_compute; reflexivity).
  assert (Hh : abortRef (run useGeneration (firstn 5 to_cuts_review)) = Some 2%nat)
    by (vm_compute; reflexivity).
  destruct (X11_reset_discards_and_silences _ 1%nat 2%nat _ Hh Ht eq_refl)
    as (_ & _ & _ & _ & H).
  apply H.
Defined.

(** What [reset] does not reach: a POST in flight has no signal.  When
    it is accepted after the [reset], its stream opens under a new
    controller and its terminal record moves the Session out of [idle]. *)
Example reset_during_a_post :
  phase (state (run useGeneration
                  (firstn 3 to_cuts_review ++
                   [ Call Action.reset; PostDone 1 (Ok ()); ConnectDone 1 (Ok ());
                     ReadDone 1 (Chunk [Decoded (images_ready [image1; image2])]) ])))
  = Phase.cuts_review.
Proof. vm_compute. reflexivity. Qed.

(** X12. [start] begins from nothing: once the script request is
    answered, the Session holds the new [runId] and script in
    [script_review] and nothing else, whatever it held before.  The
    request is a form upload exactly when reference images are given.
    A refusal leaves an otherwise initial Session in [error]. *)
Theorem X12_start_begins_afresh (m : Hook) (params : StartParams)
    (run_id : option string) (script' : option Script) (status : Z) :
  reachable m ->
  let started := step m (Call (Action.start params)) in
  state started = set_phase Phase.running INITIAL_STATE ∧
  requests started
    = requests m ++ [POST_generate (non_empty (referenceImages params)) params] ∧
  state (step started (StartDone (fresh m) (Ok (run_id, script'))))
    = set_script script' (set_runId run_id (set_phase Phase.script_review INITIAL_STATE)) ∧
  state (step started (StartDone (fresh m) (NotOk status)))
    = set_error (Some (api_error status)) (set_phase Phase.error INITIAL_STATE).
Proof.
  intros Hm started. subst started.
  destruct (reachable_ids m Hm) as (Hids & _).
  assert (Ht : lookup_task (fresh m) (tasks (step m (Call (Action.start params))))
               = Some AwaitStart).
  { simpl. unfold start. simpl. rewrite tasks_abort_current.
    assert (E : fresh (abort_current m) = fresh m).
    { unfold abort_current. by destruct (abortRef m). }
    rewrite E. by apply lookup_task_new. }
  assert (Hs : state (step m (Call (Action.start params)))
               = set_phase Phase.running INITIAL_STATE) by done.
  split; [done|]. split.
  { simpl. unfold start. simpl. unfold abort_current.
    destruct (abortRef m); simpl; by destruct (referenceImages params) as [[|??]|]. }
  remember (step m (Call (Action.start params))) as started eqn:E. clear E.
  split; cbn [step]; rewrite Ht; unfold start_done; simpl; by rewrite Hs.
Qed.

(** X12 on a second [start] from the voices. *)
Lemma X12_start_begins_afresh_witness :
  state (step (step at_voices (Call (Action.start params0)))
              (StartDone (fresh at_voices) (Ok (Some "run-2", Some script_edited))))
  = set_script (Some script_edited)
      (set_runId (Some "run-2") (set_phase Phase.script_review INITIAL_STATE)).
Proof.
  assert (Hm : reachable at_voices) by (by exists to_voices_review).
  destruct (X12_start_begins_afresh at_voices params0 (Some "run-2") (Some script_edited) 0 Hm)
    as (_ & _ & H & _).
  exact H.
Defined.

(** X13. A restore that fails has already discarded the Session: it
    ends in [error] over an otherwise initial Session.  The message is
    [API error: status] on a refusal, the message of the failure
    otherwise, and the restore's own fallback when that is empty; a
    failure named [AbortError] is treated like any other. *)
Theorem X13_failed_restore_discards_the_session (m : Hook) (runId0 : string) :
  reachable m ->
  let restoring := step m (Call (Action.restoreFromHistory runId0)) in
  state restoring = set_phase Phase.running INITIAL_STATE ∧
  requests restoring = requests m ++ [POST_restore runId0] ∧
  abortRef restoring = abortRef m ∧
  aborted restoring = aborted m ∧
  (forall status,
     state (step restoring (RestoreDone (fresh m) (NotOk status)))
       = set_error (Some (api_error status)) (set_phase Phase.error INITIAL_STATE)) ∧
  (forall name message,
     state (step restoring (RestoreDone (fresh m) (Rejected name message)))
       = set_error (Some (or_default (Some message) "復元に失敗しました"))
           (set_phase Phase.error INITIAL_STATE)).
Proof.
  intros Hm restoring. subst restoring.
  destruct (reachable_ids m Hm) as (Hids & _).
  assert (Ht : lookup_task (fresh m) (tasks (step m (Call (Action.restoreFromHistory runId0))))
               = Some AwaitRestore).
  { simpl. by apply lookup_task_new. }
  assert (Hs : state (step m (Call (Action.restoreFromHistory runId0)))
               = set_phase Phase.running INITIAL_STATE) by done.
  split; [done|]. split; [done|]. split; [done|]. split; [done|].
  remember (step m (Call (Action.restoreFromHistory runId0))) as restoring eqn:E. clear E.
  split; intros; cbn [step]; rewrite Ht; unfold restore_done, restore_catch; simpl;
    by rewrite Hs.
Qed.

(** X13 on a restore from the voices that the server refuses. *)
Lemma X13_failed_restore_discards_the_session_witness :
  state (step (step at_voices (Call (Action.restoreFromHistory "run-0")))
              (RestoreDone (fresh at_voices) (NotOk 404)))
  = set_error (Some (api_error 404)) (set_phase Phase.error INITIAL_STATE).
Proof.
  assert (Hm : reachable at_voices) by (by exists to_voices_review).
  destruct (X13_failed_restore_discards_the_session at_voices "run-0" Hm)
    as (_ & _ & _ & _ & H & _).
  apply H.
Defined.

(** ** Going back *)

Lemma state_abort_current (m : Hook) : state (abort_current m) = state m.
Proof. unfold abort_current. by destruct (abortRef m). Qed.

(** X14. Going back to the script and confirming it, reworded and
    retimed at will but with every [image_prompt] and id as it was,
    costs nothing: no request goes out, the images stay, and the page
    is back on the cuts.  This holds when the scene ids are distinct
    and the baseline is that script or not set yet. *)
Theorem X14_back_and_confirm_is_free (m : Hook) (r : string) (sc : Script)
    (imgs : list CutImage.t) (title' : string) (retouch : ScriptScene -> ScriptScene) :
  active_runId (state m) = Some r ->
  images (state m) = Some imgs ->
  script (state m) = Some sc ->
  originalScript (state m) = None ∨ originalScript (state m) = Some sc ->
  NoDup (scene_id <$> scenes sc) ->
  (forall e, scene_id (retouch e) = scene_id e ∧
             image_prompt (retouch e) = image_prompt e) ->
  let edited := {| title := title'; scenes := retouch <$> scenes sc |} in
  let m' := confirm edited (goToScriptReview m) in
  requests m' = requests m ∧
  tasks m' = tasks m ∧
  phase (state m') = Phase.cuts_review ∧
  script (state m') = Some edited ∧
  originalScript (state m') = Some sc ∧
  images (state m') = Some imgs ∧
  videos (state m') = videos (state m) ∧
  voices (state m') = voices (state m).
Proof.
  intros Hr Hi Hs Ho Hnd Hre edited m'.
  assert (Hb : originalScript (state (goToScriptReview m)) = Some sc).
  { unfold goToScriptReview. simpl. rewrite state_abort_current, Hi, Hs.
    by destruct Ho as [-> | ->]. }
  assert (Hd : changedSceneIds (state (goToScriptReview m)) edited = Some []).
  { unfold changedSceneIds. rewrite Hb.
    assert (E : images (state (goToScriptReview m)) = Some imgs).
    { unfold goToScriptReview. simpl. by rewrite state_abort_current. }
    rewrite E. f_equal. subst edited. simpl.
    rewrite diff_ignores_text_and_duration by done.
    apply (unchanged_prompts_diff sc sc). by apply unchanged_prompts_self. }
  assert (Ha : active_runId (state (goToScriptReview m)) = Some r).
  { unfold goToScriptReview, active_runId. simpl. rewrite state_abort_current. exact Hr. }
  subst m'. unfold confirm. rewrite Ha, Hd.
  unfold goToScriptReview. simpl.
  rewrite !state_abort_current, tasks_abort_current, Hi, Hs.
  unfold abort_current. destruct (abortRef m); simpl; repeat split; try done;
    by destruct Ho as [-> | ->].
Qed.

(** X14 on [script0], gone back to from the voices and confirmed with
    new texts. *)
Lemma X14_back_and_confirm_is_free_witness :
  requests (confirm {| title := "renamed";
                       scenes := (fun e => {| scene_id := scene_id e; text := "cut";
                                              image_prompt := image_prompt e;
                                              duration_sec := 1 |}) <$> scenes script0 |}
              (goToScriptReview at_voices))
  = requests at_voices.
Proof.
  assert (Hr : active_runId (state at_voices) = Some "run-1") by (vm_compute; reflexivity).
  assert (Hi : images (state at_voices) = Some [image1; image2]) by (vm_compute; reflexivity).
  assert (Hs : script (state at_voices) = Some script0) by (vm_compute; reflexivity).
  assert (Ho : originalScript (state at_voices) = None ∨
               originalScript (state at_voices) = Some script0)
    by (right; vm_compute; reflexivity).
  assert (Hnd : NoDup (scene_id <$> scenes script0)).
  { vm_compute. repeat constructor; intros H; inversion H; subst;
      repeat match goal with H : _ ∈ _ |- _ => inversion H; clear H; subst end. }
  destruct (X14_back_and_confirm_is_free at_voices "run-1" script0 [image1; image2] "renamed"
              (fun e => {| scene_id := scene_id e; text := "cut";
                           image_prompt := image_prompt e; duration_sec := 1 |})
              Hr Hi Hs Ho Hnd (fun e => conj eq_refl eq_refl)) as (H & _).
  exact H.
Defined.

(** X15. The five go-to actions lose nothing: they set the phase,
    issue no request, park and drop no call, and leave [runId], script,
    images, videos, voices, transitions, [videoUrl] and [error] alone;
    going to the same place twice is going there once. *)
Theorem X15_navigation_loses_nothing (m : Hook) (a : Action.t) (p : Phase.t) :
  navigation a = Some p ->
  phase (state (call a m)) = p ∧
  requests (call a m) = requests m ∧
  tasks (call a m) = tasks m ∧
  runId (state (call a m)) = runId (state m) ∧
  script (state (call a m)) = script (state m) ∧
  images (state (call a m)) = images (state m) ∧
  videos (state (call a m)) = videos (state m) ∧
  voices (state (call a m)) = voices (state m) ∧
  transitions (state (call a m)) = transitions (state m) ∧
  videoUrl (state (call a m)) = videoUrl (state m) ∧
  error (state (call a m)) = error (state m) ∧
  state (call a (call a m)) = state (call a m).
Proof.
  intros Ha.
  assert (Hq : requests (abort_current m) = requests m)
    by (unfold abort_current; by destruct (abortRef m)).
  destruct a; try done; injection Ha as <-; simpl;
    unfold goToTransitionEdit, goToScriptReview, goToCutsReview, goToVideosReview,
      goToVoicesReview; simpl;
    rewrite ?state_abort_current, ?tasks_abort_current, ?Hq;
    repeat split; try done;
    simpl; rewrite ?state_abort_current; try done.
  destruct (images (state m)); [|reflexivity].
  destruct (originalScript (state m)); [reflexivity|].
  destruct (script (state m)); reflexivity.
Qed.

(** X15 on the way back to the cuts from the voices. *)
Lemma X15_navigation_loses_nothing_witness :
  phase (state (call Action.goToCutsReview at_voices)) = Phase.cuts_review ∧
  voices (state (call Action.goToCutsReview at_voices)) = voices (state at_voices).
Proof.
  destruct (X15_navigation_loses_nothing at_voices Action.goToCutsReview Phase.cuts_review
              eq_refl) as (H1 & _ & _ & _ & _ & _ & _ & H2 & _).
  split; [exact H1 | exact H2].
Defined.

(** ** Where the page stops *)

Lemma page_driven_one_call (es : list Event) :
  page_driven useGeneration es -> one_call_at_most (run useGeneration es).
Proof. intros H. apply page_run; [by left | done]. Qed.

Lemma no_task_no_effect (m : Hook) (e : Event) :
  tasks m = [] -> (forall a, e ≠ Call a) -> step m e = m.
Proof.
  intros Ht He. destruct e as [a|t r|t r|t r|t r|t r]; [by destruct (He a)|..];
    simpl; by rewrite Ht.
Qed.

(** X16. In a run driven through the page, [error] is final: from a
    Session in [error] the only thing that happens is [reset], which
    gives the initial Session; no answer of the network and no other
    control changes anything. *)
Theorem X16_error_ends_the_run (es : list Event) (e : Event) :
  page_driven useGeneration es ->
  phase (state (run useGeneration es)) = Phase.error ->
  page_allows (run useGeneration es) e ->
  step (run useGeneration es) e = run useGeneration es ∨
  (e = Call Action.reset ∧ state (step (run useGeneration es) e) = INITIAL_STATE).
Proof.
  intros Hp He Ha. pose proof (page_driven_one_call es Hp) as Hj.
  set (m := run useGeneration es) in *.
  assert (Ht : tasks m = []).
  { destruct Hj as [?|[Hb _]]; [done|]. by rewrite He in Hb. }
  destruct e as [a|t r|t r|t r|t r|t r];
    try (left; by apply no_task_no_effect).
  right. unfold page_allows, offered in Ha. rewrite He in Ha.
  destruct a; try done.
Qed.

(** X16 on a run whose script request is refused. *)
Lemma X16_error_ends_the_run_witness :
  step (run useGeneration [Call (Action.start params0); StartDone 0 (NotOk 500)])
       (PostDone 0 (Ok ()))
  = run useGeneration [Call (Action.start params0); StartDone 0 (NotOk 500)] ∨
  (PostDone 0 (Ok ()) = Call Action.reset ∧
   state (step (run useGeneration [Call (Action.start params0); StartDone 0 (NotOk 500)])
               (PostDone 0 (Ok ()))) = INITIAL_STATE).
Proof.
  apply (X16_error_ends_the_run [Call (Action.start params0); StartDone 0 (NotOk 500)]).
  - vm_compute. repeat split.
  - vm_compute. reflexivity.
  - exact I.
Defined.

(** X17. Two of the places a page-driven run cannot leave, a list that
    is not meant to be complete.  A stream that ends without a terminal
    record leaves the progress display up with no call parked; and a
    Session in [complete] without a [videoUrl] (what the restore of an
    empty bundle gives) renders nothing.  In both, nothing the page
    offers and nothing the network does changes the hook; the control
    to start over, which would, is not on offer. *)
Theorem X17_the_page_can_get_stuck (es : list Event) (e : Event) :
  page_driven useGeneration es ->
  (busy (phase (state (run useGeneration es))) = true ∧ tasks (run useGeneration es) = []) ∨
  (phase (state (run useGeneration es)) = Phase.complete ∧
   truthy (videoUrl (state (run useGeneration es))) = false) ->
  page_allows (run useGeneration es) e ->
  step (run useGeneration es) e = run useGeneration es.
Proof.
  intros Hp Hs Ha. pose proof (page_driven_one_call es Hp) as Hj.
  set (m := run useGeneration es) in *.
  assert (Ht : tasks m = []).
  { destruct Hs as [[_ ?]|[Hc _]]; [done|].
    destruct Hj as [?|[Hb _]]; [done|]. by rewrite Hc in Hb. }
  destruct e as [a|t r|t r|t r|t r|t r]; try by apply no_task_no_effect.
  exfalso. unfold page_allows, offered in Ha.
  destruct Hs as [[Hb _]|[Hc Hv]].
  - destruct (phase (state m)); try done; by destruct a.
  - rewrite Hc, Hv in Ha. by destruct a.
Qed.

(** X17 on a stream that runs dry: the images that arrive later find
    nobody. *)
Lemma X17_the_page_can_get_stuck_witness :
  step (run useGeneration stream_runs_dry)
       (ReadDone 1 (Chunk [Decoded (images_ready [image1; image2])]))
  = run useGeneration stream_runs_dry.
Proof.
  apply (X17_the_page_can_get_stuck stream_runs_dry).
  - vm_compute. repeat split.
  - left. vm_compute. split; reflexivity.
  - exact I.
Defined.

(** ** The selection of scenes to regenerate *)

Lemma or_default_empty (x : option string) :
  or_default x EmptyString = default EmptyString x.
Proof.
  destruct x as [s|]; simpl; [|done]. by destruct (String.eqb_spec s EmptyString).
Qed.

(** The instruction map, key by key. *)
Lemma sceneInstructions_lookup (st : SceneSelection.State) (id : Z) :
  (id ∈ SceneSelection.selectedScenes st ->
   SceneSelection.sceneInstructions st !! id
   = Some (default EmptyString (SceneSelection.scenePrompts st !! id))) ∧
  (id ∉ SceneSelection.selectedScenes st ->
   SceneSelection.sceneInstructions st !! id = None).
Proof.
  unfold SceneSelection.sceneInstructions.
  apply (set_fold_ind_L
    (fun (acc : gmap Z string) (X : gset Z) =>
       (id ∈ X -> acc !! id
                  = Some (default EmptyString (SceneSelection.scenePrompts st !! id))) ∧
       (id ∉ X -> acc !! id = None))).
  - split; [set_solver|]. intros _. apply lookup_empty.
  - intros x X acc Hx [IH1 IH2].
    destruct (decide (x = id)) as [->|Hne].
    + split; [|set_solver]. intros _. by rewrite lookup_insert_eq, or_default_empty.
    + rewrite lookup_insert_ne by done.
      split; intros Hin.
      * apply IH1. apply elem_of_union in Hin as [Hin|Hin]; [|done].
        apply elem_of_singleton in Hin. congruence.
      * apply IH2. intros Hx'. apply Hin, elem_of_union. by right.
Qed.

Lemma sceneInstructions_dom (st : SceneSelection.State) :
  dom (SceneSelection.sceneInstructions st) = SceneSelection.selectedScenes st.
Proof.
  apply set_eq. intros id. rewrite elem_of_dom.
  destruct (sceneInstructions_lookup st id) as [H1 H2].
  destruct (decide (id ∈ SceneSelection.selectedScenes st)) as [Hin|Hin]; split; try done.
  - intros _. rewrite (H1 Hin). by eexists.
  - rewrite (H2 Hin). by intros [? ?].
Qed.

Lemma handleRegenerateSelected_none (st : SceneSelection.State) :
  SceneSelection.selectedScenes st = ∅ ->
  SceneSelection.handleRegenerateSelected st = (None, st).
Proof.
  intros H. unfold SceneSelection.handleRegenerateSelected. rewrite H, size_empty.
  destruct (decide (0 < 0)%nat); [lia|done].
Qed.

Lemma handleRegenerateSelected_some (st : SceneSelection.State) :
  SceneSelection.selectedScenes st ≠ ∅ ->
  SceneSelection.handleRegenerateSelected st
  = (Some (SceneSelection.sceneInstructions st), SceneSelection.init).
Proof.
  intros H. unfold SceneSelection.handleRegenerateSelected.
  destruct (decide (0 < size (SceneSelection.selectedScenes st))%nat) as [|Hn]; [done|].
  exfalso. apply H. apply leibniz_equiv, size_empty_inv. lia.
Qed.

(** X18. The regenerate handler sends a map whose keys are exactly the
    ticked scenes, each with the prompt typed for it, or the empty
    string where none was typed, and then clears ticks and prompts.
    With nothing ticked it sends nothing and clears nothing. *)
Theorem X18_instructions_cover_the_selection (st : SceneSelection.State) :
  (SceneSelection.selectedScenes st = ∅ ->
   SceneSelection.handleRegenerateSelected st = (None, st)) ∧
  (SceneSelection.selectedScenes st ≠ ∅ ->
   SceneSelection.handleRegenerateSelected st
     = (Some (SceneSelection.sceneInstructions st), SceneSelection.init)) ∧
  dom (SceneSelection.sceneInstructions st) = SceneSelection.selectedScenes st ∧
  (forall id, id ∈ SceneSelection.selectedScenes st ->
     SceneSelection.sceneInstructions st !! id
       = Some (default EmptyString (SceneSelection.scenePrompts st !! id))).
Proof.
  split; [apply handleRegenerateSelected_none|].
  split; [apply handleRegenerateSelected_some|].
  split; [apply sceneInstructions_dom|].
  intros id Hid. by apply sceneInstructions_lookup.
Qed.

(** Prompts are only ever held for ticked scenes. *)
Lemma prompts_of_selected (inputs : list SceneSelection.Input) (st : SceneSelection.State) :
  dom (SceneSelection.scenePrompts st) ⊆ SceneSelection.selectedScenes st ->
  SceneSelection.all_allowed st inputs ->
  dom (SceneSelection.scenePrompts (foldl SceneSelection.input st inputs))
    ⊆ SceneSelection.selectedScenes (foldl SceneSelection.input st inputs).
Proof.
  revert st. induction inputs as [|i rest IH]; intros st Hd Ha; [done|].
  destruct Ha as [Hi Ha]. simpl. apply IH; [|done].
  destruct i as [id|id p]; simpl in *.
  - unfold SceneSelection.toggleSceneSelection.
    destruct (decide (id ∈ SceneSelection.selectedScenes st)); simpl.
    + rewrite dom_delete_L. intros z Hz.
      apply elem_of_difference in Hz as [Hz1 Hz2].
      apply elem_of_difference. split; [by apply Hd|done].
    + set_solver.
  - rewrite dom_insert_L. intros z Hz.
    apply elem_of_union in Hz as [Hz|Hz]; [|by apply Hd].
    apply elem_of_singleton in Hz. by subst.
Qed.

(** X19. Whatever the user ticks, unticks and types, in any order, the
    map that would be sent holds every prompt the component still keeps,
    unaltered, and no entry for a scene that is not ticked: unticking a
    scene is what throws its prompt away. *)
Theorem X19_typed_prompts_are_sent (inputs : list SceneSelection.Input) :
  SceneSelection.all_allowed SceneSelection.init inputs ->
  let st := foldl SceneSelection.input SceneSelection.init inputs in
  (forall id p, SceneSelection.scenePrompts st !! id = Some p ->
                SceneSelection.sceneInstructions st !! id = Some p) ∧
  (forall id, id ∉ SceneSelection.selectedScenes st ->
              SceneSelection.sceneInstructions st !! id = None
              ∧ SceneSelection.scenePrompts st !! id = None).
Proof.
  intros Ha st.
  assert (Hd : dom (SceneSelection.scenePrompts st) ⊆ SceneSelection.selectedScenes st).
  { apply prompts_of_selected; [|done]. simpl. set_solver. }
  split.
  - intros id p Hp.
    destruct (sceneInstructions_lookup st id) as [H1 _].
    rewrite H1, Hp; [done|]. apply Hd, elem_of_dom. by eexists.
  - intros id Hid. split; [by apply sceneInstructions_lookup|].
    apply not_elem_of_dom. set_solver.
Qed.

Lemma X19_typed_prompts_are_sent_witness :
  SceneSelection.sceneInstructions
    (foldl SceneSelection.input SceneSelection.init
       [SceneSelection.Toggle 1; SceneSelection.Type_prompt 1 "brighter";
        SceneSelection.Toggle 2]) !! 1 = Some "brighter".
Proof.
  assert (Ha : SceneSelection.all_allowed SceneSelection.init
                 [SceneSelection.Toggle 1; SceneSelection.Type_prompt 1 "brighter";
                  SceneSelection.Toggle 2]).
  { simpl. repeat split. }
  apply (X19_typed_prompts_are_sent _ Ha). vm_compute. reflexivity.
Defined.

(** X20. The regenerate button of the cuts preview, while [Home] shows
    the preview.  With nothing ticked, hook and preview stay as they
    are.  With scenes ticked and a run under way, the hook sends one
    more request, the POST to regenerate-images of that run with the map
    of the ticked scenes, and goes to [running]: [Home] takes the
    preview off the screen, and its display order, ticks and prompts are
    gone with it.  With scenes ticked and no run, nothing is sent, the
    preview stays, and its ticks and prompts are cleared all the same
    while the display order is kept. *)
Theorem X20_regenerate_button (pg : Page) :
  is_Some (mount (hook pg)) ->
  (CutsPreview.selectedScenes (cuts pg) = ∅ ->
   click_regenerate pg = (hook pg, Some (cuts pg))) ∧
  (CutsPreview.selectedScenes (cuts pg) ≠ ∅ ->
   match active_runId (state (hook pg)) with
   | Some r =>
       (exists instructions,
          requests (click_regenerate pg).1
            = requests (hook pg) ++ [POST_regenerate_images r instructions] ∧
          dom instructions = CutsPreview.selectedScenes (cuts pg) ∧
          forall id, id ∈ CutsPreview.selectedScenes (cuts pg) ->
            instructions !! id
              = Some (default EmptyString (CutsPreview.scenePrompts (cuts pg) !! id))) ∧
       phase (state (click_regenerate pg).1) = Phase.running ∧
       (click_regenerate pg).2 = None
   | None =>
       (click_regenerate pg).1 = hook pg ∧
       exists st, (click_regenerate pg).2 = Some st ∧
                  CutsPreview.imageOrder st = CutsPreview.imageOrder (cuts pg) ∧
                  CutsPreview.selectedScenes st = ∅ ∧
                  CutsPreview.scenePrompts st = ∅
   end).
Proof.
  intros [pg0 Hm]. split.
  - intros H. unfold click_regenerate.
    by rewrite (handleRegenerateSelected_none (cuts_selection (cuts pg)) H).
  - intros H. unfold click_regenerate.
    rewrite (handleRegenerateSelected_some (cuts_selection (cuts pg)) H).
    unfold regenerateImage.
    destruct (active_runId (state (hook pg))) as [r|]; cbn [fst snd].
    + split; [|split; [reflexivity|reflexivity]].
      eexists. split; [reflexivity|].
      split; [exact (sceneInstructions_dom (cuts_selection (cuts pg)))|].
      intros id Hid. by apply (sceneInstructions_lookup (cuts_selection (cuts pg))).
    + split; [done|]. rewrite Hm. eexists. split; [reflexivity|]. done.
Qed.

(** X20 on the cuts of [script0] with the first scene ticked. *)
Lemma X20_regenerate_button_witness :
  let pg := {| hook := at_cuts;
               cuts := {| CutsPreview.imageOrder := [Some 1; Some 2];
                          CutsPreview.selectedScenes := {[1]};
                          CutsPreview.scenePrompts := ∅ |} |} in
  phase (state (click_regenerate pg).1) = Phase.running ∧
  (click_regenerate pg).2 = None.
Proof.
  intros pg.
  assert (Hm : is_Some (mount (hook pg))).
  { eexists. vm_compute. reflexivity. }
  assert (Hne : CutsPreview.selectedScenes (cuts pg) ≠ ∅).
  { simpl. apply non_empty_singleton_L. }
  assert (Hr : active_runId (state (hook pg)) = Some "run-1")
    by (vm_compute; reflexivity).
  pose proof (proj2 (X20_regenerate_button pg Hm) Hne) as H.
  rewrite Hr in H. exact (proj2 H).
Defined.

(** ** The display order of the cuts preview *)

(** An in-range swap, written with list updates. *)
Lemma swapImages_in_range (index : nat) (direction : CutsPreview.Direction)
    (st : CutsPreview.State) :
  in_range (length (CutsPreview.imageOrder st)) (index, direction) ->
  exists target a b,
    Z.of_nat target = Z.of_nat index + CutsPreview.offset direction ∧
    CutsPreview.imageOrder st !! index = Some a ∧
    CutsPreview.imageOrder st !! target = Some b ∧
    CutsPreview.imageOrder (CutsPreview.swapImages index direction st)
      = <[target := a]> (<[index := b]> (CutsPreview.imageOrder st)).
Proof.
  unfold in_range. simpl. intros [Hi Ht]. unfold CutsPreview.swapImages.
  set (prev := CutsPreview.imageOrder st) in *.
  destruct (decide _) as [Hout|_]; [lia|]. simpl.
  set (target := Z.to_nat (Z.of_nat index + CutsPreview.offset direction)).
  assert (Htl : (target < length prev)%nat) by lia.
  exists target, (CutsPreview.js_get prev index), (CutsPreview.js_get prev target).
  split; [lia|]. split; [by apply js_get_in_range|]. split; [by apply js_get_in_range|].
  rewrite (js_set_in_range prev index) by done.
  rewrite js_set_in_range by (rewrite length_insert; lia). done.
Qed.

Lemma swap_twice {A : Type} (l : list A) (i t : nat) (a b : A) :
  i ≠ t -> l !! i = Some a -> l !! t = Some b ->
  <[t := b]> (<[i := a]> (<[t := a]> (<[i := b]> l))) = l.
Proof.
  intros Hne Ha Hb. apply list_eq. intros k.
  assert (Hi : (i < length l)%nat) by (apply lookup_lt_is_Some; by eexists).
  assert (Ht : (t < length l)%nat) by (apply lookup_lt_is_Some; by eexists).
  destruct (decide (k = t)) as [->|Hkt].
  - rewrite list_lookup_insert_eq by (rewrite !length_insert; lia). done.
  - rewrite list_lookup_insert_ne by done.
    destruct (decide (k = i)) as [->|Hki].
    + rewrite list_lookup_insert_eq by (rewrite !length_insert; lia). done.
    + by rewrite !list_lookup_insert_ne by done.
Qed.

(** X21. Pressing the same move button of the same row twice puts the
    display order back: an in-range swap is its own inverse, so the
    last swap can always be undone. *)
Theorem X21_swap_twice_restores (index : nat) (direction : CutsPreview.Direction)
    (st : CutsPreview.State) :
  in_range (length (CutsPreview.imageOrder st)) (index, direction) ->
  CutsPreview.swapImages index direction (CutsPreview.swapImages index direction st) = st.
Proof.
  intros Hr.
  destruct (swapImages_in_range index direction st Hr) as (t & a & b & Ht & Ha & Hb & He).
  assert (Hne : index ≠ t) by (destruct direction; simpl in Ht; lia).
  assert (Hr' : in_range (length (CutsPreview.imageOrder
                                    (CutsPreview.swapImages index direction st)))
                         (index, direction)).
  { rewrite He, !length_insert. done. }
  destruct (swapImages_in_range index direction _ Hr')
    as (t' & a' & b' & Ht' & Ha' & Hb' & He').
  assert (t' = t) as -> by lia.
  rewrite He in Ha', Hb'.
  assert (Hi : (index < length (CutsPreview.imageOrder st))%nat)
    by (apply lookup_lt_is_Some; by eexists).
  assert (Htl : (t < length (CutsPreview.imageOrder st))%nat)
    by (apply lookup_lt_is_Some; by eexists).
  rewrite list_lookup_insert_ne in Ha' by done.
  rewrite list_lookup_insert_eq in Ha' by done.
  rewrite list_lookup_insert_eq in Hb' by (rewrite length_insert; lia).
  injection Ha' as <-. injection Hb' as <-.
  rewrite He in He'. rewrite (swap_twice _ _ _ _ _ Hne Ha Hb) in He'.
  destruct (swapImages_perm index direction st Hr) as (_ & Hs & Hp).
  destruct (swapImages_perm index direction _ Hr') as (_ & Hs' & Hp').
  rewrite Hs in Hs'. rewrite Hp in Hp'.
  destruct (CutsPreview.swapImages index direction
              (CutsPreview.swapImages index direction st)), st; simpl in *.
  by subst.
Qed.

Lemma X21_swap_twice_restores_witness :
  let st := CutsPreview.init {| CutsPreview.script := script0;
                                CutsPreview.images := [image1; image2] |} in
  CutsPreview.swapImages 0 CutsPreview.down (CutsPreview.swapImages 0 CutsPreview.down st)
  = st.
Proof.
  intros st. apply X21_swap_twice_restores. unfold in_range. simpl. lia.
Defined.

(** X22. The guard of [swapImages] tests the target only.  For the row
    just past the last entry of the order (a script with more scenes
    than images has such a row) the up button passes the guard: the
    order comes out one longer, with [undefined] where the last entry
    was and the last entry after it.  Rows further down do nothing. *)
Theorem X22_swap_from_past_the_end (st : CutsPreview.State) (pre : list (option Z))
    (x : option Z) (index : nat) :
  CutsPreview.imageOrder st = pre ++ [x] ->
  (length (CutsPreview.imageOrder st) <= index)%nat ->
  CutsPreview.imageOrder (CutsPreview.swapImages index CutsPreview.up st)
  = if decide (index = length (CutsPreview.imageOrder st))
    then pre ++ [None; x]
    else CutsPreview.imageOrder st.
Proof.
  intros Ho Hi. unfold CutsPreview.swapImages.
  destruct (decide (index = length (CutsPreview.imageOrder st))) as [->|Hne].
  - rewrite Ho, length_app. simpl.
    destruct (decide _) as [Hout|_]; [lia|]. simpl.
    replace (Z.to_nat (Z.of_nat (length pre + 1) + -1)) with (length pre) by lia.
    unfold CutsPreview.js_get.
    rewrite (lookup_ge_None_2 (pre ++ [x]) (length pre + 1))
      by (rewrite length_app; simpl; lia).
    rewrite (list_lookup_middle pre [] x (length pre)) by done.
    unfold CutsPreview.js_set at 2.
    destruct (decide _) as [Hlt|_]; [rewrite length_app in Hlt; simpl in Hlt; lia|].
    rewrite length_app. simpl. replace (length pre + 1 - (length pre + 1))%nat with 0%nat by lia.
    simpl. unfold CutsPreview.js_set.
    destruct (decide _) as [_|Hge]; [|rewrite !length_app in Hge; simpl in Hge; lia].
    rewrite <- (assoc_L (++)). simpl.
    rewrite insert_app_r_alt by done. by rewrite Nat.sub_diag.
  - destruct (decide _) as [_|Hin]; [done|]. simpl in Hin. lia.
Qed.

Lemma X22_swap_from_past_the_end_witness :
  CutsPreview.imageOrder
    (CutsPreview.swapImages 2 CutsPreview.up
       (CutsPreview.init {| CutsPreview.script := script_edited;
                            CutsPreview.images := [image1; image2] |}))
  = [Some 1; None; Some 2].
Proof.
  apply (X22_swap_from_past_the_end
           (CutsPreview.init {| CutsPreview.script := script_edited;
                                CutsPreview.images := [image1; image2] |})
           [Some 1] (Some 2) 2%nat).
  - reflexivity.
  - simpl. lia.
Defined.

(** ** What the rows of the cuts preview show *)

Lemma imageMap_foldl_other (imgs : list CutImage.t) (acc : gmap Z string) (id : Z) :
  id ∉ CutImage.scene_id <$> imgs ->
  foldl (fun acc img => <[CutImage.scene_id img := CutImage.imageUrl img]> acc) acc imgs !! id
  = acc !! id.
Proof.
  revert acc. induction imgs as [|img rest IH]; intros acc Hn; [done|].
  simpl in *. apply not_elem_of_cons in Hn as [Hne Hn].
  rewrite IH by done. by rewrite lookup_insert_ne.
Qed.

(** With distinct ids, every image is found under its own id. *)
Lemma imageMap_lookup (imgs : list CutImage.t) (img : CutImage.t) :
  NoDup (CutImage.scene_id <$> imgs) ->
  img ∈ imgs ->
  imageMap imgs !! CutImage.scene_id img = Some (CutImage.imageUrl img).
Proof.
  unfold imageMap. generalize (∅ : gmap Z string).
  induction imgs as [|x rest IH]; intros acc Hnd Hin; [by apply elem_of_nil in Hin|].
  simpl in *. apply NoDup_cons in Hnd as [Hx Hnd].
  apply elem_of_cons in Hin as [->|Hin].
  - rewrite imageMap_foldl_other by done. by rewrite lookup_insert_eq.
  - by apply IH.
Qed.

(** The rows, read off the order. *)
Lemma rows_of_order (imgs : list CutImage.t) (st : CutsPreview.State) :
  row_image imgs st <$> seq 0 (length (CutsPreview.imageOrder st))
  = (fun o : option Z => o ≫= (fun id => imageMap imgs !! id)) <$> CutsPreview.imageOrder st.
Proof.
  apply list_eq. intros k. rewrite !list_lookup_fmap.
  destruct (decide (k < length (CutsPreview.imageOrder st))%nat) as [Hk|Hk].
  - rewrite lookup_seq_lt by done. simpl.
    unfold row_image. rewrite (js_get_in_range _ _ Hk). simpl.
    by destruct (CutsPreview.js_get (CutsPreview.imageOrder st) k).
  - rewrite lookup_seq_ge by lia. by rewrite lookup_ge_None_2 by lia.
Qed.

(** The rows of a script are the rows of its positions. *)
Lemma rows_of_scenes {A : Type} (f : nat -> option string) (l : list A) :
  imap (fun index _ => f index) l = f <$> seq 0 (length l).
Proof.
  apply list_eq. intros k. rewrite list_lookup_imap, list_lookup_fmap.
  destruct (l !! k) as [x|] eqn:Hk; simpl.
  - rewrite lookup_seq_lt; [done|]. apply lookup_lt_is_Some. by eexists.
  - rewrite lookup_seq_ge; [done|]. by apply lookup_ge_None.
Qed.

(** X23. When the script has as many scenes as there are images and
    the images have distinct scene ids, then after any number of
    in-range swaps the rows of the preview, one per scene of the script,
    show every image exactly once: the [src] values of the rows are a
    rearrangement of the image urls, none missing, none undefined, none
    twice. *)
Theorem X23_rows_show_every_image_once (m : Hook) (pg : Page) (sc : Script)
    (imgs : list CutImage.t) (clicks : list (nat * CutsPreview.Direction)) :
  mount m = Some pg ->
  script (state m) = Some sc ->
  images (state m) = Some imgs ->
  length (scenes sc) = length imgs ->
  NoDup (CutImage.scene_id <$> imgs) ->
  Forall (in_range (length imgs)) clicks ->
  Permutation
    (rows {| CutsPreview.script := sc; CutsPreview.images := imgs |}
          (cuts (fold_left click_swap clicks pg)))
    ((fun img => Some (CutImage.imageUrl img)) <$> imgs).
Proof.
  intros Hm Hs Hi Hlen Hnd Hc. unfold mount in Hm. rewrite Hi, Hs in Hm.
  destruct (phase (state m)); try done.
  injection Hm as <-.
  destruct (clicks_perm clicks
              {| hook := m;
                 cuts := CutsPreview.init
                           {| CutsPreview.script := sc; CutsPreview.images := imgs |} |})
    as [_ Hp].
  - simpl. by rewrite length_fmap.
  - simpl in Hp.
    set (pg' := fold_left click_swap clicks _) in *.
    assert (Hl : length (CutsPreview.imageOrder (cuts pg')) = length (scenes sc)).
    { rewrite (Permutation_length Hp), length_fmap. done. }
    unfold rows. simpl. rewrite rows_of_scenes, <- Hl, rows_of_order, Hp, <- list_fmap_compose.
    apply reflexive_eq.
    apply list_fmap_ext. intros i img Himg. simpl.
    apply imageMap_lookup; [done|]. by apply (list_elem_of_lookup_2 _ i).
Qed.

Lemma X23_rows_show_every_image_once_witness :
  exists pg,
    mount at_cuts = Some pg ∧
    Permutation
      (rows {| CutsPreview.script := script0; CutsPreview.images := [image1; image2] |}
            (cuts (fold_left click_swap [(0%nat, CutsPreview.down)] pg)))
      [Some (CutImage.imageUrl image1); Some (CutImage.imageUrl image2)].
Proof.
  exists {| hook := at_cuts;
            cuts := CutsPreview.init {| CutsPreview.script := script0;
                                        CutsPreview.images := [image1; image2] |} |}.
  assert (Hm : mount at_cuts
               = Some {| hook := at_cuts;
                         cuts := CutsPreview.init
                                   {| CutsPreview.script := script0;
                                      CutsPreview.images := [image1; image2] |} |})
    by (vm_compute; reflexivity).
  assert (Hs : script (state at_cuts) = Some script0) by (vm_compute; reflexivity).
  assert (Hi : images (state at_cuts) = Some [image1; image2])
    by (vm_compute; reflexivity).
  assert (Hlen : length (scenes script0) = length [image1; image2]) by reflexivity.
  assert (Hnd : NoDup (CutImage.scene_id <$> [image1; image2])).
  { simpl. apply NoDup_cons. split; [|apply NoDup_singleton].
    intros H. apply list_elem_of_singleton in H. discriminate H. }
  assert (Hc : Forall (in_range (length [image1; image2])) [(0%nat, CutsPreview.down)])
    by (repeat constructor; simpl; lia).
  split; [exact Hm|].
  exact (X23_rows_show_every_image_once _ _ _ _ _ Hm Hs Hi Hlen Hnd Hc).
Defined.

(** With more scenes than images the surplus row has no [src]. *)
Example row_without_image :
  rows {| CutsPreview.script := script_edited; CutsPreview.images := [image1; image2] |}
       (CutsPreview.init {| CutsPreview.script := script_edited;
                            CutsPreview.images := [image1; image2] |})
  = [Some (CutImage.imageUrl image1); Some (CutImage.imageUrl image2); None].
Proof. vm_compute. reflexivity. Qed.

(** X24. The compose button after any number of in-range swaps: with a
    run under way it adds exactly one request, the POST to compose of
    that run, whose scene order is the order on display, a
    rearrangement of the scene ids of the images with none missing and
    none [null]. *)
Theorem X24_compose_sends_the_displayed_order (m : Hook) (pg : Page)
    (imgs : list CutImage.t) (clicks : list (nat * CutsPreview.Direction)) (r : string) :
  mount m = Some pg ->
  images (state m) = Some imgs ->
  active_runId (state m) = Some r ->
  Forall (in_range (length imgs)) clicks ->
  let shown := CutsPreview.imageOrder (cuts (fold_left click_swap clicks pg)) in
  requests (hook (click_compose (fold_left click_swap clicks pg)))
    = requests m ++ [POST_compose r shown] ∧
  Permutation shown ((fun img => Some (CutImage.scene_id img)) <$> imgs).
Proof.
  intros Hm Hi Hr Hc shown. unfold mount in Hm. rewrite Hi in Hm.
  destruct (phase (state m)) eqn:Hph; try done.
  destruct (script (state m)) as [sc|]; [|done].
  injection Hm as <-.
  destruct (clicks_perm clicks
              {| hook := m;
                 cuts := CutsPreview.init
                           {| CutsPreview.script := sc; CutsPreview.images := imgs |} |})
    as [Hh Hp].
  - simpl. by rewrite length_fmap.
  - simpl in Hh, Hp. split; [|exact Hp].
    unfold click_compose. simpl. rewrite Hh. unfold compose. by rewrite Hr.
Qed.

Lemma X24_compose_sends_the_displayed_order_witness :
  exists pg,
    mount at_cuts = Some pg ∧
    requests (hook (click_compose (fold_left click_swap [(0%nat, CutsPreview.down)] pg)))
      = requests at_cuts
        ++ [POST_compose "run-1"
              (CutsPreview.imageOrder
                 (cuts (fold_left click_swap [(0%nat, CutsPreview.down)] pg)))].
Proof.
  exists {| hook := at_cuts;
            cuts := CutsPreview.init {| CutsPreview.script := script0;
                                        CutsPreview.images := [image1; image2] |} |}.
  assert (Hm : mount at_cuts
               = Some {| hook := at_cuts;
                         cuts := CutsPreview.init
                                   {| CutsPreview.script := script0;
                                      CutsPreview.images := [image1; image2] |} |})
    by (vm_compute; reflexivity).
  assert (Hi : images (state at_cuts) = Some [image1; image2])
    by (vm_compute; reflexivity).
  assert (Hr : active_runId (state at_cuts) = Some "run-1")
    by (vm_compute; reflexivity).
  assert (Hc : Forall (in_range (length [image1; image2])) [(0%nat, CutsPreview.down)])
    by (repeat constructor; simpl; lia).
  split; [exact Hm|].
  exact (proj1 (X24_compose_sends_the_displayed_order _ _ _ _ _ Hm Hi Hr Hc)).
Defined.

(** ** Editing the script before it is confirmed *)

Lemma renumber_lookup (l : list ScriptScene) (i : nat) :
  ScriptPreview.renumber l !! i
  = (fun s => {| scene_id := Z.of_nat i + 1; text := text s;
                 image_prompt := image_prompt s; duration_sec := duration_sec s |})
      <$> l !! i.
Proof. unfold ScriptPreview.renumber. by rewrite list_lookup_imap. Qed.

Lemma renumber_numbered (l : list ScriptScene) : numbered (ScriptPreview.renumber l).
Proof.
  intros i s. rewrite renumber_lookup. destruct (l !! i); simpl; [|done].
  by intros [= <-].
Qed.

(** Renumbering touches the ids only. *)
Lemma renumber_content (l : list ScriptScene) :
  (fun s => (text s, image_prompt s, duration_sec s)) <$> ScriptPreview.renumber l
  = (fun s => (text s, image_prompt s, duration_sec s)) <$> l.
Proof.
  apply list_eq. intros i. rewrite !list_lookup_fmap, renumber_lookup.
  by destruct (l !! i).
Qed.

(** Scenes already numbered by position renumber to themselves. *)
Lemma renumber_id (l : list ScriptScene) : numbered l -> ScriptPreview.renumber l = l.
Proof.
  intros Hn. apply list_eq. intros i. rewrite renumber_lookup.
  destruct (l !! i) as [s|] eqn:Hs; simpl; [|done].
  rewrite <- (Hn i s Hs). by destruct s.
Qed.

(** A move inside the list, written with list updates. *)
Lemma moveScene_in_range (index : nat) (direction : CutsPreview.Direction) (st : Script) :
  in_range (length (scenes st)) (index, direction) ->
  exists lo a b,
    Z.of_nat lo = Z.min (Z.of_nat index) (Z.of_nat index + CutsPreview.offset direction) ∧
    scenes st !! lo = Some a ∧ scenes st !! S lo = Some b ∧
    ScriptPreview.moveScene index direction st
    = Some {| title := title st;
              scenes := ScriptPreview.renumber (<[S lo := a]> (<[lo := b]> (scenes st))) |}.
Proof.
  unfold in_range. simpl. intros [Hi Ht]. unfold ScriptPreview.moveScene.
  destruct (decide _) as [Hout|_]; [lia|].
  destruct direction; simpl in *.
  - destruct index as [|t]; [lia|].
    replace (Z.to_nat (Z.of_nat (S t) + -1)) with t by lia.
    destruct (lookup_lt_is_Some_2 (scenes st) t) as [a Ha]; [lia|].
    destruct (lookup_lt_is_Some_2 (scenes st) (S t)) as [b Hb]; [lia|].
    exists t, a, b. rewrite Ha, Hb. split; [lia|]. split; [done|]. split; [done|].
    by rewrite list_insert_insert_ne by lia.
  - replace (Z.to_nat (Z.of_nat index + 1)) with (S index) by lia.
    destruct (lookup_lt_is_Some_2 (scenes st) index) as [a Ha]; [lia|].
    destruct (lookup_lt_is_Some_2 (scenes st) (S index)) as [b Hb]; [lia|].
    exists index, a, b. rewrite Ha, Hb. split; [lia|]. done.
Qed.

(** X25. Moving a scene up or down in the script editor never loses
    or duplicates one: each move button of each row yields a script
    with the same title whose scenes carry the same texts, prompts and
    durations as before, rearranged.  A move inside the list leaves the
    scene ids numbered 1, 2, ... by position, whatever they were; the up
    button of the first row and the down button of the last change
    nothing. *)
Theorem X25_moving_a_scene (index : nat) (direction : CutsPreview.Direction) (st : Script) :
  (index < length (scenes st))%nat ->
  exists st',
    ScriptPreview.moveScene index direction st = Some st' ∧
    title st' = title st ∧
    Permutation ((fun s => (text s, image_prompt s, duration_sec s)) <$> scenes st')
                ((fun s => (text s, image_prompt s, duration_sec s)) <$> scenes st) ∧
    (in_range (length (scenes st)) (index, direction) -> numbered (scenes st')) ∧
    (¬ in_range (length (scenes st)) (index, direction) -> st' = st).
Proof.
  intros Hi.
  destruct (decide (in_range (length (scenes st)) (index, direction))) as [Hr|Hr].
  - destruct (moveScene_in_range index direction st Hr) as (lo & a & b & _ & Ha & Hb & He).
    eexists. split; [exact He|]. simpl.
    assert (Hp : Permutation
                   ((fun s => (text s, image_prompt s, duration_sec s))
                      <$> ScriptPreview.renumber (<[S lo := a]> (<[lo := b]> (scenes st))))
                   ((fun s => (text s, image_prompt s, duration_sec s)) <$> scenes st)).
    { rewrite renumber_content. apply fmap_Permutation. by apply swap_adjacent_perm. }
    split; [done|]. split; [exact Hp|]. split; [intros _; apply renumber_numbered|done].
  - exists st. unfold ScriptPreview.moveScene.
    destruct (decide _) as [_|Hin].
    + by repeat split.
    + exfalso. apply Hr. unfold in_range. simpl. lia.
Qed.

Lemma X25_moving_a_scene_witness :
  exists st', ScriptPreview.moveScene 0 CutsPreview.down script0 = Some st' ∧
              title st' = title script0 ∧
              Permutation ((fun s => (text s, image_prompt s, duration_sec s)) <$> scenes st')
                          ((fun s => (text s, image_prompt s, duration_sec s))
                             <$> scenes script0).
Proof.
  assert (Hi : (0 < length (scenes script0))%nat) by (vm_compute; lia).
  destruct (X25_moving_a_scene 0 CutsPreview.down script0 Hi)
    as (st' & He & Ht & Hp & _).
  exists st'. split; [exact He|]. split; [exact Ht|exact Hp].
Defined.

(** ** Moved and edited scenes in the diff of [confirm] *)

Lemma numbered_NoDup (l : list ScriptScene) : numbered l -> NoDup (scene_id <$> l).
Proof.
  intros Hn. apply NoDup_alt. intros i j id Hi Hj.
  rewrite list_lookup_fmap in Hi, Hj.
  destruct (l !! i) as [a|] eqn:Ha; [|done]. destruct (l !! j) as [b|] eqn:Hb; [|done].
  simpl in Hi, Hj. injection Hi as Hi. injection Hj as Hj.
  rewrite (Hn i a Ha) in Hi. rewrite (Hn j b Hb) in Hj. lia.
Qed.

(** In a numbered list, [find] by id is lookup by position. *)
Lemma find_numbered (l : list ScriptScene) (k : nat) (s : ScriptScene) :
  numbered l -> l !! k = Some s -> find_scene (Z.of_nat k + 1) l = Some s.
Proof.
  intros Hn Hs. apply find_scene_unique.
  - by apply numbered_NoDup.
  - by apply (list_elem_of_lookup_2 _ k).
  - by apply Hn.
Qed.

Lemma filter_none {A : Type} (f : A -> bool) (l : list A) :
  (forall x, x ∈ l -> f x = false) -> List.filter f l = [].
Proof.
  induction l as [|x l IH]; intros H; simpl; [done|].
  rewrite (H x) by left. apply IH. intros y Hy. apply H. by right.
Qed.

(** A scene that sits where the baseline has it is not changed. *)
Lemma scene_in_place (l : list ScriptScene) (k : nat) (s : ScriptScene) :
  numbered l -> l !! k = Some s -> scene_changed l s = false.
Proof.
  intros Hn Hs. unfold scene_changed. rewrite (Hn k s Hs), (find_numbered l k s Hn Hs).
  by rewrite String.eqb_refl.
Qed.

Lemma diff_after_move (pre post : list ScriptScene) (x y : ScriptScene) :
  numbered (pre ++ x :: y :: post) ->
  scene_id <$> List.filter (scene_changed (pre ++ x :: y :: post))
                 (ScriptPreview.renumber (pre ++ y :: x :: post))
  = if String.eqb (image_prompt x) (image_prompt y) then []
    else [Z.of_nat (length pre) + 1; Z.of_nat (length pre) + 2].
Proof.
  intros Hn. set (l := pre ++ x :: y :: post) in *.
  assert (Hx : l !! length pre = Some x) by (by apply list_lookup_middle).
  assert (Hy : l !! S (length pre) = Some y).
  { unfold l. rewrite lookup_app_r by lia.
    by replace (S (length pre) - length pre)%nat with 1%nat by lia. }
  assert (Hpre : forall k s, pre !! k = Some s -> l !! k = Some s).
  { intros k s Hs. unfold l. by apply lookup_app_l_Some. }
  assert (Hpost : forall k s, post !! k = Some s -> l !! (length pre + 2 + k)%nat = Some s).
  { intros k s Hs. unfold l. rewrite lookup_app_r by lia.
    by replace (length pre + 2 + k - length pre)%nat with (S (S k)) by lia. }
  unfold ScriptPreview.renumber. rewrite imap_app. simpl.
  rewrite !List.filter_app. simpl.
  rewrite (filter_none _ (imap _ pre)); cycle 1.
  { intros e He. apply elem_of_lookup_imap in He as (k & s & -> & Hs).
    unfold scene_changed. simpl.
    rewrite (find_numbered l k s Hn (Hpre k s Hs)). by rewrite String.eqb_refl. }
  rewrite (filter_none _ (imap _ post)); cycle 1.
  { intros e He. apply elem_of_lookup_imap in He as (k & s & -> & Hs).
    unfold scene_changed. simpl.
    replace (Z.of_nat (length pre + S (S k)) + 1)
      with (Z.of_nat (length pre + 2 + k) + 1) by lia.
    rewrite (find_numbered l _ s Hn (Hpost k s Hs)). by rewrite String.eqb_refl. }
  unfold scene_changed. simpl.
  replace (length pre + 0)%nat with (length pre) by lia.
  rewrite (find_numbered l _ x Hn Hx).
  replace (Z.of_nat (length pre + 1) + 1) with (Z.of_nat (S (length pre)) + 1) by lia.
  rewrite (find_numbered l _ y Hn Hy).
  rewrite (String.eqb_sym (image_prompt y) (image_prompt x)).
  destruct (String.eqb (image_prompt x) (image_prompt y)); simpl; [done|].
  f_equal. f_equal. lia.
Qed.

(** X26. Because a move renumbers the scenes by position, [confirm]
    compares a moved scene with the baseline scene whose place it took.
    After one move of two neighbouring scenes of the baseline, the
    changed ids are the two positions involved when the two prompts
    differ, so both images are generated again, and none when the two
    prompts are equal, although the texts have changed places. *)
Theorem X26_moved_scenes_are_diffed_by_position (s : GenerationState) (b : Script)
    (imgs : list CutImage.t) (i : nat) (x y : ScriptScene) :
  originalScript s = Some b ->
  images s = Some imgs ->
  numbered (scenes b) ->
  scenes b !! i = Some x ->
  scenes b !! S i = Some y ->
  exists b',
    ScriptPreview.moveScene i CutsPreview.down b = Some b' ∧
    ScriptPreview.moveScene (S i) CutsPreview.up b = Some b' ∧
    changedSceneIds s b'
    = Some (if String.eqb (image_prompt x) (image_prompt y) then []
            else [Z.of_nat i + 1; Z.of_nat i + 2]).
Proof.
  intros Ho Hi Hn Hx Hy.
  assert (Hl : (S i < length (scenes b))%nat) by (apply lookup_lt_is_Some; by eexists).
  assert (Hd : in_range (length (scenes b)) (i, CutsPreview.down))
    by (unfold in_range; simpl; lia).
  assert (Hu : in_range (length (scenes b)) (S i, CutsPreview.up))
    by (unfold in_range; simpl; lia).
  destruct (moveScene_in_range _ _ _ Hd) as (lo & a & c & Hlo & Ha & Hc & He).
  destruct (moveScene_in_range _ _ _ Hu) as (lo' & a' & c' & Hlo' & Ha' & Hc' & He').
  simpl in Hlo, Hlo'.
  assert (lo = i) as -> by lia. assert (lo' = i) as -> by lia.
  assert (a = x) as -> by congruence. assert (c = y) as -> by congruence.
  assert (a' = x) as -> by congruence. assert (c' = y) as -> by congruence.
  eexists. split; [exact He|]. split; [exact He'|].
  unfold changedSceneIds. rewrite Ho, Hi. f_equal. simpl.
  rewrite diff_loop_filter. simpl.
  assert (Hsplit : scenes b = take i (scenes b) ++ x :: y :: drop (S (S i)) (scenes b)).
  { rewrite <- (take_drop_middle (scenes b) i x Hx) at 1. f_equal. f_equal.
    by apply drop_S. }
  assert (Hlen : length (take i (scenes b)) = i) by (rewrite length_take; lia).
  assert (Hmoved : <[S i := x]> (<[i := y]> (scenes b))
                   = take i (scenes b) ++ y :: x :: drop (S (S i)) (scenes b)).
  { rewrite Hsplit at 1.
    rewrite (insert_app_r_alt _ _ i) by lia. rewrite Hlen, Nat.sub_diag. simpl.
    rewrite (insert_app_r_alt _ _ (S i)) by lia. rewrite Hlen.
    by replace (S i - i)%nat with 1%nat by lia. }
  rewrite Hmoved. rewrite Hsplit at 1.
  rewrite diff_after_move by (by rewrite <- Hsplit). by rewrite Hlen.
Qed.

Lemma X26_moved_scenes_are_diffed_by_position_witness :
  exists b',
    ScriptPreview.moveScene 0 CutsPreview.down script0 = Some b' ∧
    changedSceneIds cuts_session b' = Some [1; 2].
Proof.
  assert (Ho : originalScript cuts_session = Some script0) by (vm_compute; reflexivity).
  assert (Hi : images cuts_session = Some [image1; image2]) by (vm_compute; reflexivity).
  assert (Hn : numbered (scenes script0)).
  { intros [|[|k]] s; simpl; intros [= <-]; reflexivity. }
  destruct (X26_moved_scenes_are_diffed_by_position cuts_session script0 [image1; image2]
              0 scene1 scene2 Ho Hi Hn eq_refl eq_refl) as (b' & He & _ & Hc).
  exists b'. split; [exact He|exact Hc].
Defined.

(** Edits of text and duration keep, for every scene, a baseline scene
    of the same id and prompt. *)
Lemma updateScene_keeps (b : list ScriptScene) (index : nat) (patch : ScriptPreview.Patch)
    (st : Script) :
  ScriptPreview.keeps_prompt patch ->
  (forall e, e ∈ scenes st ->
     exists o, o ∈ b ∧ scene_id o = scene_id e ∧ image_prompt o = image_prompt e) ->
  forall e, e ∈ scenes (ScriptPreview.updateScene index patch st) ->
    exists o, o ∈ b ∧ scene_id o = scene_id e ∧ image_prompt o = image_prompt e.
Proof.
  intros [Hid Hp] H e He. simpl in He.
  apply elem_of_lookup_imap in He as (i & s & -> & Hs).
  destruct (H s) as (o & Ho & Hoid & Hop); [by apply (list_elem_of_lookup_2 _ i)|].
  exists o. split; [done|].
  destruct (decide (i = index)); [|done].
  unfold ScriptPreview.patched. simpl. by rewrite Hid, Hp.
Qed.

Lemma edits_keep (b : list ScriptScene) (edits : list (nat * ScriptPreview.Patch))
    (st : Script) :
  Forall (fun e => ScriptPreview.keeps_prompt e.2) edits ->
  (forall e, e ∈ scenes st ->
     exists o, o ∈ b ∧ scene_id o = scene_id e ∧ image_prompt o = image_prompt e) ->
  forall e, e ∈ scenes (foldl (fun st e => ScriptPreview.updateScene e.1 e.2 st) st edits) ->
    exists o, o ∈ b ∧ scene_id o = scene_id e ∧ image_prompt o = image_prompt e.
Proof.
  intros He. revert st.
  induction He as [|[index patch] rest Hp _ IH]; intros st H0; [done|].
  simpl. apply IH. by apply updateScene_keeps.
Qed.

(** X27. Typing into the text boxes and duration inputs of the script
    editor, as often and in whatever rows, and then confirming costs no
    image generation: when the editor was opened on the baseline script
    of a run that has images, and the baseline's scene ids are distinct,
    the confirm button sends no request and shows the cuts again, with
    the edited script in the Session. *)
Theorem X27_text_edits_confirm_locally (m : Hook) (b : Script) (imgs : list CutImage.t)
    (r : string) (edits : list (nat * ScriptPreview.Patch)) :
  active_runId (state m) = Some r ->
  originalScript (state m) = Some b ->
  images (state m) = Some imgs ->
  NoDup (scene_id <$> scenes b) ->
  Forall (fun e => ScriptPreview.keeps_prompt e.2) edits ->
  let edited := foldl (fun st e => ScriptPreview.updateScene e.1 e.2 st) b edits in
  requests (ScriptPreview.handleConfirm edited m) = requests m ∧
  tasks (ScriptPreview.handleConfirm edited m) = tasks m ∧
  phase (state (ScriptPreview.handleConfirm edited m)) = Phase.cuts_review ∧
  script (state (ScriptPreview.handleConfirm edited m)) = Some edited ∧
  images (state (ScriptPreview.handleConfirm edited m)) = Some imgs.
Proof.
  intros Hr Ho Hi Hnd He edited.
  assert (Hk : forall e, e ∈ scenes edited ->
             exists o, o ∈ scenes b ∧ scene_id o = scene_id e
                       ∧ image_prompt o = image_prompt e).
  { apply (edits_keep (scenes b)); [done|]. intros e ?. by exists e. }
  assert (Hc : changedSceneIds (state m) edited = Some []).
  { apply changed_ids_empty_iff. exists b, imgs. split; [done|]. split; [done|].
    intros e Hin. destruct (Hk e Hin) as (o & Hob & Hid & Hp).
    exists o. split; [|done]. by apply find_scene_unique. }
  unfold ScriptPreview.handleConfirm, confirm. rewrite Hr, Hc. simpl.
  by rewrite Hi.
Qed.

Lemma X27_text_edits_confirm_locally_witness :
  let m := run useGeneration (to_cuts_review ++ [Call Action.goToScriptReview]) in
  let edited :=
    ScriptPreview.updateScene 0
      {| ScriptPreview.p_scene_id := None; ScriptPreview.p_text := Some "a new opening";
         ScriptPreview.p_image_prompt := None; ScriptPreview.p_duration_sec := None |}
      script0 in
  requests (ScriptPreview.handleConfirm edited m) = requests m.
Proof.
  intros m edited.
  assert (Hr : active_runId (state m) = Some "run-1") by (vm_compute; reflexivity).
  assert (Ho : originalScript (state m) = Some script0) by (vm_compute; reflexivity).
  assert (Hi : images (state m) = Some [image1; image2]) by (vm_compute; reflexivity).
  assert (Hnd : NoDup (scene_id <$> scenes script0)).
  { simpl. apply NoDup_cons. split; [|apply NoDup_singleton].
    intros H. apply list_elem_of_singleton in H. discriminate H. }
  assert (He : Forall (fun e : nat * ScriptPreview.Patch => ScriptPreview.keeps_prompt e.2)
                 [(0%nat,
                   {| ScriptPreview.p_scene_id := None;
                      ScriptPreview.p_text := Some "a new opening";
                      ScriptPreview.p_image_prompt := None;
                      ScriptPreview.p_duration_sec := None |})]).
  { repeat constructor. }
  exact (proj1 (X27_text_edits_confirm_locally m script0 [image1; image2] "run-1" _
                  Hr Ho Hi Hnd He)).
Defined.

(** ** The date of a history entry *)

Lemma length_append (a b : string) :
  String.length (a +:+ b) = (String.length a + String.length b)%nat.
Proof. induction a as [|c a IH]; simpl; [done|]. by rewrite <- IH. Qed.

Lemma includes_underscore_app (a b : string) :
  History.includes_underscore (a +:+ b)
  = History.includes_underscore a || History.includes_underscore b.
Proof.
  induction a as [|c a IH]; simpl; [done|].
  change (String c a +:+ b) with (String c (a +:+ b)). simpl.
  rewrite IH. by destruct (Ascii.eqb c _).
Qed.

Lemma substring_whole (a b : string) :
  String.substring 0 (String.length a) (a +:+ b) = a.
Proof.
  induction a as [|c a IH]; simpl.
  - by destruct b.
  - change (String c a +:+ b) with (String c (a +:+ b)). simpl. by rewrite IH.
Qed.

Lemma substring_skip (a b : string) (n : nat) :
  String.substring (String.length a) n (a +:+ b) = String.substring 0 n b.
Proof.
  induction a as [|c a IH]; simpl; [done|].
  change (String c a +:+ b) with (String c (a +:+ b)). simpl. by rewrite IH.
Qed.

(** The slice of a text that starts where [a] ends and is as long as
    [x]. *)
Lemma slice_middle (a x b : string) (from to : nat) :
  from = String.length a -> to = (from + String.length x)%nat ->
  History.slice from to (a +:+ x +:+ b) = x.
Proof.
  intros -> ->. unfold History.slice.
  replace (String.length a + String.length x - String.length a)%nat
    with (String.length x) by lia.
  rewrite substring_skip. apply substring_whole.
Qed.

(** X28. A date in the form of a run id, eight characters, an
    underscore and six characters (YYYYMMDD_HHMMSS), is shown as
    YYYY/MM/DD HH:MM: the seconds are dropped and nothing else is
    lost. *)
Theorem X28_run_id_dates_are_reformatted (year month day hour min sec : string) :
  String.length year = 4%nat -> String.length month = 2%nat ->
  String.length day = 2%nat -> String.length hour = 2%nat ->
  String.length min = 2%nat -> String.length sec = 2%nat ->
  History.formatDate (year +:+ month +:+ day +:+ "_" +:+ hour +:+ min +:+ sec)
  = year +:+ "/" +:+ month +:+ "/" +:+ day +:+ " " +:+ hour +:+ ":" +:+ min.
Proof.
  intros Hy Hmo Hd Hh Hmi Hs. unfold History.formatDate.
  rewrite !length_append, Hy, Hmo, Hd, Hh, Hmi, Hs. simpl Nat.eqb.
  rewrite !includes_underscore_app.
  change (History.includes_underscore "_") with true.
  rewrite orb_true_l, !orb_true_r. simpl andb. cbv iota.
  set (rest1 := month +:+ day +:+ "_" +:+ hour +:+ min +:+ sec).
  assert (H1 : History.slice 0 4 (year +:+ rest1) = year).
  { apply (slice_middle EmptyString year rest1); simpl; lia. }
  assert (H2 : History.slice 4 6 (year +:+ rest1) = month).
  { unfold rest1. apply (slice_middle year month); lia. }
  assert (H3 : History.slice 6 8 (year +:+ rest1) = day).
  { unfold rest1.
    replace (year +:+ month +:+ day +:+ "_" +:+ hour +:+ min +:+ sec)
      with ((year +:+ month) +:+ day +:+ "_" +:+ hour +:+ min +:+ sec)
      by (by rewrite <- !append_assoc).
    apply slice_middle; rewrite ?length_append; lia. }
  assert (H4 : History.slice 9 11 (year +:+ rest1) = hour).
  { unfold rest1.
    replace (year +:+ month +:+ day +:+ "_" +:+ hour +:+ min +:+ sec)
      with ((year +:+ month +:+ day +:+ "_") +:+ hour +:+ min +:+ sec)
      by (by rewrite <- !append_assoc).
    apply slice_middle; rewrite ?length_append; simpl; lia. }
  assert (H5 : History.slice 11 13 (year +:+ rest1) = min).
  { unfold rest1.
    replace (year +:+ month +:+ day +:+ "_" +:+ hour +:+ min +:+ sec)
      with ((year +:+ month +:+ day +:+ "_" +:+ hour) +:+ min +:+ sec)
      by (by rewrite <- !append_assoc).
    apply slice_middle; rewrite ?length_append; simpl; lia. }
  by rewrite H1, H2, H3, H4, H5.
Qed.

Lemma X28_run_id_dates_are_reformatted_witness :
  History.formatDate "20250209_153045" = "2025/02/09 15:30".
Proof.
  exact (X28_run_id_dates_are_reformatted "2025" "02" "09" "15" "30" "45"
           eq_refl eq_refl eq_refl eq_refl eq_refl eq_refl).
Defined.

(** What [formatDate] tests is the length and an underscore anywhere. *)
Example formatDate_samples :
  History.formatDate "2025-02-09T15:30" = "2025-02-09T15:30" ∧
  History.formatDate "_20250209153045" = "_202/50/20 15:30".
Proof. split; vm_compute; reflexivity. Qed.

(** ** The stepper of the progress display *)

(** X29. Whatever the progress record says, the stepper reads as done
    steps, then at most one active step, then idle steps: no step is
    drawn done after one that is not, none is drawn idle before one
    that is not, and two steps are never active together. *)
Theorem X29_stepper_is_ordered (progress : option ProgressEvent.t) (a b : Z) :
  a < b ->
  (ProgressDisplay.look progress b = ProgressDisplay.done_look ->
   ProgressDisplay.look progress a = ProgressDisplay.done_look) ∧
  (ProgressDisplay.look progress a = ProgressDisplay.idle_look ->
   ProgressDisplay.look progress b = ProgressDisplay.idle_look) ∧
  ¬ (ProgressDisplay.look progress a = ProgressDisplay.active_look ∧
     ProgressDisplay.look progress b = ProgressDisplay.active_look).
Proof.
  intros Hab. unfold ProgressDisplay.look, ProgressDisplay.isDone, ProgressDisplay.isActive.
  set (c := ProgressDisplay.currentStep progress).
  set (d := match progress with Some p => status_is p "done" | None => false end).
  destruct (Z.ltb_spec a c), (Z.ltb_spec b c), (Z.eqb_spec a c), (Z.eqb_spec b c);
    try lia; destruct d; simpl; repeat split; try done; intros [? ?]; done.
Qed.

Lemma X29_stepper_is_ordered_witness :
  ProgressDisplay.look (Some (failed None)) 1 = ProgressDisplay.done_look.
Proof.
  assert (H : 1 < 2) by lia.
  apply (proj1 (X29_stepper_is_ordered (Some (failed None)) 1 2 H)).
  vm_compute. reflexivity.
Defined.
